(** * AutoTriage-AI: ownership inference and bug routing

    A shallow embedding of [ownership_analyzer.py] and
    [intelligent_router.py], and the properties of the specification
    checked against it.

    Conventions of the embedding:
    - a Python [str] is a [string], whose characters are code points
      0..255;
    - a Python [int] is a [Z]; a Python [float] is the rational [Q]
      it denotes.  The complexity score of the analyzer and the
      complexity estimate are computed exactly; candidate scoring,
      ranking and the confidence score round every operation to the
      nearest double, as [PyFloat] has it;
    - a Python [dict] is an association list in insertion order, since
      iteration order and the stability of [sorted] decide who is
      ranked first;
    - HTTP traffic goes through a [World] oracle and is recorded in a
      trace; exceptions are values of [exn] in a state-and-error
      monad. *)

From Stdlib Require Import String Ascii List ZArith QArith Qround Qminmax.
From Stdlib Require Import Qpower Qabs.
From Stdlib Require Import Lia Lqa Bool.
From Stdlib Require Import Sorting.Permutation Sorting.Sorted.
From Stdlib Require DecimalString.
Import ListNotations.

Local Open Scope string_scope.
Local Open Scope list_scope.

(* ================================================================= *)
(** * Python built-ins *)

Module Py.

(** ** Insertion-ordered dictionaries *)

Definition dict (V : Type) : Type := list (string * V).

Fixpoint get {V} (d : dict V) (k : string) : option V :=
  match d with
  | [] => None
  | (k', v) :: d' => if String.eqb k k' then Some v else get d' k
  end.

(** [k in d] *)
Definition mem {V} (d : dict V) (k : string) : bool :=
  match get d k with Some _ => true | None => false end.

(** [d[k] = v]: an existing key keeps its position, a new key goes last. *)
Fixpoint set {V} (d : dict V) (k : string) (v : V) : dict V :=
  match d with
  | [] => [(k, v)]
  | (k', v') :: d' =>
      if String.eqb k k' then (k', v) :: d' else (k', v') :: set d' k v
  end.

(** [d[k] = f(d[k])] on a [defaultdict] whose factory returns [dflt]:
    a missing key is first inserted, last, with the default. *)
Fixpoint upd {V} (d : dict V) (k : string) (dflt : V) (f : V -> V) : dict V :=
  match d with
  | [] => [(k, f dflt)]
  | (k', v) :: d' =>
      if String.eqb k k' then (k', f v) :: d' else (k', v) :: upd d' k dflt f
  end.

Definition keys {V} (d : dict V) : list string := map fst d.
Definition values {V} (d : dict V) : list V := map snd d.

(** ** [sorted(xs, key=..., reverse=True)]

    [sorted] is stable, also under [reverse=True]: among items of equal
    key the input order is kept.  A stable sort has one possible
    output, so insertion sort stands for it. *)

Section Sorted.
Context {A K : Type} (ltb : K -> K -> bool) (key : A -> K).

Fixpoint insert_desc (x : A) (l : list A) : list A :=
  match l with
  | [] => [x]
  | y :: l' =>
      if ltb (key x) (key y) then y :: insert_desc x l' else x :: y :: l'
  end.

Definition sorted_desc (l : list A) : list A :=
  fold_right insert_desc [] l.
End Sorted.

(** [xs[a:b]] for [0 <= a <= b] *)
Definition slice {A} (a b : nat) (l : list A) : list A :=
  firstn (b - a) (skipn a l).

(** ** Sets of strings, for [set.add] and [len] *)

Fixpoint set_add (x : string) (s : list string) : list string :=
  match s with
  | [] => [x]
  | y :: s' => if String.eqb x y then s else y :: set_add x s'
  end.

(** ** Strings *)

Fixpoint chars (s : string) : list ascii :=
  match s with
  | EmptyString => []
  | String c s' => c :: chars s'
  end.

Fixpoint str (l : list ascii) : string :=
  match l with
  | [] => EmptyString
  | c :: l' => String c (str l')
  end.

(** [s.split(sep)] for a one-character separator *)
Fixpoint split_chars (sep : ascii) (l : list ascii) : list (list ascii) :=
  match l with
  | [] => [[]]
  | c :: l' =>
      if Ascii.eqb c sep then [] :: split_chars sep l'
      else match split_chars sep l' with
           | [] => [[c]]
           | w :: ws => (c :: w) :: ws
           end
  end.

Definition split (sep : ascii) (s : string) : list string :=
  map str (split_chars sep (chars s)).

(** [sep.join(parts)] *)
Definition join (sep : string) (parts : list string) : string :=
  String.concat sep parts.

(** [sub in s] *)
Fixpoint is_prefix (p s : list ascii) : bool :=
  match p, s with
  | [], _ => true
  | _ :: _, [] => false
  | a :: p', b :: s' => Ascii.eqb a b && is_prefix p' s'
  end.

Fixpoint contains_chars (sub s : list ascii) : bool :=
  is_prefix sub s ||
  match s with
  | [] => false
  | _ :: s' => contains_chars sub s'
  end.

Definition contains (sub s : string) : bool :=
  contains_chars (chars sub) (chars s).

(** [c.lower()] on code points below 256: A-Z, and the Latin-1 capitals
    192..222 except the multiplication sign 215. *)
Definition lower_char (c : ascii) : ascii :=
  let n := nat_of_ascii c in
  if ((65 <=? n) && (n <=? 90)
      || (192 <=? n) && (n <=? 222) && negb (n =? 215))%nat
  then ascii_of_nat (n + 32) else c.

Definition lower (s : string) : string := str (map lower_char (chars s)).

(** [str(n)] for a length *)
Definition str_of_nat (n : nat) : string :=
  DecimalString.NilZero.string_of_uint (Nat.to_uint n).

(** ** Numbers *)

(** [min(a, b)]: the first argument unless the second is smaller *)
Definition min (a b : Q) : Q := if Qlt_le_dec b a then b else a.

(** [round(x)] to the nearest integer, halves to the even one *)
Definition round_half_even (x : Q) : Z :=
  let f := Qfloor x in
  match (x - inject_Z f ?= 1 # 2)%Q with
  | Lt => f
  | Gt => (f + 1)%Z
  | Eq => if Z.even f then f else (f + 1)%Z
  end.

(** [round(x, 2)] *)
Definition round2 (x : Q) : Q :=
  (inject_Z (round_half_even (x * 100)) / 100)%Q.

(** [sum(xs)] *)
Definition sum (l : list Z) : Z := fold_left Z.add l 0%Z.

End Py.

(* ================================================================= *)
(** * Floating point

    A finite double is the rational it denotes.  An operation on
    floats is the exact operation followed by rounding to the nearest
    double, halves to the one with an even last place: the last place
    is 52 binary places under the leading one, and [2^-1074] in the
    subnormal range.  Infinities and NaN are not modelled: a result
    beyond the largest double is outside the model. *)

Module PyFloat.
Local Open Scope Q_scope.

(** the floor of the binary logarithm of a positive rational *)
Definition ilog2 (x : Q) : Z :=
  let k := (Z.log2 (Qnum x) - Z.log2 (Zpos (Qden x)))%Z in
  if Qle_bool (2 ^ k) x then k else (k - 1)%Z.

(** the exponent of the last place of the doubles around a positive [x] *)
Definition ulp_exponent (x : Q) : Z := Z.max (ilog2 x - 52) (-1074).

Definition nearest_pos (x : Q) : Q :=
  let u := 2 ^ ulp_exponent x in
  inject_Z (Py.round_half_even (x / u)) * u.

(** the double nearest to [x]; also what a literal denotes that is not
    a double itself, as [0.1], [0.2], [0.8] and [1.2] are not *)
Definition nearest (x : Q) : Q :=
  match x ?= 0 with
  | Eq => 0
  | Gt => nearest_pos x
  | Lt => - nearest_pos (- x)
  end.

(** [x + y], [x * y] and [x / y] on floats; an [int] operand is
    converted to a float first, which changes nothing below [2^53] *)
Definition add (x y : Q) : Q := nearest (x + y).
Definition mul (x y : Q) : Q := nearest (x * y).
Definition div (x y : Q) : Q := nearest (x / y).

(** [float(n)] *)
Definition of_int (n : Z) : Q := nearest (inject_Z n).

(** half a unit in the last place of the doubles from 1 up to 2 *)
Definition half_ulp : Q := 1 # 9007199254740992.

(** [round(x, 2)] on a float: the decimal with two places nearest to
    the exact value of [x], halves to even, and then the double nearest
    to that decimal *)
Definition round2 (x : Q) : Q := nearest (Py.round2 x).

End PyFloat.

(* ================================================================= *)
(** * Regular expressions: the fragment of [re] the router uses

    A backtracking matcher with Python's priorities: quantifiers are
    greedy, alternatives are tried left to right, and the first way of
    matching that succeeds is the match.  Quantifiers apply to single
    characters, which is all the three patterns of the router need. *)

Module Re.

Inductive atom : Type :=
| Lit (c : ascii)          (* the character itself *)
| Word                     (* \w *)
| Space.                   (* \s *)

(** a character class [[...]]; a single atom is the class of just it *)
Definition cls : Type := list atom.

Inductive regex : Type :=
| Chr (c : cls)
| Star (c : cls)           (* c*  *)
| Plus (c : cls)           (* c+  *)
| Seq (r1 r2 : regex)
| Alt (r1 r2 : regex)      (* r1|r2 *)
| Group (n : nat) (r : regex).

(** a literal word, character by character *)
Fixpoint Str_chars (l : list ascii) : regex :=
  match l with
  | [] => Star []
  | [c] => Chr [Lit c]
  | c :: l' => Seq (Chr [Lit c]) (Str_chars l')
  end.

Definition Str (s : string) : regex := Str_chars (Py.chars s).

Definition between (a b n : nat) : bool := ((a <=? n) && (n <=? b))%nat.

(** [\w] on a [str] pattern: alphanumeric in Unicode's sense, or [_] *)
Definition is_word (c : ascii) : bool :=
  let n := nat_of_ascii c in
  between 48 57 n || between 65 90 n || between 97 122 n || (n =? 95)%nat
  || (n =? 170)%nat || (n =? 178)%nat || (n =? 179)%nat || (n =? 181)%nat
  || (n =? 185)%nat || (n =? 186)%nat || between 188 190 n
  || between 192 214 n || between 216 246 n || between 248 255 n.

(** [\s] on a [str] pattern *)
Definition is_space (c : ascii) : bool :=
  let n := nat_of_ascii c in
  between 9 13 n || between 28 32 n || (n =? 133)%nat || (n =? 160)%nat.

(** [ic] is the IGNORECASE flag *)
Definition accepts1 (ic : bool) (k : atom) (c : ascii) : bool :=
  match k with
  | Lit a =>
      if ic then Ascii.eqb (Py.lower_char a) (Py.lower_char c)
      else Ascii.eqb a c
  | Word => is_word c
  | Space => is_space c
  end.

Definition accepts (ic : bool) (k : cls) (c : ascii) : bool :=
  existsb (fun a => accepts1 ic a c) k.

(** captured groups, the most recent binding first *)
Definition caps : Type := list (nat * list ascii).

Fixpoint cap (g : caps) (n : nat) : option (list ascii) :=
  match g with
  | [] => None
  | (m, v) :: g' => if (n =? m)%nat then Some v else cap g' n
  end.

Definition outcome : Type := option (list ascii * caps).

(** greedy repetition: take one more character if possible, and give
    one back when the rest of the pattern then fails *)
Fixpoint star (p : ascii -> bool) (s : list ascii)
         (k : list ascii -> outcome) : outcome :=
  match s with
  | c :: s' =>
      if p c then
        match star p s' k with
        | Some r => Some r
        | None => k s
        end
      else k s
  | [] => k s
  end.

(** [exec ic r s g k]: match [r] at the head of [s], then continue with
    [k] on what is left *)
Fixpoint exec (ic : bool) (r : regex) (s : list ascii) (g : caps)
         (k : list ascii -> caps -> outcome) : outcome :=
  match r with
  | Chr c =>
      match s with
      | a :: s' => if accepts ic c a then k s' g else None
      | [] => None
      end
  | Star c => star (accepts ic c) s (fun s' => k s' g)
  | Plus c =>
      match s with
      | a :: s' =>
          if accepts ic c a then star (accepts ic c) s' (fun s'' => k s'' g)
          else None
      | [] => None
      end
  | Seq r1 r2 => exec ic r1 s g (fun s' g' => exec ic r2 s' g' k)
  | Alt r1 r2 =>
      match exec ic r1 s g k with
      | Some x => Some x
      | None => exec ic r2 s g k
      end
  | Group n r1 =>
      exec ic r1 s g
           (fun s' g' => k s' ((n, firstn (length s - length s') s) :: g'))
  end.

(** [re.match] at the head of [s]: what is left, and the groups *)
Definition match_here (ic : bool) (r : regex) (s : list ascii) : outcome :=
  exec ic r s [] (fun s' g => Some (s', g)).

(** groups 1..n of a match; a group that took no part is [''] *)
Definition groups_of (n : nat) (g : caps) : list string :=
  map (fun i => match cap g i with Some v => Py.str v | None => "" end)
      (seq 1 n).

(** The non-overlapping matches of [r] in [s], left to right: for each
    the matched text and its groups.  The scan resumes where a match
    ended (one character further after an empty match). *)
Fixpoint scan (fuel : nat) (ic : bool) (r : regex) (n : nat)
         (s : list ascii) : list (string * list string) :=
  match fuel with
  | O => []
  | S fuel' =>
      let next := match s with [] => [] | _ :: t => scan fuel' ic r n t end in
      match match_here ic r s with
      | Some (s', g) =>
          (Py.str (firstn (length s - length s') s), groups_of n g)
            :: (if (length s' <? length s)%nat then scan fuel' ic r n s'
                else next)
      | None => next
      end
  end.

(** [re.findall] for a pattern with exactly one group: the list of what
    that group captured, not of the whole matches *)
Definition findall1 (ic : bool) (r : regex) (text : string) : list string :=
  let s := Py.chars text in
  map (fun m => hd "" (snd m)) (scan (S (length s)) ic r 1 s).

(** [re.findall] for a pattern with [n > 1] groups: one tuple per match *)
Definition findall_tuples (ic : bool) (r : regex) (n : nat) (text : string)
  : list (list string) :=
  let s := Py.chars text in
  map snd (scan (S (length s)) ic r n s).

End Re.

(* ================================================================= *)
(** * Effects: exceptions, HTTP requests and the commit cache *)

Module Fx.

Inductive exn : Type :=
| KeyError (key : string)
| NameError (name : string).

Inductive result (A : Type) : Type :=
| Ok (a : A)
| Raise (e : exn).
Arguments Ok {A} a.
Arguments Raise {A} e.

(** What GitHub sends back, as far as the analyzer reads it. *)
Record commit : Type := {
  sha : string;                  (* commit['sha'] *)
  author_email : string          (* commit['commit']['author']['email'] *)
}.

Record file_info : Type := {
  filename : string;             (* file_info['filename'] *)
  changes : option Z             (* file_info.get('changes', 0) *)
}.

Record commit_details : Type := {
  files : option (list file_info)   (* commit_details.get('files', []) *)
}.

Record response (A : Type) : Type := {
  status_code : Z;
  json : A
}.
Arguments status_code {A} r.
Arguments json {A} r.

(** The three kinds of GET the analyzer issues. *)
Inductive request : Type :=
| GetCommits (repo : string) (since : Z) (page : nat)
| GetCommit (repo : string) (sha : string)
| GetLastCommit (repo : string) (path : string).

(** The world outside: the clock, in seconds, and GitHub's answer to
    each request.  Every request is answered, with a status and a
    body of the shape above.  A connection that fails, a body that is
    not JSON and a commit without an author's e-mail make the code
    raise; such answers are outside this model, and what is proved of a
    call that returns is proved of the answers that are inside it. *)
Record World : Type := {
  now : Z;                                                (* datetime.now() *)
  commits_page : string -> Z -> nat -> response (list commit);
  commit_of : string -> string -> response commit_details;
  last_commit_dates : string -> string -> response (list Z)
}.

(** The analyzer's [self.cache], and the requests sent so far, oldest
    first. *)
Record state : Type := {
  cache : Py.dict commit_details;
  trace : list request
}.

Definition M (A : Type) : Type := state -> result A * state.

Definition ret {A} (a : A) : M A := fun s => (Ok a, s).

Definition bind {A B} (m : M A) (f : A -> M B) : M B :=
  fun s =>
    match m s with
    | (Ok a, s') => f a s'
    | (Raise e, s') => (Raise e, s')
    end.

Definition raise {A} (e : exn) : M A := fun s => (Raise e, s).

Definition send (r : request) : M unit :=
  fun s => (Ok tt, {| cache := cache s; trace := trace s ++ [r] |}).

Definition get_cache : M (Py.dict commit_details) :=
  fun s => (Ok (cache s), s).

Definition put_cache (c : Py.dict commit_details) : M unit :=
  fun s => (Ok tt, {| cache := c; trace := trace s |}).

(** [d[k]] on an optional key of a dictionary argument *)
Definition item {A} (k : string) (v : option A) : M A :=
  match v with
  | Some a => ret a
  | None => raise (KeyError k)
  end.

Fixpoint foldM {A B} (f : A -> B -> M A) (l : list B) (a : A) : M A :=
  match l with
  | [] => ret a
  | x :: l' => bind (f a x) (foldM f l')
  end.

Definition initial : state := {| cache := []; trace := [] |}.

End Fx.

Notation "x <- m ;; k" := (Fx.bind m (fun x => k))
  (at level 61, m at next level, right associativity).
Notation "m ;;; k" := (Fx.bind m (fun _ => k))
  (at level 61, right associativity).

(* ================================================================= *)
(** * ownership_analyzer.py *)

Module Analyzer.
Import Fx.

Record FileOwnership : Type := {
  file_path : string;
  primary_owner : option string;
  secondary_owners : list string;
  last_modified : Z;
  modification_count : Z;
  complexity_score : Q
}.

(** an entry of [file_complexity]; [avg_change_size] is never read *)
Record complexity_data : Type := {
  total_changes : Z;
  unique_contributors : list string
}.

(** the three accumulators of the loop over the commits *)
Record accumulators : Type := {
  acc_file_ownership : Py.dict (Py.dict Z);
  acc_developer_activity : Py.dict Z;
  acc_file_complexity : Py.dict complexity_data
}.

(** the dictionary [analyze_repository_ownership] returns *)
Record ownership_data : Type := {
  file_ownership : Py.dict FileOwnership;
  developer_activity : Py.dict Z;
  repository_experts : Py.dict (list (string * Z))
}.

Definition _calculate_complexity_score (d : complexity_data) : Q :=
  let total_changes := total_changes d in
  let unique_contributors := length (unique_contributors d) in
  let base_score := Py.min (inject_Z total_changes / 100) 1.0 in
  let contributor_factor :=
    Py.min (inject_Z (Z.of_nat unique_contributors) / 5) 1.0 in
  (base_score * 0.7 + contributor_factor * 0.3)%Q.

(** [sorted(contributors.items(), key=lambda x: x[1], reverse=True)] *)
Definition sorted_by_changes (items : list (string * Z)) : list (string * Z) :=
  Py.sorted_desc Z.ltb snd items.

(** ['/'.join(file_path.split('/')[:-1])] *)
Definition directory_of (file_path : string) : string :=
  Py.join "/" (removelast (Py.split "/" file_path)).

(** [file_path.split('.')[-1] if '.' in file_path else 'unknown'] *)
Definition ext_of (file_path : string) : string :=
  if Py.contains "." file_path then last (Py.split "." file_path) ""
  else "unknown".

Definition credit (experts : Py.dict (Py.dict Z)) (domain contributor : string)
           (changes : Z) : Py.dict (Py.dict Z) :=
  Py.upd experts domain []
         (fun d => Py.upd d contributor 0%Z (fun n => (n + changes)%Z)).

(** the first loop of [_identify_experts]: the [experts] table *)
Definition experts (file_ownership : Py.dict (Py.dict Z))
  : Py.dict (Py.dict Z) :=
  fold_left
    (fun experts (entry : string * Py.dict Z) =>
       let (file_path, ownership) := entry in
       let directory := directory_of file_path in
       let file_ext := ext_of file_path in
       fold_left
         (fun experts (c : string * Z) =>
            let (contributor, changes) := c in
            credit (credit experts directory contributor changes)
                   ("*." ++ file_ext) contributor changes)
         ownership experts)
    file_ownership [].

(** the second loop: [ranked_experts] *)
Definition ranked_experts (experts : Py.dict (Py.dict Z))
  : Py.dict (list (string * Z)) :=
  fold_left
    (fun ranked_experts (entry : string * Py.dict Z) =>
       let (domain, contributors) := entry in
       Py.set ranked_experts domain
              (Py.slice 0 3 (sorted_by_changes contributors)))
    experts [].

Definition _identify_experts (developer_activity : Py.dict Z)
           (file_ownership : Py.dict (Py.dict Z))
  : Py.dict (list (string * Z)) :=
  ranked_experts (experts file_ownership).

(** the [FileOwnership(...)] built for one file *)
Definition ownership_record (file_path : string) (contributors : Py.dict Z)
           (last_modified : Z) (data : complexity_data) : FileOwnership :=
  let sorted_contributors := sorted_by_changes contributors in
  {| file_path := file_path;
     primary_owner :=
       match sorted_contributors with
       | c :: _ => Some (fst c)
       | [] => None
       end;
     secondary_owners := map fst (Py.slice 1 3 sorted_contributors);
     last_modified := last_modified;
     modification_count := Py.sum (Py.values contributors);
     complexity_score := _calculate_complexity_score data |}.

(** the body of the loop over [commit_details.get('files', [])]; the
    last update finds its key, which the test before it has inserted *)
Definition touch (author : string) (acc : accumulators) (fi : file_info)
  : accumulators :=
  let file_path := filename fi in
  let changes := match changes fi with Some n => n | None => 0%Z end in
  let file_ownership :=
    Py.upd (acc_file_ownership acc) file_path []
           (fun d => Py.upd d author 0%Z (fun n => (n + changes)%Z)) in
  let developer_activity :=
    Py.upd (acc_developer_activity acc) author 0%Z
           (fun n => (n + changes)%Z) in
  let file_complexity :=
    if Py.mem (acc_file_complexity acc) file_path
    then acc_file_complexity acc
    else Py.set (acc_file_complexity acc) file_path
                {| total_changes := 0; unique_contributors := [] |} in
  let file_complexity :=
    Py.upd file_complexity file_path
           {| total_changes := 0; unique_contributors := [] |}
           (fun c =>
              {| total_changes := (total_changes c + changes)%Z;
                 unique_contributors :=
                   Py.set_add author (unique_contributors c) |}) in
  {| acc_file_ownership := file_ownership;
     acc_developer_activity := developer_activity;
     acc_file_complexity := file_complexity |}.

(** the three empty tables the loop starts from *)
Definition no_accumulators : accumulators :=
  {| acc_file_ownership := [];
     acc_developer_activity := [];
     acc_file_complexity := [] |}.

Definition files_of (d : commit_details) : list file_info :=
  match files d with Some l => l | None => [] end.

Section WithWorld.
Variable w : World.

(** the [while page <= 10] loop, [n] pages still allowed *)
Fixpoint fetch_pages (n : nat) (repo_name : string) (since_date : Z)
         (page : nat) (all_commits : list commit) : M (list commit) :=
  match n with
  | O => ret all_commits
  | S n' =>
      send (GetCommits repo_name since_date page) ;;;
      let response := commits_page w repo_name since_date page in
      if negb (status_code response =? 200)%Z then ret all_commits
      else
        let commits := json response in
        match commits with
        | [] => ret all_commits
        | _ => fetch_pages n' repo_name since_date (S page)
                           (all_commits ++ commits)
        end
  end.

Definition _get_recent_commits (repo_name : string) (since_date : Z)
  : M (list commit) :=
  fetch_pages 10 repo_name since_date 1 [].

Definition _get_commit_details (repo_name commit_sha : string)
  : M commit_details :=
  cache <- get_cache ;;
  match Py.get cache commit_sha with
  | Some data => ret data
  | None =>
      send (GetCommit repo_name commit_sha) ;;;
      let response := commit_of w repo_name commit_sha in
      if (status_code response =? 200)%Z then
        let data := json response in
        put_cache (Py.set cache commit_sha data) ;;;
        ret data
      else ret {| files := None |}
  end.

Definition _get_file_last_modified (repo_name file_path : string) : M Z :=
  send (GetLastCommit repo_name file_path) ;;;
  let response := last_commit_dates w repo_name file_path in
  if (status_code response =? 200)%Z then
    match json response with
    | date :: _ => ret date
    | [] => ret (now w)
    end
  else ret (now w).

(** the loop over the commits *)
Definition collect (repo_name : string) (commits : list commit)
  : M accumulators :=
  foldM
    (fun acc commit =>
       commit_details <- _get_commit_details repo_name (sha commit) ;;
       let author := author_email commit in
       ret (fold_left (touch author) (files_of commit_details) acc))
    commits no_accumulators.

(** the loop over [file_ownership.items()]; [file_complexity] has the
    keys of [file_ownership], a missing one would be a [KeyError] *)
Definition build_ownership_map (repo_name : string) (acc : accumulators)
  : M (Py.dict FileOwnership) :=
  foldM
    (fun ownership_map (entry : string * Py.dict Z) =>
       let (file_path, contributors) := entry in
       last_modified <- _get_file_last_modified repo_name file_path ;;
       data <- item file_path
                    (Py.get (acc_file_complexity acc) file_path) ;;
       ret (Py.set ownership_map file_path
              (ownership_record file_path contributors last_modified data)))
    (acc_file_ownership acc) [].

Definition analyze_repository_ownership (repo_name : string)
           (lookback_days : Z) : M ownership_data :=
  let since_date := (now w - lookback_days * 86400)%Z in
  commits <- _get_recent_commits repo_name since_date ;;
  acc <- collect repo_name commits ;;
  ownership_map <- build_ownership_map repo_name acc ;;
  ret {| file_ownership := ownership_map;
         developer_activity := acc_developer_activity acc;
         repository_experts :=
           _identify_experts (acc_developer_activity acc)
                             (acc_file_ownership acc) |}.
End WithWorld.

End Analyzer.

(* ================================================================= *)
(** * intelligent_router.py *)

Module Router.
Import Fx Analyzer.

(** The names bound in the module's namespace when a method runs: what
    its import statements bring in, and the class it defines.
[[
from typing import Dict, List, Optional, Tuple
from datetime import datetime, timedelta
from .ownership_analyzer import CodeOwnershipAnalyzer, Developer
import re
import json
]]
*)
Definition module_globals : list string :=
  ["Dict"; "List"; "Optional"; "Tuple"; "datetime"; "timedelta";
   "CodeOwnershipAnalyzer"; "Developer"; "re"; "json";
   "IntelligentBugRouter"].

(** Reading a global name: [NameError] unless the name is bound. *)
Definition global (globals : list string) (name : string) : M unit :=
  if existsb (String.eqb name) globals then ret tt
  else raise (NameError name).

(** The [bug_data] dictionary; [None] is an absent key. *)
Record bug_data : Type := {
  title : option string;
  description : option string;
  labels : option (list string);
  repository : option string;
  affected_files : option (list string);
  stack_trace : option string;
  priority : option string
}.

Record context : Type := {
  mentioned_files : list string;
  mentioned_functions : list string;
  mentioned_modules : list string;
  error_types : list string;
  affected_areas : list string;
  keywords : list string
}.

(** an entry of the [candidates] table *)
Record scores : Type := {
  s_ownership_score : Q;
  s_expertise_score : Q;
  s_relevance_score : Q;
  s_files_owned : list string;
  s_areas_of_expertise : list string
}.

(** [assignee_info], before ranking adds ['final_score'] *)
Record assignee_info : Type := {
  i_developer : string;
  i_total_score : Q;
  i_ownership_score : Q;
  i_expertise_score : Q;
  i_files_owned : list string;
  i_areas_of_expertise : list string
}.

(** a ranked assignee *)
Record assignee : Type := {
  developer : string;
  total_score : Q;
  ownership_score : Q;
  expertise_score : Q;
  files_owned : list string;
  areas_of_expertise : list string;
  final_score : Q
}.

Record routing_decision : Type := {
  assigned_to : option assignee;
  backup_assignees : list assignee;
  confidence_score : Q;
  routing_reason : string;
  escalation_needed : bool;
  suggested_labels : list string;
  estimated_complexity : string
}.

(** ** The three patterns *)

(** [[\w\/\-\.]+\.(py|js|ts|java|go|rs|cpp|c|h)] *)
Definition file_pattern : Re.regex :=
  Re.Seq (Re.Plus [Re.Word; Re.Lit "/"; Re.Lit "-"; Re.Lit "."])
  (Re.Seq (Re.Chr [Re.Lit "."])
  (Re.Group 1
     (Re.Alt (Re.Str "py") (Re.Alt (Re.Str "js") (Re.Alt (Re.Str "ts")
     (Re.Alt (Re.Str "java") (Re.Alt (Re.Str "go") (Re.Alt (Re.Str "rs")
     (Re.Alt (Re.Str "cpp") (Re.Alt (Re.Str "c") (Re.Str "h"))))))))))).

(** [def\s+(\w+)|function\s+(\w+)|(\w+)\s*\(] *)
Definition function_pattern : Re.regex :=
  Re.Alt
    (Re.Seq (Re.Str "def")
            (Re.Seq (Re.Plus [Re.Space]) (Re.Group 1 (Re.Plus [Re.Word]))))
    (Re.Alt
       (Re.Seq (Re.Str "function")
               (Re.Seq (Re.Plus [Re.Space]) (Re.Group 2 (Re.Plus [Re.Word]))))
       (Re.Seq (Re.Group 3 (Re.Plus [Re.Word]))
               (Re.Seq (Re.Star [Re.Space]) (Re.Chr [Re.Lit "("])))).

(** [(\w*Error|\w*Exception)] *)
Definition error_pattern : Re.regex :=
  Re.Group 1
    (Re.Alt (Re.Seq (Re.Star [Re.Word]) (Re.Str "Error"))
            (Re.Seq (Re.Star [Re.Word]) (Re.Str "Exception"))).

Definition area_keywords : Py.dict (list string) :=
  [("authentication", ["auth"; "login"; "token"; "jwt"; "oauth"]);
   ("database", ["sql"; "query"; "database"; "db"; "migration"]);
   ("api", ["api"; "endpoint"; "rest"; "graphql"; "request"]);
   ("frontend", ["ui"; "component"; "render"; "dom"; "css"]);
   ("backend", ["server"; "service"; "worker"; "job"; "queue"]);
   ("security", ["security"; "vulnerability"; "xss"; "csrf"; "injection"]);
   ("performance", ["slow"; "performance"; "memory"; "cpu"; "optimization"])].

(** truth value of a string, and of an optional string *)
Definition truthy (s : string) : bool := negb (String.eqb s "").

Definition _extract_bug_context (bug : bug_data) : M context :=
  t <- item "title" (title bug) ;;
  d <- item "description" (description bug) ;;
  let text := (t ++ " " ++ d)%string in
  let mentioned_files := Re.findall1 true file_pattern text in
  let matches := Re.findall_tuples false function_pattern 3 text in
  let mentioned_functions := flat_map (filter truthy) matches in
  let error_types := Re.findall1 false error_pattern text in
  let mentioned_files :=
    match stack_trace bug with
    | Some st =>
        if truthy st
        then mentioned_files ++ Re.findall1 false file_pattern st
        else mentioned_files
    | None => mentioned_files
    end in
  let text_lower := Py.lower text in
  let affected_areas :=
    fold_left
      (fun areas (entry : string * list string) =>
         let (area, keywords) := entry in
         if existsb (fun keyword => Py.contains keyword text_lower) keywords
         then areas ++ [area] else areas)
      area_keywords [] in
  ret {| mentioned_files := mentioned_files;
         mentioned_functions := mentioned_functions;
         mentioned_modules := [];
         error_types := error_types;
         affected_areas := affected_areas;
         keywords := [] |}.

(** ** Candidate discovery *)

(** what the [defaultdict]'s factory returns *)
Definition fresh : scores :=
  {| s_ownership_score := 0; s_expertise_score := 0; s_relevance_score := 0;
     s_files_owned := []; s_areas_of_expertise := [] |}.

(** [candidates[dev]['ownership_score'] += amount;
     candidates[dev]['files_owned'].append(file_path)] *)
Definition own (candidates : Py.dict scores) (dev : string) (amount : Q)
           (file_path : string) : Py.dict scores :=
  Py.upd candidates dev fresh
         (fun s => {| s_ownership_score :=
                        PyFloat.add (s_ownership_score s) amount;
                      s_expertise_score := s_expertise_score s;
                      s_relevance_score := s_relevance_score s;
                      s_files_owned := s_files_owned s ++ [file_path];
                      s_areas_of_expertise := s_areas_of_expertise s |}).

(** [candidates[dev]['expertise_score'] += amount;
     candidates[dev]['areas_of_expertise'].append(area)] *)
Definition know (candidates : Py.dict scores) (dev : string) (amount : Q)
           (area : string) : Py.dict scores :=
  Py.upd candidates dev fresh
         (fun s => {| s_ownership_score := s_ownership_score s;
                      s_expertise_score :=
                        PyFloat.add (s_expertise_score s) amount;
                      s_relevance_score := s_relevance_score s;
                      s_files_owned := s_files_owned s;
                      s_areas_of_expertise :=
                        s_areas_of_expertise s ++ [area] |}).

(** the body of [for file_path in relevant_files] *)
Definition score_file (file_ownership : Py.dict FileOwnership)
           (candidates : Py.dict scores) (path : string) : Py.dict scores :=
  match Py.get file_ownership path with
  | Some ownership =>
      let candidates :=
        match primary_owner ownership with
        | Some primary =>
            if truthy primary
            then own candidates primary
                     (PyFloat.mul (complexity_score ownership) 3) path
            else candidates
        | None => candidates
        end in
      fold_left
        (fun candidates secondary =>
           own candidates secondary
               (PyFloat.mul (complexity_score ownership) 1) path)
        (secondary_owners ownership) candidates
  | None => candidates
  end.

(** the body of [for area in context['affected_areas']] *)
Definition score_area (repository_experts : Py.dict (list (string * Z)))
           (candidates : Py.dict scores) (area : string) : Py.dict scores :=
  match Py.get repository_experts area with
  | Some experts =>
      fold_left
        (fun candidates (e : string * Z) =>
           let (expert, score) := e in
           know candidates expert
                (PyFloat.mul (PyFloat.of_int score) 0.5)
                area)
        (Py.slice 0 3 experts) candidates
  | None => candidates
  end.

Definition positive (x : Q) : bool := negb (Qle_bool x 0).

(** the loop that turns the table into [potential_assignees] *)
Definition potential (candidates : Py.dict scores) : list assignee_info :=
  fold_left
    (fun potential_assignees (entry : string * scores) =>
       let (developer, scores) := entry in
       if positive (s_ownership_score scores)
          || positive (s_expertise_score scores)
       then potential_assignees ++
            [{| i_developer := developer;
                i_total_score :=
                  PyFloat.add (s_ownership_score scores)
                              (s_expertise_score scores);
                i_ownership_score := s_ownership_score scores;
                i_expertise_score := s_expertise_score scores;
                i_files_owned := s_files_owned scores;
                i_areas_of_expertise := s_areas_of_expertise scores |}]
       else potential_assignees)
    candidates [].

(** the table after both scoring loops, from an empty [candidates] *)
Definition scored (ctx : context) (data : ownership_data)
           (affected_files : list string) : Py.dict scores :=
  let relevant_files := affected_files ++ mentioned_files ctx in
  let candidates :=
    fold_left (score_file (file_ownership data)) relevant_files [] in
  fold_left (score_area (repository_experts data)) (affected_areas ctx)
            candidates.

Definition _find_potential_assignees (globals : list string) (ctx : context)
           (data : ownership_data) (affected_files : list string)
  : M (list assignee_info) :=
  global globals "defaultdict" ;;;
  ret (potential (scored ctx data affected_files)).

(** ** Ranking and selection *)

Definition priority_multipliers : Py.dict Q :=
  [("critical", 1.5%Q); ("high", PyFloat.nearest 1.2);
   ("medium", 1.0%Q); ("low", PyFloat.nearest 0.8)].

Definition Qltb (x y : Q) : bool := negb (Qle_bool y x).

Definition _rank_assignees (potential_assignees : list assignee_info)
           (bug : bug_data) : list assignee :=
  let priority :=
    match priority bug with Some p => p | None => "medium" end in
  let multiplier :=
    match Py.get priority_multipliers priority with
    | Some m => m
    | None => 1.0%Q
    end in
  Py.sorted_desc Qltb final_score
    (map (fun a =>
            {| developer := i_developer a;
               total_score := i_total_score a;
               ownership_score := i_ownership_score a;
               expertise_score := i_expertise_score a;
               files_owned := i_files_owned a;
               areas_of_expertise := i_areas_of_expertise a;
               final_score := PyFloat.mul (i_total_score a) multiplier |})
         potential_assignees).

(** the method as the class defines it *)
Definition _is_developer_available (developer_email : string) : bool := true.

Section Selection.
(** [self._is_developer_available], whatever it is bound to *)
Variable available : string -> bool.

Definition _select_final_assignee (ranked_assignees : list assignee)
           (repo_name : string) : option assignee :=
  match ranked_assignees with
  | [] => None
  | _ =>
      match find (fun a => available (developer a))
                 (Py.slice 0 3 ranked_assignees) with
      | Some a => Some a
      | None =>
          match ranked_assignees with
          | a :: _ => Some a
          | [] => None
          end
      end
  end.
End Selection.

(** ** Confidence, reason, labels, complexity *)

Definition nonempty {A} (l : list A) : bool :=
  match l with [] => false | _ => true end.

Definition _calculate_confidence (a : option assignee) (ctx : context) : Q :=
  match a with
  | None => 0.0%Q
  | Some a =>
      let base_confidence := Py.min (PyFloat.div (final_score a) 10) 1.0 in
      let base_confidence :=
        if nonempty (files_owned a)
        then Py.min (PyFloat.add base_confidence (PyFloat.nearest 0.2)) 1.0
        else base_confidence in
      let base_confidence :=
        if nonempty (areas_of_expertise a)
        then Py.min (PyFloat.add base_confidence (PyFloat.nearest 0.1)) 1.0
        else base_confidence in
      PyFloat.round2 base_confidence
  end.

Definition _generate_routing_reason (a : option assignee) (ctx : context)
  : string :=
  match a with
  | None => "No clear owner identified. Escalating to team lead."
  | Some a =>
      let reasons := [] in
      let reasons :=
        if nonempty (files_owned a)
        then reasons ++
             [("Primary owner of " ++ Py.str_of_nat (length (files_owned a))
                ++ " affected files")%string]
        else reasons in
      let reasons :=
        if nonempty (areas_of_expertise a)
        then reasons ++
             [("Subject matter expert in: "
                ++ Py.join ", " (areas_of_expertise a))%string]
        else reasons in
      let reasons :=
        if Qltb 5 (ownership_score a)
        then reasons ++ ["High code ownership score in affected areas"]
        else reasons in
      if nonempty reasons then Py.join "; " reasons
      else "Best available match based on repository activity"
  end.

Definition _suggest_labels (ctx : context) : list string :=
  let labels := map (fun area => ("area:" ++ area)%string) (affected_areas ctx) in
  if nonempty (error_types ctx) then labels ++ ["bug:error"] else labels.

Definition len {A} (l : list A) : Q := inject_Z (Z.of_nat (length l)).

Definition _estimate_complexity (ctx : context) (data : ownership_data)
  : string :=
  let complexity_score := 0%Q in
  let complexity_score := (complexity_score + len (mentioned_files ctx) * 0.5)%Q in
  let complexity_score := (complexity_score + len (affected_areas ctx) * 1)%Q in
  let complexity_score := (complexity_score + len (error_types ctx) * 0.3)%Q in
  if Qltb complexity_score 1 then "low"
  else if Qltb complexity_score 3 then "medium"
  else if Qltb complexity_score 5 then "high"
  else "critical".

(** ** The entry point *)

(** the dictionary built at the end of [route_bug_report] *)
Definition decision (final_assignee : option assignee)
           (ranked_assignees : list assignee) (ctx : context)
           (data : ownership_data) : routing_decision :=
  {| assigned_to := final_assignee;
     backup_assignees := Py.slice 1 3 ranked_assignees;
     confidence_score := _calculate_confidence final_assignee ctx;
     routing_reason := _generate_routing_reason final_assignee ctx;
     escalation_needed :=
       match final_assignee with None => true | Some _ => false end;
     suggested_labels := _suggest_labels ctx;
     estimated_complexity := _estimate_complexity ctx data |}.

Section Route.
Variable globals : list string.
Variable available : string -> bool.
Variable w : World.

Definition route_bug_report (bug : bug_data) : M routing_decision :=
  repo_name <- item "repository" (repository bug) ;;
  ownership_data <- analyze_repository_ownership w repo_name 90 ;;
  ctx <- _extract_bug_context bug ;;
  potential_assignees <-
    _find_potential_assignees globals ctx ownership_data
      (match affected_files bug with Some l => l | None => [] end) ;;
  let ranked_assignees := _rank_assignees potential_assignees bug in
  let final_assignee :=
    _select_final_assignee available ranked_assignees repo_name in
  ret (decision final_assignee ranked_assignees ctx ownership_data).
End Route.

End Router.

(* ================================================================= *)
(** * github_integration.py: what goes into the issue *)

Module Github.
Import Router.

(** [s.replace(old, new)] for two one-character strings *)
Definition replace (old new : ascii) (s : string) : string :=
  Py.str (map (fun c => if Ascii.eqb c old then new else c) (Py.chars s)).

(** [email.split('@')[0].replace('.', '-')] *)
Definition _get_github_username (email : string) : string :=
  replace "." "-" (hd "" (Py.split "@" email)).

(** the ['assignees'] of [issue_data] *)
Definition issue_assignees (dec : routing_decision) : list string :=
  match assigned_to dec with
  | Some assignee => [_get_github_username (developer assignee)]
  | None => []
  end.

(** the ['labels'] of [issue_data] *)
Definition issue_labels (dec : routing_decision) : list string :=
  suggested_labels dec ++ ["auto-routed"].

End Github.

(* ================================================================= *)
(** * The specification's formulas, and sample data *)

Module Spec.
Import Fx Analyzer Router.
Local Open Scope Q_scope.

(** The complexity score as the specification words it. *)
Definition complexity_spec (total_changes : Z) (contributors : nat) : Q :=
  0.7 * Qmin (inject_Z total_changes / 100) 1.0
  + 0.3 * Qmin (inject_Z (Z.of_nat contributors) / 5) 1.0.

(** An assignee with one field replaced, the others held fixed. *)
Definition with_final_score (a : assignee) (q : Q) : assignee :=
  {| developer := developer a; total_score := total_score a;
     ownership_score := ownership_score a;
     expertise_score := expertise_score a;
     files_owned := files_owned a;
     areas_of_expertise := areas_of_expertise a;
     final_score := q |}.

Definition with_files_owned (a : assignee) (l : list string) : assignee :=
  {| developer := developer a; total_score := total_score a;
     ownership_score := ownership_score a;
     expertise_score := expertise_score a;
     files_owned := l;
     areas_of_expertise := areas_of_expertise a;
     final_score := final_score a |}.

Definition with_areas_of_expertise (a : assignee) (l : list string)
  : assignee :=
  {| developer := developer a; total_score := total_score a;
     ownership_score := ownership_score a;
     expertise_score := expertise_score a;
     files_owned := files_owned a;
     areas_of_expertise := l;
     final_score := final_score a |}.

(** The confidence score as the specification words it, in exact
    arithmetic, before it is rounded to two places. *)
Definition confidence_exact (a : assignee) : Q :=
  let base := Qmin (final_score a / 10) 1 in
  let base :=
    match files_owned a with
    | [] => base
    | _ :: _ => Qmin (base + 0.2) 1
    end in
  match areas_of_expertise a with
  | [] => base
  | _ :: _ => Qmin (base + 0.1) 1
  end.

(** ** Change events, flattened

    One [touch] per changed file: the author and the file's entry, in
    the order the analyzer's two nested loops process them. *)
Definition touched : Type := (string * file_info)%type.

Definition accumulate (ts : list touched) : accumulators :=
  fold_left (fun acc t => touch (fst t) acc (snd t)) ts no_accumulators.

(** the contributors of [path], in the order of their first change to it *)
Definition first_contributors (path : string) (ts : list touched)
  : list string :=
  fold_left
    (fun seen t =>
       if String.eqb (filename (snd t)) path then Py.set_add (fst t) seen
       else seen)
    ts [].

(** "descending by lines changed, ties by identity ascending", between
    neighbours *)
Fixpoint by_changes_then_identity (l : list (string * Z)) : bool :=
  match l with
  | x :: (y :: _) as l' =>
      ((snd y <? snd x)%Z
       || ((snd y =? snd x)%Z && String.ltb (fst x) (fst y)))
      && by_changes_then_identity l'
  | _ => true
  end.

(** descending by lines changed *)
Definition desc (x y : string * Z) : Prop := (snd y <= snd x)%Z.

(** the contributors credited with exactly [n] lines *)
Definition tied (n : Z) (l : list (string * Z)) : list (string * Z) :=
  filter (fun c => (snd c =? n)%Z) l.

(** the contributors of [path] in the accumulated table *)
Definition contributors_of (file_ownership : Py.dict (Py.dict Z))
           (path : string) : Py.dict Z :=
  match Py.get file_ownership path with Some c => c | None => [] end.

(** ** Reasoning about the effects *)

(** [m] run from [s] returns normally, with a result and a final state
    that satisfy [post] *)
Definition returns {A} (m : M A) (s : state) (post : A -> state -> Prop)
  : Prop :=
  match m s with
  | (Ok a, s') => post a s'
  | (Raise _, _) => False
  end.

(** the requests of [s'] are those of [s], then more *)
Definition grows (s s' : state) : Prop :=
  exists more, trace s' = trace s ++ more.

(** every value of a dictionary satisfies [P] *)
Definition dict_all {V} (P : V -> Prop) (d : Py.dict V) : Prop :=
  forall k v, In (k, v) d -> P v.

(** [file_info.get('changes', 0)] *)
Definition changes_of (fi : file_info) : Z :=
  match changes fi with Some n => n | None => 0%Z end.

(** ** Data whose line counts all satisfy [good] *)

Definition details_good (good : Z -> Prop) (d : commit_details) : Prop :=
  forall fi, In fi (files_of d) -> good (changes_of fi).

Definition world_good (good : Z -> Prop) (w : World) : Prop :=
  forall repo sha, details_good good (json (commit_of w repo sha)).

Definition cache_good (good : Z -> Prop) (s : state) : Prop :=
  dict_all (details_good good) (cache s).

Definition acc_good (good : Z -> Prop) (acc : accumulators) : Prop :=
  Py.keys (acc_file_ownership acc) = Py.keys (acc_file_complexity acc)
  /\ dict_all (dict_all good) (acc_file_ownership acc)
  /\ dict_all (fun d => good (total_changes d)) (acc_file_complexity acc).

Definition record_good (good : Z -> Prop) (r : FileOwnership) : Prop :=
  exists d, good (total_changes d)
            /\ complexity_score r = _calculate_complexity_score d.

Definition model_good (good : Z -> Prop) (m : ownership_data) : Prop :=
  dict_all (record_good good) (file_ownership m)
  /\ dict_all (Forall (fun e : string * Z => good (snd e)))
              (repository_experts m).

Definition anything (n : Z) : Prop := True.

(** ** A repository without history, and the module's names *)

(** the first page of commits is refused or empty *)
Definition no_events (w : World) (repo : string) (days : Z) : Prop :=
  let response := commits_page w repo (now w - days * 86400)%Z 1 in
  (status_code response =? 200)%Z = false \/ json response = [].

Definition empty_model : ownership_data :=
  {| file_ownership := []; developer_activity := [];
     repository_experts := [] |}.

(** the module's namespace, had it imported [defaultdict] as
    [ownership_analyzer.py] does *)
Definition repaired_globals : list string :=
  "defaultdict" :: module_globals.

(** the extensions [file_pattern] knows *)
Definition extensions : list string :=
  ["py"; "js"; "ts"; "java"; "go"; "rs"; "cpp"; "c"; "h"].

(** ** The change events an analysis processes *)

(** what [_get_commit_details] answers for a commit, and the cache
    afterwards *)
Definition details_seen (w : World) (repo : string)
           (cache : Py.dict commit_details) (sha : string)
  : commit_details * Py.dict commit_details :=
  match Py.get cache sha with
  | Some data => (data, cache)
  | None =>
      let response := commit_of w repo sha in
      if (status_code response =? 200)%Z
      then (json response, Py.set cache sha (json response))
      else ({| files := None |}, cache)
  end.

(** the files touched by a list of commits, in processing order *)
Fixpoint touches_of (w : World) (repo : string)
         (cache : Py.dict commit_details) (commits : list commit)
  : list touched :=
  match commits with
  | [] => []
  | c :: commits' =>
      let (d, cache') := details_seen w repo cache (sha c) in
      map (pair (author_email c)) (files_of d)
      ++ touches_of w repo cache' commits'
  end.

(** the change events of one run of the analysis from state [s] *)
Definition processed (w : World) (repo : string) (days : Z) (s : state)
  : list touched :=
  match _get_recent_commits w repo (now w - days * 86400)%Z s with
  | (Ok commits, s') => touches_of w repo (cache s') commits
  | (Raise _, _) => []
  end.

(** ** Pagination *)

(** page [p] of the commits is answered with status 200 and is not
    empty *)
Definition page_has_commits (w : World) (repo : string) (since : Z)
           (p : nat) : Prop :=
  status_code (commits_page w repo since p) = 200%Z
  /\ json (commits_page w repo since p) <> [].

(** the commits of pages [first .. first + k - 1], in order *)
Definition pages_commits (w : World) (repo : string) (since : Z)
           (first k : nat) : list commit :=
  flat_map (fun p => json (commits_page w repo since p)) (seq first k).

(** what [touch] keeps true of the table of contributors: no file
    without a contributor, no contributor twice *)
Definition well_kept (c : Py.dict Z) : Prop := c <> [] /\ NoDup (Py.keys c).

(** the lines changed by a list of touches, all together *)
Definition lines_changed (ts : list touched) : Z :=
  Py.sum (map (fun t : touched => changes_of (snd t)) ts).

(** what the loop over the commits keeps true of its three tables *)
Definition tables_agree (acc : accumulators) : Prop :=
  Py.keys (acc_file_ownership acc) = Py.keys (acc_file_complexity acc)
  /\ (forall path,
         match Py.get (acc_file_complexity acc) path with
         | Some d =>
             unique_contributors d
             = Py.keys (contributors_of (acc_file_ownership acc) path)
             /\ total_changes d
                = Py.sum (Py.values
                            (contributors_of (acc_file_ownership acc) path))
         | None => contributors_of (acc_file_ownership acc) path = []
         end)
  /\ Py.sum (Py.values (acc_developer_activity acc))
     = Py.sum (map total_changes (Py.values (acc_file_complexity acc))).

(** ** What the expert table counts *)

(** the lines [who] is credited with under [domain] in a table *)
Definition amount (table : Py.dict (Py.dict Z)) (domain who : string) : Z :=
  match Py.get table domain with
  | Some c => match Py.get c who with Some n => n | None => 0%Z end
  | None => 0%Z
  end.

(** how often [domain] is a key of [path]: as its directory, as its
    extension pattern, or as both *)
Definition keyed (path domain : string) : Z :=
  ((if String.eqb (directory_of path) domain then 1 else 0)
   + (if String.eqb ("*." ++ ext_of path) domain then 1 else 0))%Z.

(** the lines of [who] in the files that [domain] is a key of *)
Definition lines_under (file_ownership : Py.dict (Py.dict Z))
           (domain who : string) : Z :=
  Py.sum
    (map (fun entry : string * Py.dict Z =>
            (keyed (fst entry) domain
             * Py.sum (map (fun c : string * Z =>
                              if String.eqb (fst c) who then snd c else 0%Z)
                           (snd entry)))%Z)
         file_ownership).

(** ** Ranking *)

(** the multiplier [_rank_assignees] reads off a report *)
Definition multiplier_of (bug : bug_data) : Q :=
  match Py.get priority_multipliers
               (match priority bug with Some p => p | None => "medium"%string end)
  with
  | Some m => m
  | None => 1.0
  end.

(** a candidate with its final score under multiplier [m] *)
Definition scaled (m : Q) (a : assignee_info) : assignee :=
  {| developer := i_developer a;
     total_score := i_total_score a;
     ownership_score := i_ownership_score a;
     expertise_score := i_expertise_score a;
     files_owned := i_files_owned a;
     areas_of_expertise := i_areas_of_expertise a;
     final_score := PyFloat.mul (i_total_score a) m |}.

(** descending by final score *)
Definition by_final_score (a b : assignee) : Prop :=
  final_score b <= final_score a.

(** the assignees whose final score is [q] *)
Definition scoring (q : Q) (l : list assignee) : list assignee :=
  filter (fun a => Qeq_bool (final_score a) q) l.

(** ** The text of a report *)

(** a keyword of [area] occurs in the lowered text *)
Definition area_hit (text_lower : string) (entry : string * list string)
  : bool :=
  existsb (fun keyword => Py.contains keyword text_lower) (snd entry).

(** [f"{title} {description}"] *)
Definition text_of (t d : string) : string := (t ++ " " ++ d)%string.

(** ** The two fixed reasons *)

Definition escalation_message : string :=
  "No clear owner identified. Escalating to team lead.".

Definition fallback_reason : string :=
  "Best available match based on repository activity".

(** ** The four estimates, in increasing order *)

Definition level (estimate : string) : nat :=
  if String.eqb estimate "low" then 0%nat
  else if String.eqb estimate "medium" then 1%nat
  else if String.eqb estimate "high" then 2%nat
  else 3%nat.

End Spec.

Module Samples.
Import Fx Analyzer Router Spec.

(** 10,000 changed lines by 500 contributors *)
Definition busy_file : complexity_data :=
  {| total_changes := 10000;
     unique_contributors :=
       map (fun n => Py.str_of_nat n) (seq 0 500) |}.

Definition no_context : context :=
  {| mentioned_files := []; mentioned_functions := [];
     mentioned_modules := []; error_types := []; affected_areas := [];
     keywords := [] |}.

(** alice as the scenario of the specification ranks her: 80 lines in
    one file of her own, priority high *)
Definition alice : assignee :=
  {| developer := "alice"; total_score := 1.86%Q;
     ownership_score := 1.86%Q; expertise_score := 0%Q;
     files_owned := ["src/auth/login.py"]; areas_of_expertise := [];
     final_score := 2.232%Q |}.

(** carol owns a file, and her final score is 2.25 *)
Definition carol : assignee :=
  {| developer := "carol"; total_score := 2.25%Q;
     ownership_score := 2.25%Q; expertise_score := 0%Q;
     files_owned := ["src/app.py"]; areas_of_expertise := [];
     final_score := 2.25%Q |}.

(** bob, then alice, each change ten lines of one file *)
Definition bob_then_alice : list touched :=
  [("bob", {| filename := "src/app.py"; changes := Some 10%Z |});
   ("alice", {| filename := "src/app.py"; changes := Some 10%Z |})].

Definition alice_then_bob : list touched := rev bob_then_alice.

Definition sample_data : complexity_data :=
  {| total_changes := 20; unique_contributors := ["bob"; "alice"] |}.

(** a model with one file, alice's, of complexity one half *)
Definition one_file_model : ownership_data :=
  {| file_ownership :=
       [("src/app.py",
         {| file_path := "src/app.py"; primary_owner := Some "alice";
            secondary_owners := []; last_modified := 0;
            modification_count := 50; complexity_score := 0.5%Q |})];
     developer_activity := [("alice", 50%Z)];
     repository_experts := [("src", [("alice", 50%Z)]);
                            ("*.py", [("alice", 50%Z)])] |}.


(** a world without history: no commits at all *)
Definition quiet_world : World :=
  {| now := 1000000;
     commits_page := fun _ _ _ => {| status_code := 200; json := [] |};
     commit_of := fun _ _ =>
       {| status_code := 404; json := {| files := None |} |};
     last_commit_dates := fun _ _ => {| status_code := 200; json := [] |} |}.

(** a world in which alice changed 80 lines of one file, in one commit *)
Definition alice_world : World :=
  {| now := 1000000;
     commits_page := fun _ _ page =>
       {| status_code := 200;
          json := if (page =? 1)%nat
                  then [{| sha := "a1"; author_email := "alice" |}]
                  else [] |};
     commit_of := fun _ _ =>
       {| status_code := 200;
          json := {| files := Some [{| filename := "src/auth/login.py";
                                       changes := Some 80%Z |}] |} |};
     last_commit_dates := fun _ _ => {| status_code := 200; json := [] |} |}.

(** a report that names its file in the text *)
Definition login_report : bug_data :=
  {| title := Some "Crash in src/auth/login.py";
     description := Some "login fails";
     labels := None;
     repository := Some "company/backend-api";
     affected_files := None;
     stack_trace := None;
     priority := Some "high" |}.

(** the same, the file given in [affected_files] *)
Definition login_report_with_files : bug_data :=
  {| title := Some "Crash in src/auth/login.py";
     description := Some "login fails";
     labels := None;
     repository := Some "company/backend-api";
     affected_files := Some ["src/auth/login.py"];
     stack_trace := None;
     priority := Some "high" |}.

(** a report with a repository and no title *)
Definition untitled_report : bug_data :=
  {| title := None;
     description := Some "login fails";
     labels := None;
     repository := Some "company/backend-api";
     affected_files := None;
     stack_trace := None;
     priority := None |}.

(** a report whose stack trace names a file too *)
Definition traced_report : bug_data :=
  {| title := Some "Query fails";
     description := Some "see src/db/query.py";
     labels := None;
     repository := Some "company/backend-api";
     affected_files := None;
     stack_trace := Some "File src/db/session.py, line 3";
     priority := None |}.

(** a world whose commit list has bob's commit before alice's, ten
    lines of the same file each *)
Definition tie_world : World :=
  {| now := 1000000;
     commits_page := fun _ _ page =>
       {| status_code := 200;
          json := if (page =? 1)%nat
                  then [{| sha := "b1"; author_email := "bob" |};
                        {| sha := "a1"; author_email := "alice" |}]
                  else [] |};
     commit_of := fun _ _ =>
       {| status_code := 200;
          json := {| files := Some [{| filename := "src/app.py";
                                       changes := Some 10%Z |}] |} |};
     last_commit_dates := fun _ _ => {| status_code := 200; json := [] |} |}.

Definition with_priority (p : option string) : bug_data :=
  {| title := Some "Crash"; description := Some "It fails";
     labels := None; repository := Some "company/backend-api";
     affected_files := None; stack_trace := None; priority := p |}.

(** a report about one area, and the same with a file and an error *)
Definition one_area : Router.context :=
  {| Router.mentioned_files := [];
     Router.mentioned_functions := [];
     Router.mentioned_modules := [];
     Router.error_types := [];
     Router.affected_areas := ["auth"];
     Router.keywords := [] |}.

Definition one_area_and_more : Router.context :=
  {| Router.mentioned_files := ["src/app.py"];
     Router.mentioned_functions := [];
     Router.mentioned_modules := [];
     Router.error_types := ["KeyError"];
     Router.affected_areas := ["auth"];
     Router.keywords := [] |}.


(** two candidates whose totals are one unit in the last place apart *)
Definition near_tie : list Router.assignee_info :=
  [{| Router.i_developer := "x";
      Router.i_total_score := PyFloat.nearest 0.32699999999999996;
      Router.i_ownership_score := PyFloat.nearest 0.32699999999999996;
      Router.i_expertise_score := 0%Q;
      Router.i_files_owned := ["src/app.py"];
      Router.i_areas_of_expertise := [] |};
   {| Router.i_developer := "y";
      Router.i_total_score := PyFloat.nearest 0.327;
      Router.i_ownership_score := PyFloat.nearest 0.327;
      Router.i_expertise_score := 0%Q;
      Router.i_files_owned := ["src/db.py"];
      Router.i_areas_of_expertise := [] |}].

End Samples.

(* ================================================================= *)
(** * Facts about the built-ins *)

Module PyFacts.

Section Numbers.
Local Open Scope Q_scope.

Lemma min_cases (a b : Q) :
  (b < a /\ Py.min a b = b) \/ (a <= b /\ Py.min a b = a).
Proof.
  unfold Py.min. destruct (Qlt_le_dec b a); [left | right]; split; auto.
Qed.

Lemma min_is_Qmin (a b : Q) : Py.min a b = Qmin a b.
Proof.
  unfold Qmin, GenericMinMax.gmin.
  destruct (min_cases a b) as [[H ->] | [H ->]];
    destruct (a ?= b) eqn:C; try reflexivity.
  - rewrite <- Qeq_alt in C. lra.
  - rewrite <- Qlt_alt in C. lra.
  - rewrite <- Qgt_alt in C. lra.
Qed.

Lemma round_half_even_bounds (x : Q) :
  (Qfloor x <= Py.round_half_even x <= Qfloor x + 1)%Z.
Proof.
  unfold Py.round_half_even.
  destruct (x - inject_Z (Qfloor x) ?= 1 # 2); try destruct (Z.even _); lia.
Qed.

Lemma round_half_even_mono (x y : Q) :
  x <= y -> (Py.round_half_even x <= Py.round_half_even y)%Z.
Proof.
  intros Hxy.
  pose proof (Qfloor_resp_le _ _ Hxy) as Hf.
  destruct (Z.eq_dec (Qfloor x) (Qfloor y)) as [E | NE].
  - unfold Py.round_half_even. rewrite E.
    destruct (x - inject_Z (Qfloor y) ?= 1 # 2) eqn:Cx;
    destruct (y - inject_Z (Qfloor y) ?= 1 # 2) eqn:Cy;
      try destruct (Z.even (Qfloor y)); try lia;
      try rewrite <- Qeq_alt in *; try rewrite <- Qlt_alt in *;
      try rewrite <- Qgt_alt in *; lra.
  - pose proof (round_half_even_bounds x).
    pose proof (round_half_even_bounds y). lia.
Qed.

Lemma round2_mono (x y : Q) : x <= y -> Py.round2 x <= Py.round2 y.
Proof.
  intros H. unfold Py.round2.
  assert (Hm : (Py.round_half_even (x * 100)
                <= Py.round_half_even (y * 100))%Z)
    by (apply round_half_even_mono; lra).
  rewrite Zle_Qle in Hm.
  apply Qmult_le_compat_r; [exact Hm | ]. discriminate.
Qed.

Lemma round2_comp (x y : Q) : x == y -> Py.round2 x == Py.round2 y.
Proof.
  intros E. apply Qle_antisym; apply round2_mono; lra.
Qed.

Lemma round2_unit (x : Q) : 0 <= x <= 1 -> 0 <= Py.round2 x <= 1.
Proof.
  intros [H0 H1].
  assert (E0 : Py.round2 0 == 0) by reflexivity.
  assert (E1 : Py.round2 1 == 1) by reflexivity.
  pose proof (round2_mono 0 x H0). pose proof (round2_mono x 1 H1). lra.
Qed.

End Numbers.

(** case analysis on every [min] in sight *)
Ltac min_split :=
  repeat match goal with
         | |- context [Py.min ?a ?b] =>
             let H := fresh "H" in
             let E := fresh "E" in
             destruct (min_cases a b) as [[H E] | [H E]];
             rewrite E in *; clear E
         | H0 : context [Py.min ?a ?b] |- _ =>
             let H := fresh "H" in
             let E := fresh "E" in
             destruct (min_cases a b) as [[H E] | [H E]];
             rewrite E in *; clear E
         end.

(** division by a literal, in the form [lra] reads *)
Ltac qconst :=
  unfold Qdiv in *;
  change (/ 100)%Q with (1 # 100)%Q in *;
  change (/ 10)%Q with (1 # 10)%Q in *;
  change (/ 5)%Q with (1 # 5)%Q in *.

End PyFacts.

(* ================================================================= *)
(** * Rounding to the nearest double *)

Module FloatFacts.
Import PyFloat PyFacts.
Local Open Scope Q_scope.

(** ** Powers of two *)

Lemma two_pos (k : Z) : 0 < 2 ^ k.
Proof. apply Qpower_0_lt. reflexivity. Qed.

Lemma two_add (a b : Z) : 2 ^ (a + b) == 2 ^ a * 2 ^ b.
Proof. apply Qpower_plus. discriminate. Qed.

Lemma two_succ (a : Z) : 2 ^ (a + 1) == 2 * 2 ^ a.
Proof. rewrite two_add. change (2 ^ 1) with 2. ring. Qed.

Lemma two_le (a b : Z) : (a <= b)%Z -> 2 ^ a <= 2 ^ b.
Proof. intros H. apply Qpower_le_compat_l; [ exact H | discriminate ]. Qed.

Lemma two_lt (a b : Z) : (a < b)%Z -> 2 ^ a < 2 ^ b.
Proof. intros H. apply Qpower_lt_compat_l; [ exact H | reflexivity ]. Qed.

Lemma two_lt_inv (a b : Z) : 2 ^ a < 2 ^ b -> (a < b)%Z.
Proof. intros H. apply (Qpower_lt_compat_l_inv 2); [ exact H | reflexivity ]. Qed.

Lemma two_Z (n : Z) : (0 <= n)%Z -> inject_Z (2 ^ n) == 2 ^ n.
Proof. intros H. now rewrite Zpower_Qpower. Qed.

(** ** Rounding to an integer *)

Lemma round_half_even_Z (z : Z) : Py.round_half_even (inject_Z z) = z.
Proof.
  unfold Py.round_half_even. rewrite Qfloor_Z.
  destruct (inject_Z z - inject_Z z ?= 1 # 2) eqn:C.
  - rewrite <- Qeq_alt in C. lra.
  - reflexivity.
  - rewrite <- Qgt_alt in C. lra.
Qed.

Lemma round_half_even_near (y : Q) :
  - (1 # 2) <= inject_Z (Py.round_half_even y) - y <= 1 # 2.
Proof.
  pose proof (Qfloor_le y) as Hl. pose proof (Qlt_floor y) as Hu.
  rewrite inject_Z_plus in Hu.
  unfold Py.round_half_even.
  destruct (y - inject_Z (Qfloor y) ?= 1 # 2) eqn:C;
    [ rewrite <- Qeq_alt in C | rewrite <- Qlt_alt in C
      | rewrite <- Qgt_alt in C ];
    try destruct (Z.even (Qfloor y)); try rewrite inject_Z_plus;
    change (inject_Z 1) with 1 in *; lra.
Qed.

Lemma round_half_even_ge (z : Z) (y : Q) :
  inject_Z z <= y -> (z <= Py.round_half_even y)%Z.
Proof.
  intros H. rewrite <- (round_half_even_Z z). now apply round_half_even_mono.
Qed.

Lemma round_half_even_le (z : Z) (y : Q) :
  y <= inject_Z z -> (Py.round_half_even y <= z)%Z.
Proof.
  intros H. rewrite <- (round_half_even_Z z). now apply round_half_even_mono.
Qed.

(** ** The binary logarithm *)

Lemma ilog2_spec (x : Q) :
  0 < x -> 2 ^ ilog2 x <= x /\ x < 2 ^ (ilog2 x + 1).
Proof.
  intros Hx. destruct x as [n d].
  assert (Hn : (0 < n)%Z) by (unfold Qlt in Hx; simpl in Hx; lia).
  unfold ilog2. cbn [Qnum Qden].
  set (a := Z.log2 n). set (b := Z.log2 (Zpos d)).
  destruct (Z.log2_spec n Hn) as [Ha1 Ha2].
  destruct (Z.log2_spec (Zpos d) eq_refl) as [Hb1 Hb2].
  fold a in Ha1, Ha2. fold b in Hb1, Hb2.
  assert (Ha0 : (0 <= a)%Z) by apply Z.log2_nonneg.
  assert (Hb0 : (0 <= b)%Z) by apply Z.log2_nonneg.
  rewrite Zle_Qle, two_Z in Ha1, Hb1 by assumption.
  rewrite Zlt_Qlt in Ha2, Hb2.
  rewrite two_Z in Ha2, Hb2 by lia.
  unfold Z.succ in Ha2, Hb2. rewrite two_succ in Ha2, Hb2.
  pose proof (two_pos a) as Pa. pose proof (two_pos b) as Pb.
  pose proof (two_pos (a - b)) as Pk.
  assert (Ek : 2 ^ (a - b) * 2 ^ b == 2 ^ a).
  { rewrite <- two_add. now replace (a - b + b)%Z with a by lia. }
  assert (Ex : (n # d) * inject_Z (Zpos d) == inject_Z n).
  { rewrite (Qmake_Qdiv n d). field. discriminate. }
  set (x := n # d) in *.
  set (N := inject_Z n) in *. set (D := inject_Z (Zpos d)) in *.
  set (A := 2 ^ a) in *. set (B := 2 ^ b) in *. set (P := 2 ^ (a - b)) in *.
  assert (HD : 0 < D) by lra.
  assert (U : x < 2 * P).
  { apply (Qmult_lt_r _ _ D HD). rewrite Ex.
    apply Qlt_le_trans with (2 * A); [ exact Ha2 | ].
    rewrite <- Ek.
    assert (P * B <= P * D) by (apply Qmult_le_l; lra). lra. }
  assert (L : P < 2 * x).
  { apply (Qmult_lt_r _ _ D HD).
    assert (P * D < P * (2 * B)) by (apply Qmult_lt_l; lra).
    assert (E2 : 2 * x * D == 2 * N) by (rewrite <- Ex; ring).
    rewrite E2. lra. }
  destruct (Qle_bool P x) eqn:C.
  - apply Qle_bool_iff in C. split; [ exact C | ].
    fold (a - b + 1)%Z. rewrite two_succ. exact U.
  - assert (C' : x < P).
    { apply Qnot_le_lt. intros H. apply Qle_bool_iff in H. congruence. }
    replace (a - b - 1 + 1)%Z with (a - b)%Z by lia.
    split; [ | exact C' ].
    assert (E3 : 2 * 2 ^ (a - b - 1) == P).
    { unfold P. rewrite <- two_succ.
      now replace (a - b - 1 + 1)%Z with (a - b)%Z by lia. }
    lra.
Qed.

Lemma ilog2_mono (x y : Q) : 0 < x -> x <= y -> (ilog2 x <= ilog2 y)%Z.
Proof.
  intros Hx Hxy.
  destruct (ilog2_spec x Hx) as [L _].
  destruct (ilog2_spec y) as [_ U]; [ lra | ].
  assert (H : 2 ^ ilog2 x < 2 ^ (ilog2 y + 1)) by lra.
  apply two_lt_inv in H. lia.
Qed.

Lemma ilog2_below (x : Q) (e : Z) : 0 < x -> x < 2 ^ e -> (ilog2 x < e)%Z.
Proof.
  intros Hx H. destruct (ilog2_spec x Hx) as [L _].
  apply two_lt_inv. lra.
Qed.

Lemma ulp_exponent_mono (x y : Q) :
  0 < x -> x <= y -> (ulp_exponent x <= ulp_exponent y)%Z.
Proof.
  intros Hx Hxy. unfold ulp_exponent.
  pose proof (ilog2_mono x y Hx Hxy). lia.
Qed.

(** ** Rounding a positive number *)

Lemma round_half_even_comp (x y : Q) :
  x == y -> Py.round_half_even x = Py.round_half_even y.
Proof.
  intros E. apply Z.le_antisymm; apply round_half_even_mono; lra.
Qed.

Lemma scaled_le (x y u : Q) : 0 < u -> x <= y -> x / u <= y / u.
Proof.
  intros Hu H. apply Qle_shift_div_l; [ exact Hu | ].
  assert (E : x / u * u == x) by (field; lra). lra.
Qed.

Lemma nearest_pos_ge (x : Q) (z : Z) :
  inject_Z z * 2 ^ ulp_exponent x <= x ->
  inject_Z z * 2 ^ ulp_exponent x <= nearest_pos x.
Proof.
  intros H. unfold nearest_pos.
  pose proof (two_pos (ulp_exponent x)) as P.
  apply Qmult_le_compat_r; [ | lra ].
  rewrite <- Zle_Qle. apply round_half_even_ge.
  now apply Qle_shift_div_l.
Qed.

Lemma nearest_pos_le (x : Q) (z : Z) :
  x <= inject_Z z * 2 ^ ulp_exponent x ->
  nearest_pos x <= inject_Z z * 2 ^ ulp_exponent x.
Proof.
  intros H. unfold nearest_pos.
  pose proof (two_pos (ulp_exponent x)) as P.
  apply Qmult_le_compat_r; [ | lra ].
  rewrite <- Zle_Qle. apply round_half_even_le.
  now apply Qle_shift_div_r.
Qed.

Lemma nearest_pos_nonneg (x : Q) : 0 <= x -> 0 <= nearest_pos x.
Proof.
  intros H. pose proof (nearest_pos_ge x 0) as G.
  change (inject_Z 0) with 0 in G.
  assert (E : 0 * 2 ^ ulp_exponent x == 0) by ring.
  rewrite E in G. now apply G.
Qed.

Lemma nearest_pos_near (x : Q) :
  - (2 ^ ulp_exponent x / 2) <= nearest_pos x - x <= 2 ^ ulp_exponent x / 2.
Proof.
  unfold nearest_pos.
  pose proof (two_pos (ulp_exponent x)) as P.
  set (u := 2 ^ ulp_exponent x) in *.
  pose proof (round_half_even_near (x / u)) as [L U].
  set (m := inject_Z (Py.round_half_even (x / u))) in *.
  assert (E : x / u * u == x) by (field; lra).
  assert (L' : - (1 # 2) * u <= (m - x / u) * u)
    by (apply Qmult_le_compat_r; lra).
  assert (U' : (m - x / u) * u <= (1 # 2) * u)
    by (apply Qmult_le_compat_r; lra).
  assert (E' : (m - x / u) * u == m * u - x / u * u) by ring.
  assert (H2 : u / 2 == (1 # 2) * u) by (field).
  lra.
Qed.

Lemma nearest_pos_mono (x y : Q) :
  0 < x -> x <= y -> nearest_pos x <= nearest_pos y.
Proof.
  intros Hx Hxy.
  pose proof (ulp_exponent_mono x y Hx Hxy) as Hu.
  destruct (Z.eq_dec (ulp_exponent x) (ulp_exponent y)) as [E | NE].
  - unfold nearest_pos. rewrite E.
    pose proof (two_pos (ulp_exponent y)) as P.
    apply Qmult_le_compat_r; [ | lra ].
    rewrite <- Zle_Qle. apply round_half_even_mono. now apply scaled_le.
  - assert (Hy : 0 < y) by lra.
    destruct (ilog2_spec x Hx) as [_ Ux].
    destruct (ilog2_spec y Hy) as [Ly _].
    assert (Ey : ulp_exponent y = (ilog2 y - 52)%Z)
      by (unfold ulp_exponent in *; lia).
    assert (Hi : (ilog2 x + 1 <= ilog2 y)%Z)
      by (unfold ulp_exponent in *; lia).
    assert (Hd : (0 <= ilog2 y - ulp_exponent x)%Z)
      by (unfold ulp_exponent in *; lia).
    apply Qle_trans with (2 ^ ilog2 y).
    + assert (G : 2 ^ ilog2 y
                  == inject_Z (2 ^ (ilog2 y - ulp_exponent x))
                     * 2 ^ ulp_exponent x).
      { rewrite two_Z by exact Hd. rewrite <- two_add.
        now replace (ilog2 y - ulp_exponent x + ulp_exponent x)%Z
          with (ilog2 y) by lia. }
      rewrite G. apply nearest_pos_le. rewrite <- G.
      pose proof (two_le _ _ Hi). lra.
    + assert (G : 2 ^ ilog2 y == inject_Z (2 ^ 52) * 2 ^ ulp_exponent y).
      { rewrite two_Z by lia. rewrite <- two_add, Ey.
        now replace (52 + (ilog2 y - 52))%Z with (ilog2 y) by lia. }
      rewrite G. apply nearest_pos_ge. rewrite <- G. exact Ly.
Qed.

(** a multiple of a power of two that is not below the last place of
    its own binade is not changed *)
Lemma on_grid (y : Q) (m v : Z) :
  y == inject_Z m * 2 ^ v -> (ulp_exponent y <= v)%Z -> nearest_pos y == y.
Proof.
  intros E Hv. unfold nearest_pos.
  set (u := ulp_exponent y) in *.
  pose proof (two_pos u) as P.
  assert (G : 2 ^ v == inject_Z (2 ^ (v - u)) * 2 ^ u).
  { rewrite two_Z by lia. rewrite <- two_add.
    now replace (v - u + u)%Z with v by lia. }
  assert (S : y / 2 ^ u == inject_Z (m * 2 ^ (v - u))).
  { rewrite inject_Z_mult, E, G. field. lra. }
  rewrite (round_half_even_comp _ _ S), round_half_even_Z.
  rewrite inject_Z_mult, E, G. ring.
Qed.

Lemma ulp_exponent_below (y : Q) (v : Z) :
  0 < y -> (-1074 <= v)%Z -> y < 2 ^ (v + 53) -> (ulp_exponent y <= v)%Z.
Proof.
  intros Hy Hv H. pose proof (ilog2_below y _ Hy H).
  unfold ulp_exponent. lia.
Qed.

Lemma nearest_pos_fixed (x : Q) :
  0 < x ->
  nearest_pos x == 0 \/ nearest_pos (nearest_pos x) == nearest_pos x.
Proof.
  intros Hx.
  pose proof (nearest_pos_nonneg x (Qlt_le_weak _ _ Hx)) as Hy.
  set (u := ulp_exponent x).
  pose proof (two_pos u) as P.
  assert (Hu : (-1074 <= u)%Z) by (unfold u, ulp_exponent; lia).
  assert (Hm : nearest_pos x <= inject_Z (2 ^ 53) * 2 ^ u).
  { apply nearest_pos_le. fold u.
    destruct (ilog2_spec x Hx) as [_ U].
    rewrite two_Z by lia. rewrite <- two_add.
    assert (L : (ilog2 x + 1 <= 53 + u)%Z) by (unfold u, ulp_exponent; lia).
    pose proof (two_le _ _ L). lra. }
  destruct (Qeq_dec (nearest_pos x) 0) as [Z0 | NZ]; [ now left | right ].
  assert (Hpos : 0 < nearest_pos x) by lra.
  set (y := nearest_pos x) in *.
  assert (Ey : y == inject_Z (Py.round_half_even (x / 2 ^ u)) * 2 ^ u)
    by reflexivity.
  destruct (Qlt_le_dec y (inject_Z (2 ^ 53) * 2 ^ u)) as [Lt | Ge].
  - apply (on_grid y _ u Ey).
    apply ulp_exponent_below; auto.
    rewrite Z.add_comm, two_add, <- two_Z by lia. exact Lt.
  - assert (E53 : y == inject_Z (2 ^ 52) * 2 ^ (u + 1)).
    { rewrite two_succ. change (inject_Z (2 ^ 52)) with (2 ^ 52)%Q.
      change (inject_Z (2 ^ 53)) with (2 * 2 ^ 52)%Q in Hm, Ge.
      lra. }
    apply (on_grid y _ (u + 1)%Z E53).
    apply ulp_exponent_below; [ exact Hpos | lia | ].
    rewrite E53. rewrite two_Z by lia. rewrite <- two_add.
    apply two_lt. lia.
Qed.

(** ** Rounding any number *)

Lemma nearest_zero : nearest 0 = 0.
Proof. reflexivity. Qed.

Lemma nearest_of_pos (x : Q) : 0 < x -> nearest x = nearest_pos x.
Proof.
  intros H. unfold nearest. rewrite Qlt_alt in H.
  destruct (x ?= 0) eqn:C; try reflexivity.
  - rewrite <- Qeq_alt in C. rewrite <- Qlt_alt in H. lra.
  - rewrite <- Qlt_alt in C, H. lra.
Qed.

Lemma nearest_of_neg (x : Q) : x < 0 -> nearest x = - nearest_pos (- x).
Proof.
  intros H. unfold nearest. rewrite Qlt_alt in H. now rewrite H.
Qed.

Lemma nearest_of_zero (x : Q) : x == 0 -> nearest x = 0.
Proof.
  intros H. unfold nearest. rewrite Qeq_alt in H. now rewrite H.
Qed.

Lemma nearest_mono (x y : Q) : x <= y -> nearest x <= nearest y.
Proof.
  intros H.
  destruct (Q_dec x 0) as [[Nx | Px] | Zx];
  destruct (Q_dec y 0) as [[Ny | Py] | Zy];
    try (exfalso; lra).
  - rewrite (nearest_of_neg x Nx), (nearest_of_neg y Ny).
    assert (G : nearest_pos (- y) <= nearest_pos (- x))
      by (apply nearest_pos_mono; lra).
    lra.
  - rewrite (nearest_of_neg x Nx), (nearest_of_pos y Py).
    pose proof (nearest_pos_nonneg (- x)). pose proof (nearest_pos_nonneg y).
    lra.
  - rewrite (nearest_of_neg x Nx), (nearest_of_zero y Zy).
    pose proof (nearest_pos_nonneg (- x)). lra.
  - rewrite (nearest_of_pos x Px), (nearest_of_pos y Py).
    now apply nearest_pos_mono.
  - rewrite (nearest_of_zero x Zx), (nearest_of_pos y Py).
    apply nearest_pos_nonneg. lra.
  - rewrite (nearest_of_zero x Zx), (nearest_of_zero y Zy). lra.
Qed.

Lemma nearest_comp (x y : Q) : x == y -> nearest x == nearest y.
Proof. intros E. apply Qle_antisym; apply nearest_mono; lra. Qed.

Lemma nearest_fixed (x : Q) : nearest (nearest x) == nearest x.
Proof.
  destruct (Q_dec x 0) as [[Nx | Px] | Zx].
  - rewrite (nearest_of_neg x Nx).
    assert (P : 0 < - x) by lra.
    pose proof (nearest_pos_nonneg (- x)) as N0.
    destruct (nearest_pos_fixed (- x) P) as [Z0 | F].
    + rewrite (nearest_of_zero (- nearest_pos (- x))); lra.
    + destruct (Qeq_dec (nearest_pos (- x)) 0) as [Z0 | NZ].
      * rewrite (nearest_of_zero (- nearest_pos (- x))); lra.
      * rewrite (nearest_of_neg (- nearest_pos (- x))) by lra.
        assert (E : - - nearest_pos (- x) == nearest_pos (- x)) by ring.
        assert (G : nearest_pos (- - nearest_pos (- x))
                    == nearest_pos (nearest_pos (- x))).
        { rewrite <- (nearest_of_pos (- - nearest_pos (- x))) by lra.
          rewrite <- (nearest_of_pos (nearest_pos (- x))) by lra.
          now apply nearest_comp. }
        lra.
  - rewrite (nearest_of_pos x Px).
    pose proof (nearest_pos_nonneg x) as N0.
    destruct (nearest_pos_fixed x Px) as [Z0 | F].
    + rewrite (nearest_of_zero (nearest_pos x)); lra.
    + destruct (Qeq_dec (nearest_pos x) 0) as [Z0 | NZ].
      * rewrite (nearest_of_zero (nearest_pos x)); lra.
      * rewrite (nearest_of_pos (nearest_pos x)) by lra. exact F.
  - rewrite (nearest_of_zero x Zx). reflexivity.
Qed.

(** half a unit in the last place, below 2 *)
Lemma nearest_near (x : Q) :
  0 <= x -> x < 2 ->
  - half_ulp <= nearest x - x <= half_ulp.
Proof.
  intros H0 H2. unfold half_ulp.
  destruct (Qeq_dec x 0) as [Z0 | NZ].
  - rewrite (nearest_of_zero x Z0). lra.
  - assert (Px : 0 < x) by lra.
    rewrite (nearest_of_pos x Px).
    pose proof (nearest_pos_near x) as [L U].
    assert (Hu : (ulp_exponent x <= -52)%Z).
    { apply ulp_exponent_below; [ exact Px | lia | exact H2 ]. }
    pose proof (two_le _ _ Hu) as B.
    change (2 ^ (-52)) with (1 # 4503599627370496) in B.
    pose proof (two_pos (ulp_exponent x)) as P.
    set (u := 2 ^ ulp_exponent x) in *.
    assert (E : u / 2 == (1 # 2) * u) by field.
    lra.
Qed.

End FloatFacts.

(* ================================================================= *)
(** * The complexity score of a file *)

Section ComplexityScore.
Import Analyzer PyFacts Spec Samples.
Local Open Scope Q_scope.

(** C8: for non-negative [total_changes], [_calculate_complexity_score]
    is [0.7 * min(total_changes/100, 1.0) + 0.3 * min(contributors/5, 1.0)],
    it lies in [0,1] however large its inputs, and it is exactly 1 once
    both terms saturate (100 changes, 5 contributors). *)
Theorem complexity_score_saturates (d : complexity_data) :
  (0 <= total_changes d)%Z ->
  _calculate_complexity_score d
    == complexity_spec (total_changes d) (length (unique_contributors d))
  /\ 0 <= _calculate_complexity_score d <= 1
  /\ ((100 <= total_changes d)%Z ->
      (5 <= length (unique_contributors d))%nat ->
      _calculate_complexity_score d == 1).
Proof.
  intros Hpos.
  unfold _calculate_complexity_score, complexity_spec.
  set (t := inject_Z (total_changes d)).
  set (n := inject_Z (Z.of_nat (length (unique_contributors d)))).
  assert (Ht : 0 <= t) by (unfold t; rewrite <- (Zle_Qle 0); exact Hpos).
  assert (Hn : 0 <= n) by (unfold n; rewrite <- (Zle_Qle 0); lia).
  assert (Ht' : (100 <= total_changes d)%Z -> 100 <= t)
    by (intros H; unfold t; rewrite <- (Zle_Qle 100); exact H).
  assert (Hn' : (5 <= length (unique_contributors d))%nat -> 5 <= n)
    by (intros H; unfold n; rewrite <- (Zle_Qle 5); lia).
  clearbody t n.
  rewrite <- !min_is_Qmin.
  split; [ lra | ].
  destruct (min_cases (t / 100) 1.0) as [[Ha ->] | [Ha ->]];
  destruct (min_cases (n / 5) 1.0) as [[Hb ->] | [Hb ->]];
  (split; [ qconst; lra | ]); intros H100 H5;
  specialize (Ht' H100); specialize (Hn' H5); qconst; lra.
Qed.

Lemma complexity_score_saturates_witness :
  (0 <= total_changes busy_file)%Z /\
  0 <= _calculate_complexity_score busy_file <= 1.
Proof.
  split; [ simpl; lia | ].
  apply (complexity_score_saturates busy_file). simpl; lia.
Defined.

End ComplexityScore.

(* ================================================================= *)
(** * The confidence score *)

Section Confidence.
Import Router PyFacts PyFloat FloatFacts Spec Samples.
Local Open Scope Q_scope.

Lemma one_is_a_double : nearest 1.0 == 1.0.
Proof. vm_compute. reflexivity. Qed.

Lemma two_is_a_double : nearest 2 == 2.
Proof. vm_compute. reflexivity. Qed.

Lemma boosts_are_positive :
  0 < nearest 0.2 /\ 0 < nearest 0.1
  /\ - half_ulp <= nearest 0.2 - 0.2 <= half_ulp
  /\ - half_ulp <= nearest 0.1 - 0.1 <= half_ulp.
Proof. vm_compute. intuition discriminate. Qed.

(** the capped base: a double between 0 and 1, near the exact one *)
Lemma base_float (f : Q) :
  nearest (Py.min (div f 10) 1.0) == Py.min (div f 10) 1.0.
Proof.
  destruct (min_cases (div f 10) 1.0) as [[_ ->] | [_ ->]].
  - apply one_is_a_double.
  - apply nearest_fixed.
Qed.

Lemma base_mono (f f' : Q) :
  f <= f' -> Py.min (div f 10) 1.0 <= Py.min (div f' 10) 1.0.
Proof.
  intros H. assert (M : div f 10 <= div f' 10).
  { apply nearest_mono. apply scaled_le; [ reflexivity | exact H ]. }
  min_split; lra.
Qed.

Lemma base_unit (f : Q) : 0 <= f -> 0 <= Py.min (div f 10) 1.0 <= 1.
Proof.
  intros H. assert (M : nearest 0 <= div f 10).
  { apply nearest_mono. apply Qle_shift_div_l; [ reflexivity | lra ]. }
  rewrite nearest_zero in M. min_split; lra.
Qed.

(** one boost of the code: a float addition, capped at 1.0 *)
Lemma capped_float (b c : Q) :
  nearest (Py.min (add b c) 1.0) == Py.min (add b c) 1.0.
Proof.
  destruct (min_cases (add b c) 1.0) as [[_ ->] | [_ ->]].
  - apply one_is_a_double.
  - apply nearest_fixed.
Qed.

Lemma capped_mono (b b' c : Q) :
  b <= b' -> Py.min (add b c) 1.0 <= Py.min (add b' c) 1.0.
Proof.
  intros H. assert (M : add b c <= add b' c) by (apply nearest_mono; lra).
  min_split; lra.
Qed.

Lemma capped_grows (b c : Q) :
  nearest b == b -> 0 <= c -> b <= 1 -> b <= Py.min (add b c) 1.0.
Proof.
  intros Hb Hc H1.
  assert (M : nearest b <= add b c) by (apply nearest_mono; lra).
  min_split; lra.
Qed.

Lemma capped_unit (b c : Q) :
  0 <= b -> 0 <= c -> 0 <= Py.min (add b c) 1.0 <= 1.
Proof.
  intros Hb Hc.
  assert (M : nearest 0 <= add b c) by (apply nearest_mono; lra).
  rewrite nearest_zero in M. min_split; lra.
Qed.

(** a capped rounded value is as near to the capped exact one as what
    is rounded, but for half a unit in the last place *)
Lemma capped_near (y y' d : Q) :
  0 <= y -> 0 <= d <= 1 # 2 -> - d <= y - y' <= d ->
  - (d + half_ulp) <= Py.min (nearest y) 1.0 - Qmin y' 1 <= d + half_ulp.
Proof.
  intros H0 Hd Hy. rewrite <- (min_is_Qmin y' 1).
  assert (He : 0 <= half_ulp) by discriminate.
  destruct (Qlt_le_dec y 2) as [L | G].
  - pose proof (nearest_near y H0 L). min_split; lra.
  - pose proof (nearest_mono 2 y G) as M.
    pose proof two_is_a_double. min_split; lra.
Qed.

Lemma rounded_mono (x y : Q) : x <= y -> PyFloat.round2 x <= PyFloat.round2 y.
Proof. intros H. now apply nearest_mono, round2_mono. Qed.

Lemma rounded_unit (x : Q) : 0 <= x <= 1 -> 0 <= PyFloat.round2 x <= 1.
Proof.
  intros H. pose proof (round2_unit x H) as [L U].
  pose proof (nearest_mono _ _ L) as L'. pose proof (nearest_mono _ _ U) as U'.
  rewrite nearest_zero in L'. pose proof one_is_a_double.
  assert (E : nearest 1 == nearest 1.0) by (apply nearest_comp; reflexivity).
  unfold PyFloat.round2. lra.
Qed.

(** the hundredth a value between 0 and 1 is rounded to *)
Lemma hundredth (x : Q) :
  0 <= x <= 1 ->
  exists n : Z,
    (0 <= n <= 100)%Z
    /\ PyFloat.round2 x = nearest (inject_Z n / 100)
    /\ - (1 # 200) <= inject_Z n / 100 - x <= 1 # 200.
Proof.
  intros [H0 H1]. exists (Py.round_half_even (x * 100)).
  split; [ | split; [ reflexivity | ] ].
  - split.
    + apply round_half_even_ge. change (inject_Z 0) with 0. lra.
    + apply round_half_even_le. change (inject_Z 100) with 100. lra.
  - pose proof (round_half_even_near (x * 100)) as [L U].
    set (n := inject_Z (Py.round_half_even (x * 100))) in *.
    assert (E : n / 100 == n * (1 # 100)) by field.
    lra.
Qed.

(** the value before rounding, by what the assignee has *)
Lemma confidence_unrounded (a : assignee) (ctx : context) :
  exists b : Q,
    _calculate_confidence (Some a) ctx = PyFloat.round2 b
    /\ (0 <= final_score a ->
        0 <= b <= 1
        /\ - (5 * half_ulp) <= b - confidence_exact a <= 5 * half_ulp).
Proof.
  unfold _calculate_confidence, confidence_exact.
  destruct boosts_are_positive as (P2 & P1 & N2 & N1).
  assert (He : 0 <= half_ulp) by discriminate.
  assert (Hh : half_ulp <= 1 # 10) by discriminate.
  set (b0 := Py.min (div (final_score a) 10) 1.0).
  assert (B0 : 0 <= final_score a ->
               0 <= b0 <= 1
               /\ - (0 + half_ulp) <= b0 - Qmin (final_score a / 10) 1
                  <= 0 + half_ulp).
  { intros Hf. split; [ now apply base_unit | ].
    apply capped_near; try lra.
    apply Qle_shift_div_l; [ reflexivity | lra ]. }
  set (e0 := Qmin (final_score a / 10) 1) in *. clearbody e0.
  destruct (files_owned a) as [| p l]; cbn [nonempty].
  - destruct (areas_of_expertise a) as [| x xl]; cbn [nonempty].
    + exists b0. split; [ reflexivity | ]. intros Hf.
      destruct (B0 Hf) as [U N]. split; [ exact U | lra ].
    + exists (Py.min (add b0 (nearest 0.1)) 1.0).
      split; [ reflexivity | ]. intros Hf. destruct (B0 Hf) as [U N].
      split; [ apply capped_unit; lra | ].
      assert (G : - (2 * half_ulp + half_ulp)
                  <= Py.min (nearest (b0 + nearest 0.1)) 1.0
                     - Qmin (e0 + 0.1) 1
                  <= 2 * half_ulp + half_ulp)
        by (apply capped_near; lra).
      unfold add. lra.
  - set (b1 := Py.min (add b0 (nearest 0.2)) 1.0).
    assert (B1 : 0 <= final_score a ->
                 0 <= b1 <= 1
                 /\ - (3 * half_ulp) <= b1 - Qmin (e0 + 0.2) 1
                    <= 3 * half_ulp).
    { intros Hf. destruct (B0 Hf) as [U N].
      split; [ apply capped_unit; lra | ].
      assert (G : - (2 * half_ulp + half_ulp)
                  <= Py.min (nearest (b0 + nearest 0.2)) 1.0
                     - Qmin (e0 + 0.2) 1
                  <= 2 * half_ulp + half_ulp)
        by (apply capped_near; lra).
      unfold b1, add. lra. }
    set (e1 := Qmin (e0 + 0.2) 1) in *. clearbody e1 b1.
    destruct (areas_of_expertise a) as [| x xl]; cbn [nonempty].
    + exists b1. split; [ reflexivity | ]. intros Hf.
      destruct (B1 Hf) as [U N]. split; [ exact U | lra ].
    + exists (Py.min (add b1 (nearest 0.1)) 1.0).
      split; [ reflexivity | ]. intros Hf. destruct (B1 Hf) as [U N].
      split; [ apply capped_unit; lra | ].
      assert (G : - (4 * half_ulp + half_ulp)
                  <= Py.min (nearest (b1 + nearest 0.1)) 1.0
                     - Qmin (e1 + 0.1) 1
                  <= 4 * half_ulp + half_ulp)
        by (apply capped_near; lra).
      unfold add. lra.
Qed.

Lemma confidence_mono_score (a : assignee) (ctx : context) (q q' : Q) :
  q <= q' ->
  _calculate_confidence (Some (with_final_score a q)) ctx
  <= _calculate_confidence (Some (with_final_score a q')) ctx.
Proof.
  intros H. unfold _calculate_confidence. cbn [with_final_score final_score
    files_owned areas_of_expertise].
  pose proof (base_mono q q' H) as M.
  apply rounded_mono.
  destruct (nonempty (files_owned a)), (nonempty (areas_of_expertise a));
    auto using capped_mono.
Qed.

Lemma confidence_mono_files (a : assignee) (ctx : context) (l : list string) :
  _calculate_confidence (Some (with_files_owned a [])) ctx
  <= _calculate_confidence (Some (with_files_owned a l)) ctx.
Proof.
  unfold _calculate_confidence. cbn [with_files_owned final_score
    files_owned areas_of_expertise nonempty].
  destruct boosts_are_positive as (P2 & P1 & _).
  assert (G : Py.min (div (final_score a) 10) 1.0
              <= if nonempty l
                 then Py.min (add (Py.min (div (final_score a) 10) 1.0)
                                  (nearest 0.2)) 1.0
                 else Py.min (div (final_score a) 10) 1.0).
  { destruct (nonempty l); [ | lra ].
    apply capped_grows; [ apply base_float | lra | ].
    destruct (min_cases (div (final_score a) 10) 1.0) as [[? ->] | [? ->]];
      lra. }
  apply rounded_mono.
  destruct (nonempty (areas_of_expertise a)); auto using capped_mono.
Qed.

Lemma confidence_mono_areas (a : assignee) (ctx : context) (l : list string) :
  _calculate_confidence (Some (with_areas_of_expertise a [])) ctx
  <= _calculate_confidence (Some (with_areas_of_expertise a l)) ctx.
Proof.
  unfold _calculate_confidence. cbn [with_areas_of_expertise final_score
    files_owned areas_of_expertise nonempty].
  destruct boosts_are_positive as (P2 & P1 & _).
  apply rounded_mono. destruct (nonempty l); [ | lra ].
  destruct (nonempty (files_owned a)).
  - apply capped_grows; [ apply capped_float | lra | ].
    destruct (min_cases (add (Py.min (div (final_score a) 10) 1.0)
                             (nearest 0.2)) 1.0) as [[? ->] | [? ->]]; lra.
  - apply capped_grows; [ apply base_float | lra | ].
    destruct (min_cases (div (final_score a) 10) 1.0) as [[? ->] | [? ->]];
      lra.
Qed.

(** C7: the confidence is 0 without an assignee.  Otherwise, for a
    final score that is not negative, it is (the double nearest to) a
    number of hundredths between 0 and 1, and that number is within
    half a hundredth, and the rounding error of the float operations,
    of the formula of the specification in exact arithmetic:
    [min(final_score/10, 1.0)], plus 0.2 capped at 1.0 when files are
    owned, plus 0.1 capped at 1.0 when there are areas of expertise.
    It does not decrease when the final score grows, when
    [files_owned] becomes non-empty, or when [areas_of_expertise]
    becomes non-empty, the rest held fixed. *)
Theorem confidence_formula_range_monotone (ctx : context) (a : assignee) :
  _calculate_confidence None ctx == 0
  /\ (0 <= final_score a ->
      exists n : Z,
        (0 <= n <= 100)%Z
        /\ _calculate_confidence (Some a) ctx = nearest (inject_Z n / 100)
        /\ Qabs (inject_Z n / 100 - confidence_exact a)
           <= (1 # 200) + (1 # 1000000000000000))
  /\ (0 <= final_score a -> 0 <= _calculate_confidence (Some a) ctx <= 1)
  /\ (forall q q', q <= q' ->
        _calculate_confidence (Some (with_final_score a q)) ctx
        <= _calculate_confidence (Some (with_final_score a q')) ctx)
  /\ (forall l,
        _calculate_confidence (Some (with_files_owned a [])) ctx
        <= _calculate_confidence (Some (with_files_owned a l)) ctx)
  /\ (forall l,
        _calculate_confidence (Some (with_areas_of_expertise a [])) ctx
        <= _calculate_confidence (Some (with_areas_of_expertise a l)) ctx).
Proof.
  split; [ reflexivity | ].
  destruct (confidence_unrounded a ctx) as (b & Eb & Hb).
  split; [ | split ].
  - intros Hf. destruct (Hb Hf) as [U N].
    destruct (hundredth b U) as (n & Hn & En & Nn).
    exists n. split; [ exact Hn | ]. split; [ now rewrite Eb | ].
    apply Qabs_Qle_condition.
    assert (He : 5 * half_ulp <= 1 # 1000000000000000) by discriminate.
    lra.
  - intros Hf. rewrite Eb. apply rounded_unit. now apply Hb.
  - split; [ intros q q'; apply confidence_mono_score | ].
    split; [ intros l; apply confidence_mono_files
           | intros l; apply confidence_mono_areas ].
Qed.

Lemma confidence_formula_range_monotone_witness :
  0 <= final_score carol
  /\ (exists n : Z,
         (0 <= n <= 100)%Z
         /\ _calculate_confidence (Some carol) no_context
            = nearest (inject_Z n / 100)
         /\ Qabs (inject_Z n / 100 - confidence_exact carol)
            <= (1 # 200) + (1 # 1000000000000000))
  /\ _calculate_confidence (Some carol) no_context == nearest 0.43
  /\ _calculate_confidence (Some (with_files_owned carol [])) no_context
     == nearest 0.23
  /\ _calculate_confidence (Some (with_final_score carol 1)) no_context
     <= _calculate_confidence (Some (with_final_score carol 2)) no_context.
Proof.
  assert (H0 : 0 <= final_score carol) by (vm_compute; discriminate).
  assert (H1 : 1 <= 2) by (vm_compute; discriminate).
  destruct (confidence_formula_range_monotone no_context carol)
    as (_ & Hn & _ & Hmono & _).
  split; [ exact H0 | ]. split; [ exact (Hn H0) | ].
  split; [ vm_compute; reflexivity | ].
  split; [ vm_compute; reflexivity | ].
  exact (Hmono 1 2 H1).
Defined.

End Confidence.

(* ================================================================= *)
(** * Selecting the assignee *)

Section SelectionFacts.
Import Router Analyzer Samples.
Variable available : string -> bool.

Lemma select_none_iff (ranked : list assignee) (repo : string) :
  _select_final_assignee available ranked repo = None <-> ranked = [].
Proof.
  unfold _select_final_assignee. destruct ranked as [| a l].
  - split; reflexivity.
  - destruct (find _ _); split; discriminate.
Qed.

Lemma find_first {A} (p : A -> bool) (pre post : list A) (a : A) :
  (forall b, In b pre -> p b = false) -> p a = true ->
  find p (pre ++ a :: post) = Some a.
Proof.
  intros Hpre Ha. induction pre as [| b pre IH]; simpl.
  - now rewrite Ha.
  - rewrite (Hpre b (or_introl eq_refl)). apply IH.
    intros c Hc. apply Hpre. now right.
Qed.

Lemma find_none_all {A} (p : A -> bool) (l : list A) :
  (forall b, In b l -> p b = false) -> find p l = None.
Proof.
  intros H. induction l as [| b l IH]; simpl; [ reflexivity | ].
  rewrite (H b (or_introl eq_refl)). apply IH. intros c Hc. apply H. now right.
Qed.

(** C6: selection returns the first of the top three ranked candidates
    the availability oracle accepts; when it accepts none of them, the
    top-ranked candidate; [None] exactly for an empty ranking; and the
    decision's [escalation_needed] is true exactly when no assignee was
    selected. *)
Theorem selection_first_available_or_top
        (ranked : list assignee) (repo : string)
        (ctx : context) (data : ownership_data) :
  let selected := _select_final_assignee available ranked repo in
  (forall pre a post,
      firstn 3 ranked = pre ++ a :: post ->
      (forall b, In b pre -> available (developer b) = false) ->
      available (developer a) = true ->
      selected = Some a)
  /\ ((forall b, In b (firstn 3 ranked) -> available (developer b) = false) ->
      selected = hd_error ranked)
  /\ (selected = None <-> ranked = [])
  /\ (escalation_needed (decision selected ranked ctx data) = true
      <-> selected = None)
  /\ assigned_to (decision selected ranked ctx data) = selected.
Proof.
  cbv zeta. repeat apply conj.
  - intros pre a post Htop Hpre Ha.
    unfold _select_final_assignee, Py.slice. simpl skipn.
    change (3 - 0)%nat with 3%nat. rewrite Htop.
    rewrite (find_first (fun a => available (developer a)) pre post a Hpre Ha).
    destruct ranked; [ destruct pre; discriminate | reflexivity ].
  - intros Hnone. unfold _select_final_assignee, Py.slice. simpl skipn.
    change (3 - 0)%nat with 3%nat.
    rewrite (find_none_all (fun a => available (developer a)) _ Hnone).
    destruct ranked; reflexivity.
  - apply select_none_iff.
  - apply select_none_iff.
  - simpl. destruct (_select_final_assignee available ranked repo);
      intros; [ discriminate | reflexivity ].
  - simpl. destruct (_select_final_assignee available ranked repo);
      intros; [ discriminate | reflexivity ].
  - reflexivity.
Qed.

End SelectionFacts.

Lemma selection_first_available_or_top_witness :
  Router._select_final_assignee Router._is_developer_available
    [Samples.alice] "company/backend-api" = Some Samples.alice.
Proof.
  refine (proj1 (selection_first_available_or_top
                   Router._is_developer_available [Samples.alice]
                   "company/backend-api" Samples.no_context
                   {| Analyzer.file_ownership := [];
                      Analyzer.developer_activity := [];
                      Analyzer.repository_experts := [] |})
                [] Samples.alice [] _ _ _).
  - reflexivity.
  - intros b [].
  - reflexivity.
Defined.

(* ================================================================= *)
(** * Stable sorting, and dictionaries *)

Module SortFacts.

Section Generic.
Context {A K : Type} (ltb : K -> K -> bool) (key : A -> K).

Lemma insert_desc_perm (x : A) (l : list A) :
  Permutation (Py.insert_desc ltb key x l) (x :: l).
Proof.
  induction l as [| y l IH]; simpl; [ reflexivity | ].
  destruct (ltb (key x) (key y)); [ | reflexivity ].
  rewrite IH. apply perm_swap.
Qed.

Lemma sorted_desc_perm (l : list A) : Permutation (Py.sorted_desc ltb key l) l.
Proof.
  induction l as [| x l IH]; simpl; [ reflexivity | ].
  rewrite insert_desc_perm. now constructor.
Qed.

(** Stability: a class of items none of which is below another keeps
    its order. *)
Variable p : A -> bool.
Hypothesis same_rank :
  forall x y, p x = true -> p y = true -> ltb (key x) (key y) = false.

Lemma insert_desc_filter (x : A) (l : list A) :
  filter p (Py.insert_desc ltb key x l) = filter p (x :: l).
Proof.
  induction l as [| y l IH]; [ reflexivity | ].
  simpl Py.insert_desc. destruct (ltb (key x) (key y)) eqn:L; [ | reflexivity ].
  simpl filter in *. rewrite IH.
  destruct (p x) eqn:Px, (p y) eqn:Py; try reflexivity.
  rewrite (same_rank x y Px Py) in L. discriminate.
Qed.

Lemma sorted_desc_stable (l : list A) :
  filter p (Py.sorted_desc ltb key l) = filter p l.
Proof.
  induction l as [| x l IH]; [ reflexivity | ].
  simpl Py.sorted_desc. rewrite insert_desc_filter. simpl. now rewrite IH.
Qed.

End Generic.

Import Analyzer Spec.

Lemma insert_by_changes_sorted (x : string * Z) (l : list (string * Z)) :
  StronglySorted desc l ->
  StronglySorted desc (Py.insert_desc Z.ltb snd x l).
Proof.
  induction 1 as [| y l Hs IH Hall]; simpl.
  - repeat constructor.
  - destruct (Z.ltb_spec (snd x) (snd y)) as [L | L].
    + constructor; [ exact IH | ].
      rewrite Forall_forall in *. intros z Hz.
      apply (Permutation_in _ (insert_desc_perm Z.ltb snd x l)) in Hz.
      destruct Hz as [<- | Hz]; [ unfold desc; lia | now apply Hall ].
    + constructor; [ now constructor | ].
      constructor; [ exact L | ].
      rewrite Forall_forall in *. intros z Hz.
      specialize (Hall z Hz). unfold desc in *. lia.
Qed.

Lemma sorted_by_changes_sorted (l : list (string * Z)) :
  StronglySorted desc (sorted_by_changes l).
Proof.
  induction l as [| x l IH]; simpl; [ constructor | ].
  now apply insert_by_changes_sorted.
Qed.

Lemma sorted_by_changes_stable (n : Z) (l : list (string * Z)) :
  tied n (sorted_by_changes l) = tied n l.
Proof.
  apply sorted_desc_stable. intros x y Hx Hy.
  apply Z.eqb_eq in Hx, Hy. apply Z.ltb_ge. lia.
Qed.

End SortFacts.

Module DictFacts.

Section Dict.
Context {V : Type}.
Implicit Types (d : Py.dict V) (k : string).

Lemma get_upd_same d k dflt f :
  Py.get (Py.upd d k dflt f) k
  = Some (f (match Py.get d k with Some v => v | None => dflt end)).
Proof.
  induction d as [| [k' v] d IH]; simpl.
  - now rewrite String.eqb_refl.
  - destruct (String.eqb k k') eqn:E; simpl; rewrite E; auto.
Qed.

Lemma get_upd_other d k k' dflt f :
  k <> k' -> Py.get (Py.upd d k dflt f) k' = Py.get d k'.
Proof.
  intros N. induction d as [| [k0 v] d IH]; simpl.
  - apply String.eqb_neq in N. rewrite String.eqb_sym in N. now rewrite N.
  - destruct (String.eqb k k0) eqn:E; simpl.
    + apply String.eqb_eq in E. subst k0.
      apply String.eqb_neq in N. rewrite String.eqb_sym in N. now rewrite N.
    + now rewrite IH.
Qed.

Lemma keys_upd d k dflt f :
  Py.keys (Py.upd d k dflt f) = Py.set_add k (Py.keys d).
Proof.
  induction d as [| [k' v] d IH]; simpl; [ reflexivity | ].
  destruct (String.eqb k k'); simpl; [ reflexivity | ]. now f_equal.
Qed.

Lemma keys_set d k v : Py.keys (Py.set d k v) = Py.set_add k (Py.keys d).
Proof.
  induction d as [| [k' v'] d IH]; simpl; [ reflexivity | ].
  destruct (String.eqb k k'); simpl; [ reflexivity | ]. now f_equal.
Qed.

Lemma get_set d k k' v :
  Py.get (Py.set d k v) k' = if String.eqb k' k then Some v else Py.get d k'.
Proof.
  induction d as [| [k0 v0] d IH]; simpl; [ reflexivity | ].
  destruct (String.eqb_spec k k0) as [-> | N]; simpl.
  - destruct (String.eqb k' k0); reflexivity.
  - destruct (String.eqb_spec k' k0) as [-> | N'].
    + destruct (String.eqb_spec k0 k) as [E | _]; congruence.
    + exact IH.
Qed.

Lemma get_in_keys d k : In k (Py.keys d) -> exists v, Py.get d k = Some v.
Proof.
  induction d as [| [k' v] d IH]; simpl; [ intros [] | ].
  intros H. destruct (String.eqb_spec k k') as [-> | N]; [ eauto | ].
  destruct H as [-> | H]; [ congruence | auto ].
Qed.

Lemma get_none_keys d k : Py.get d k = None -> ~ In k (Py.keys d).
Proof.
  intros E H. apply get_in_keys in H. destruct H as [v H]. congruence.
Qed.

Lemma mem_keys d k : Py.mem d k = true -> Py.set_add k (Py.keys d) = Py.keys d.
Proof.
  unfold Py.mem. induction d as [| [k' v] d IH]; simpl; [ discriminate | ].
  destruct (String.eqb k k'); [ reflexivity | ].
  intros H. now rewrite IH.
Qed.

Lemma set_fresh d k v : ~ In k (Py.keys d) -> Py.set d k v = d ++ [(k, v)].
Proof.
  induction d as [| [k' v'] d IH]; simpl; [ reflexivity | ].
  intros N. destruct (String.eqb_spec k k') as [-> | _].
  - exfalso. apply N. now left.
  - rewrite IH; [ reflexivity | ]. intros H. apply N. now right.
Qed.

End Dict.

Lemma set_add_idem (k : string) (s : list string) :
  Py.set_add k (Py.set_add k s) = Py.set_add k s.
Proof.
  induction s as [| y s IH]; simpl.
  - now rewrite String.eqb_refl.
  - destruct (String.eqb k y) eqn:E; simpl; rewrite E; [ reflexivity | ].
    now rewrite IH.
Qed.

Lemma set_add_in (k x : string) (s : list string) :
  In x (Py.set_add k s) <-> x = k \/ In x s.
Proof.
  induction s as [| y s IH]; simpl.
  - intuition.
  - destruct (String.eqb_spec k y) as [-> | N]; simpl.
    + intuition.
    + rewrite IH. intuition.
Qed.

Lemma set_add_nodup (k : string) (s : list string) :
  NoDup s -> NoDup (Py.set_add k s).
Proof.
  induction 1 as [| y s Hy Hs IH]; simpl.
  - constructor; [ intros [] | constructor ].
  - destruct (String.eqb_spec k y) as [-> | N].
    + now constructor.
    + constructor; [ | exact IH ].
      rewrite set_add_in. intros [-> | H]; [ congruence | contradiction ].
Qed.

(** Setting the keys of a duplicate-free dictionary one after the
    other rebuilds it, values transformed. *)
Lemma fold_set_map {V W : Type} (F : V -> W) (d : Py.dict V)
      (r : Py.dict W) :
  NoDup (Py.keys r ++ Py.keys d) ->
  fold_left (fun r (e : string * V) => let (k, v) := e in Py.set r k (F v))
            d r
  = r ++ map (fun e : string * V => (fst e, F (snd e))) d.
Proof.
  revert r. induction d as [| [k v] d IH]; intros r H; simpl.
  - now rewrite app_nil_r.
  - rewrite set_fresh.
    + rewrite IH.
      * now rewrite <- app_assoc.
      * unfold Py.keys in *. rewrite map_app. simpl.
        rewrite <- app_assoc. exact H.
    + apply NoDup_remove_2 in H. intros Hin. apply H.
      apply in_or_app. now left.
Qed.

Lemma fold_left_inv {A B : Type} (P : A -> Prop) (f : A -> B -> A)
      (l : list B) (a : A) :
  P a -> (forall a b, P a -> P (f a b)) -> P (fold_left f l a).
Proof.
  intros Ha Hf. revert a Ha. induction l as [| b l IH]; simpl; auto.
Qed.

Lemma in_firstn {A} (n : nat) (l : list A) (x : A) :
  In x (firstn n l) -> In x l.
Proof.
  intros H. rewrite <- (firstn_skipn n l). apply in_or_app. now left.
Qed.

Lemma in_skipn {A} (n : nat) (l : list A) (x : A) :
  In x (skipn n l) -> In x l.
Proof.
  intros H. rewrite <- (firstn_skipn n l). apply in_or_app. now right.
Qed.

Lemma get_in_nodup {V : Type} (d : Py.dict V) (k : string) (v : V) :
  NoDup (Py.keys d) -> In (k, v) d -> Py.get d k = Some v.
Proof.
  induction d as [| [k' v'] d IH]; simpl; [ intros _ [] | ].
  intros H Hin. inversion H as [| ? ? Hk Hd]; subst.
  destruct Hin as [E | Hin].
  - inversion E; subst. now rewrite String.eqb_refl.
  - destruct (String.eqb_spec k k') as [-> | N]; [ | now apply IH ].
    exfalso. apply Hk. change k' with (fst (k', v)). now apply in_map.
Qed.

Lemma get_map {V W : Type} (F : V -> W) (d : Py.dict V) (k : string) :
  Py.get (map (fun e : string * V => (fst e, F (snd e))) d) k
  = option_map F (Py.get d k).
Proof.
  induction d as [| [k' v] d IH]; simpl; [ reflexivity | ].
  destruct (String.eqb k k'); [ reflexivity | exact IH ].
Qed.

End DictFacts.

(* ================================================================= *)
(** * Who is ranked first among contributors with equal changes *)

Module TieFacts.
Import Fx Analyzer Spec Samples DictFacts SortFacts.

Lemma contributors_touch (author path : string) (acc : accumulators)
      (fi : file_info) :
  contributors_of (acc_file_ownership (touch author acc fi)) path
  = if String.eqb (filename fi) path
    then Py.upd (contributors_of (acc_file_ownership acc) path) author 0%Z
                (fun n => (n + match changes fi with
                               | Some n => n
                               | None => 0
                               end)%Z)
    else contributors_of (acc_file_ownership acc) path.
Proof.
  unfold contributors_of, touch. simpl.
  destruct (String.eqb_spec (filename fi) path) as [<- | N].
  - now rewrite get_upd_same.
  - now rewrite get_upd_other.
Qed.

Lemma keys_accumulate (path : string) (ts : list touched)
      (acc : accumulators) :
  Py.keys (contributors_of
             (acc_file_ownership
                (fold_left (fun acc t => touch (fst t) acc (snd t)) ts acc))
             path)
  = fold_left
      (fun seen (t : touched) =>
         if String.eqb (filename (snd t)) path then Py.set_add (fst t) seen
         else seen)
      ts (Py.keys (contributors_of (acc_file_ownership acc) path)).
Proof.
  revert acc. induction ts as [| [a fi] ts IH]; intros acc; simpl.
  - reflexivity.
  - rewrite IH, contributors_touch. simpl.
    destruct (String.eqb (filename fi) path); [ | reflexivity ].
    now rewrite keys_upd.
Qed.

Lemma credit_nodup (d : Py.dict (Py.dict Z)) (domain who : string) (n : Z) :
  NoDup (Py.keys d) -> NoDup (Py.keys (credit d domain who n)).
Proof.
  intros H. unfold credit. rewrite keys_upd. now apply set_add_nodup.
Qed.

Lemma experts_nodup (fo : Py.dict (Py.dict Z)) : NoDup (Py.keys (experts fo)).
Proof.
  unfold experts. apply fold_left_inv; [ constructor | ].
  intros d [path own] Hd. apply fold_left_inv; [ exact Hd | ].
  intros d' [who n] Hd'. now apply credit_nodup, credit_nodup.
Qed.

Lemma ranked_experts_get (ex : Py.dict (Py.dict Z)) (domain : string) :
  NoDup (Py.keys ex) ->
  Py.get (ranked_experts ex) domain
  = option_map (fun c => firstn 3 (sorted_by_changes c)) (Py.get ex domain).
Proof.
  intros H.
  pose proof (fold_set_map (fun c => Py.slice 0 3 (sorted_by_changes c))
                           ex [] H) as E.
  transitivity
    (Py.get (map (fun e : string * Py.dict Z =>
                    (fst e, Py.slice 0 3 (sorted_by_changes (snd e)))) ex)
            domain).
  - f_equal. exact E.
  - apply (get_map (fun c => Py.slice 0 3 (sorted_by_changes c))).
Qed.

End TieFacts.

(* ================================================================= *)
(** * The effects of the analysis *)

Module FxFacts.
Import Fx Analyzer Spec DictFacts SortFacts.

Lemma returns_ret {A} (a : A) (s : state) (post : A -> state -> Prop) :
  post a s -> returns (ret a) s post.
Proof. intros H. exact H. Qed.

Lemma returns_bind {A B} (m : M A) (f : A -> M B) (s : state)
      (post : B -> state -> Prop) :
  returns m s (fun a s' => returns (f a) s' post) ->
  returns (bind m f) s post.
Proof.
  unfold returns, bind. destruct (m s) as [[a | e] s']; auto.
Qed.

Lemma returns_weaken {A} (m : M A) (s : state)
      (post post' : A -> state -> Prop) :
  returns m s post -> (forall a s', post a s' -> post' a s') ->
  returns m s post'.
Proof.
  unfold returns. destruct (m s) as [[a | e] s']; auto.
Qed.

Lemma returns_inv {A} (m : M A) (s : state) (post : A -> state -> Prop)
      (r : result A) (s' : state) :
  returns m s post -> m s = (r, s') -> exists a, r = Ok a /\ post a s'.
Proof.
  unfold returns. intros H E. rewrite E in H.
  destruct r as [a | e]; [ eauto | contradiction ].
Qed.

Lemma returns_run {A} (m : M A) (s : state) (post : A -> state -> Prop) :
  returns m s post -> exists a s', m s = (Ok a, s') /\ post a s'.
Proof.
  unfold returns. destruct (m s) as [[a | e] s']; [ eauto | contradiction ].
Qed.

Lemma returns_foldM {A B} (inv : A -> state -> Prop) (f : A -> B -> M A)
      (l : list B) (a : A) (s : state) :
  inv a s ->
  (forall a x s, In x l -> inv a s -> returns (f a x) s inv) ->
  returns (foldM f l a) s inv.
Proof.
  revert a s. induction l as [| x l IH]; intros a s Ha Hf; simpl.
  - exact Ha.
  - apply returns_bind.
    apply (returns_weaken _ _ inv); [ apply Hf; simpl; auto | ].
    intros a' s' Ha'. apply IH; [ exact Ha' | ].
    intros; apply Hf; simpl; auto.
Qed.

Lemma grows_refl (s : state) : grows s s.
Proof. exists []. now rewrite app_nil_r. Qed.

Lemma grows_trans (s1 s2 s3 : state) : grows s1 s2 -> grows s2 s3 -> grows s1 s3.
Proof.
  intros [m1 E1] [m2 E2]. exists (m1 ++ m2). now rewrite E2, E1, app_assoc.
Qed.

Lemma grows_send (s : state) (r : request) :
  grows s {| cache := cache s; trace := trace s ++ [r] |}.
Proof. now exists [r]. Qed.

(** ** Dictionaries whose values all satisfy a property *)

Lemma dict_all_nil {V} (P : V -> Prop) : dict_all P [].
Proof. intros k v []. Qed.

Lemma dict_all_upd {V} (P : V -> Prop) (d : Py.dict V) (k : string)
      (dflt : V) (f : V -> V) :
  dict_all P d -> (forall v, P v -> P (f v)) -> P (f dflt) ->
  dict_all P (Py.upd d k dflt f).
Proof.
  intros Hd Hf H0. induction d as [| [k' v'] d IH]; simpl.
  - intros k0 v0 [E | []]. now inversion E; subst.
  - assert (Hd' : dict_all P d) by (intros k0 v0 H; apply (Hd k0 v0); now right).
    destruct (String.eqb k k').
    + intros k0 v0 [E | H].
      * inversion E; subst. apply Hf. apply (Hd k0 v'). now left.
      * apply (Hd k0 v0). now right.
    + intros k0 v0 [E | H].
      * apply (Hd k0 v0). now left.
      * now apply (IH Hd' k0 v0).
Qed.

Lemma dict_all_set {V} (P : V -> Prop) (d : Py.dict V) (k : string) (v : V) :
  dict_all P d -> P v -> dict_all P (Py.set d k v).
Proof.
  intros Hd Hv. induction d as [| [k' v'] d IH]; simpl.
  - intros k0 v0 [E | []]. now inversion E; subst.
  - assert (Hd' : dict_all P d) by (intros k0 v0 H; apply (Hd k0 v0); now right).
    destruct (String.eqb k k').
    + intros k0 v0 [E | H].
      * now inversion E; subst.
      * apply (Hd k0 v0). now right.
    + intros k0 v0 [E | H].
      * apply (Hd k0 v0). now left.
      * now apply (IH Hd' k0 v0).
Qed.

Lemma get_in {V} (d : Py.dict V) (k : string) (v : V) :
  Py.get d k = Some v -> In (k, v) d.
Proof.
  induction d as [| [k' v'] d IH]; simpl; [ discriminate | ].
  destruct (String.eqb_spec k k') as [-> | N].
  - intros E. inversion E. now left.
  - intros E. right. now apply IH.
Qed.

Lemma dict_all_get {V} (P : V -> Prop) (d : Py.dict V) (k : string) (v : V) :
  dict_all P d -> Py.get d k = Some v -> P v.
Proof. intros Hd E. apply (Hd k v). now apply get_in. Qed.

End FxFacts.

Module AnalysisFacts.
Import Fx Analyzer Spec DictFacts SortFacts FxFacts.

Section Good.
Variable good : Z -> Prop.
Hypothesis good_0 : good 0%Z.
Hypothesis good_add : forall a b, good a -> good b -> good (a + b)%Z.

Lemma touch_good (author : string) (acc : accumulators) (fi : file_info) :
  acc_good good acc -> good (changes_of fi) ->
  acc_good good (touch author acc fi).
Proof.
  intros (Hk & Hfo & Hfc) Hfi. unfold acc_good, touch. simpl.
  fold (changes_of fi). repeat split.
  - rewrite !keys_upd, Hk.
    destruct (Py.mem (acc_file_complexity acc) (filename fi)) eqn:M.
    + reflexivity.
    + now rewrite keys_set, set_add_idem.
  - apply dict_all_upd; [ exact Hfo | | ].
    + intros d Hd. apply dict_all_upd; auto.
    + apply dict_all_upd; [ apply dict_all_nil | auto | auto ].
  - apply dict_all_upd; simpl; auto.
    destruct (Py.mem (acc_file_complexity acc) (filename fi)); auto.
    apply dict_all_set; simpl; auto.
Qed.

Lemma touches_good (author : string) (l : list file_info)
      (acc : accumulators) :
  acc_good good acc -> (forall fi, In fi l -> good (changes_of fi)) ->
  acc_good good (fold_left (touch author) l acc).
Proof.
  revert acc. induction l as [| fi l IH]; intros acc Ha Hl; simpl; auto.
  apply IH.
  - apply touch_good; [ exact Ha | apply Hl; now left ].
  - intros fi' H. apply Hl. now right.
Qed.

Lemma experts_good (fo : Py.dict (Py.dict Z)) :
  dict_all (dict_all good) fo -> dict_all (dict_all good) (experts fo).
Proof.
  intros Hfo. unfold experts.
  enough (G : forall l ex,
             (forall e, In e l -> dict_all good (snd e)) ->
             dict_all (dict_all good) ex ->
             dict_all (dict_all good)
               (fold_left
                  (fun experts (entry : string * Py.dict Z) =>
                     let (file_path, ownership) := entry in
                     fold_left
                       (fun experts (c : string * Z) =>
                          let (contributor, changes) := c in
                          credit
                            (credit experts (directory_of file_path)
                                    contributor changes)
                            ("*." ++ ext_of file_path) contributor changes)
                       ownership experts) l ex)).
  { apply G; [ | apply dict_all_nil ]. intros [p c] H. exact (Hfo p c H). }
  assert (Hcredit : forall ex dom who n,
             dict_all (dict_all good) ex -> good n ->
             dict_all (dict_all good) (credit ex dom who n)).
  { intros ex dom who n Hex Hn. unfold credit. apply dict_all_upd; auto.
    - intros d Hd. apply dict_all_upd; auto.
    - apply dict_all_upd; [ apply dict_all_nil | auto | auto ]. }
  induction l as [| [p c] l IH]; intros ex Hl Hex; simpl; auto.
  apply IH; [ intros e H; apply Hl; now right | ].
  assert (Hc : dict_all good c) by (apply (Hl (p, c)); now left).
  clear IH Hl. revert ex Hex. induction c as [| [who n] c IHc]; intros ex Hex;
    simpl; auto.
  apply IHc.
  - intros k v H. apply (Hc k v). now right.
  - apply Hcredit; [ apply Hcredit | ]; auto; apply (Hc who n); now left.
Qed.

Lemma sorted_slice_good (a b : nat) (c : Py.dict Z) :
  dict_all good c ->
  Forall (fun e : string * Z => good (snd e))
         (Py.slice a b (sorted_by_changes c)).
Proof.
  intros Hc. apply Forall_forall. intros [who n] H.
  unfold Py.slice in H. apply in_firstn, in_skipn in H.
  apply (Permutation_in _ (sorted_desc_perm Z.ltb snd c)) in H.
  exact (Hc who n H).
Qed.

Lemma ranked_experts_good (ex : Py.dict (Py.dict Z)) :
  dict_all (dict_all good) ex ->
  dict_all (Forall (fun e : string * Z => good (snd e))) (ranked_experts ex).
Proof.
  intros Hex. unfold ranked_experts.
  enough (G : forall l r,
             (forall e, In e l -> dict_all good (snd e)) ->
             dict_all (Forall (fun e : string * Z => good (snd e))) r ->
             dict_all (Forall (fun e : string * Z => good (snd e)))
               (fold_left
                  (fun ranked_experts (entry : string * Py.dict Z) =>
                     let (domain, contributors) := entry in
                     Py.set ranked_experts domain
                            (Py.slice 0 3 (sorted_by_changes contributors)))
                  l r)).
  { apply G; [ | apply dict_all_nil ]. intros [p c] H. exact (Hex p c H). }
  induction l as [| [dom c] l IH]; intros r Hl Hr; simpl; auto.
  apply IH; [ intros e H; apply Hl; now right | ].
  apply dict_all_set; auto. apply sorted_slice_good.
  apply (Hl (dom, c)). now left.
Qed.

Section World.
Variable w : World.
Hypothesis w_good : world_good good w.

Lemma fetch_pages_returns (n : nat) (repo : string) (since : Z) (page : nat)
      (all : list commit) (s : state) :
  returns (fetch_pages w n repo since page all) s
          (fun _ s' => cache s' = cache s /\ grows s s').
Proof.
  revert page all s. induction n as [| n IH]; intros page all s; simpl.
  - apply returns_ret. split; [ reflexivity | apply grows_refl ].
  - apply returns_bind. unfold returns at 1, send.
    destruct (negb (status_code (commits_page w repo since page) =? 200)%Z).
    + apply returns_ret. split; [ reflexivity | apply grows_send ].
    + destruct (json (commits_page w repo since page)) as [| c cs].
      * apply returns_ret. split; [ reflexivity | apply grows_send ].
      * eapply returns_weaken; [ apply IH | ].
        intros _ s' [Hc Hg]. split; [ exact Hc | ].
        eapply grows_trans; [ apply grows_send | exact Hg ].
Qed.

Lemma fetch_pages_first (n : nat) (repo : string) (since : Z) (page : nat)
      (all : list commit) (s : state) :
  returns (fetch_pages w (S n) repo since page all) s
          (fun _ s' =>
             cache s' = cache s
             /\ exists more,
                 trace s' = trace s ++ GetCommits repo since page :: more).
Proof.
  simpl. apply returns_bind. unfold returns at 1, send.
  assert (Here : forall x : list commit,
             returns (ret x)
                     {| cache := cache s;
                        trace := trace s ++ [GetCommits repo since page] |}
                     (fun _ s' =>
                        cache s' = cache s
                        /\ exists more,
                            trace s'
                            = trace s ++ GetCommits repo since page :: more)).
  { intros x. apply returns_ret. split; [ reflexivity | ]. now exists []. }
  destruct (negb (status_code (commits_page w repo since page) =? 200)%Z);
    [ apply Here | ].
  destruct (json (commits_page w repo since page)) as [| c cs];
    [ apply Here | ].
  eapply returns_weaken; [ apply fetch_pages_returns | ].
  intros _ s' [Hc [more Hg]]. split; [ exact Hc | ].
  exists more. simpl in Hg. rewrite Hg, <- app_assoc. reflexivity.
Qed.

Lemma recent_commits_returns (repo : string) (since : Z) (s : state) :
  returns (_get_recent_commits w repo since) s
          (fun _ s' =>
             cache s' = cache s
             /\ exists more,
                 trace s' = trace s ++ GetCommits repo since 1 :: more).
Proof. apply fetch_pages_first. Qed.

Lemma commit_details_returns (repo sha : string) (s : state) :
  cache_good good s ->
  returns (_get_commit_details w repo sha) s
          (fun d s' => details_good good d /\ cache_good good s' /\ grows s s').
Proof.
  intros Hs. unfold _get_commit_details. apply returns_bind.
  unfold returns at 1, get_cache.
  destruct (Py.get (cache s) sha) as [d |] eqn:G.
  - apply returns_ret. repeat split; auto; [ | apply grows_refl ].
    exact (dict_all_get _ _ _ _ Hs G).
  - apply returns_bind. unfold returns at 1, send.
    destruct (status_code (commit_of w repo sha) =? 200)%Z.
    + apply returns_bind. unfold returns at 1, put_cache.
      apply returns_ret. repeat split.
      * apply w_good.
      * unfold cache_good. simpl. apply dict_all_set; [ exact Hs | apply w_good ].
      * apply grows_send.
    + apply returns_ret. repeat split; auto; [ | apply grows_send ].
      intros fi [].
Qed.

Lemma last_modified_returns (repo path : string) (s : state) :
  returns (_get_file_last_modified w repo path) s
          (fun _ s' => cache s' = cache s /\ grows s s').
Proof.
  unfold _get_file_last_modified. apply returns_bind.
  unfold returns at 1, send.
  destruct (status_code (last_commit_dates w repo path) =? 200)%Z;
    [ destruct (json (last_commit_dates w repo path)) | ];
    apply returns_ret; (split; [ reflexivity | apply grows_send ]).
Qed.

(** The analysis never raises; its trace starts with the request for
    the first page of commits; and line counts that are all [good]
    give a model that is. *)
Lemma analysis_returns (repo : string) (days : Z) (s : state) :
  cache_good good s ->
  returns (analyze_repository_ownership w repo days) s
          (fun m s' =>
             model_good good m /\ cache_good good s'
             /\ exists more,
                 trace s' = trace s
                            ++ GetCommits repo (now w - days * 86400) 1 :: more).
Proof.
  intros Hs. unfold analyze_repository_ownership. apply returns_bind.
  eapply returns_weaken; [ apply recent_commits_returns | ].
  intros commits s1 [Hc1 [more1 Ht1]]. simpl in *.
  assert (Hs1 : cache_good good s1) by (unfold cache_good; now rewrite Hc1).
  apply returns_bind. unfold collect.
  eapply returns_weaken.
  { apply (returns_foldM
             (fun acc s' => acc_good good acc /\ cache_good good s' /\ grows s1 s')).
    - repeat split; try apply dict_all_nil; auto. apply grows_refl.
    - intros acc c s' _ (Ha & Hc & Hg). apply returns_bind.
      eapply returns_weaken; [ apply commit_details_returns; exact Hc | ].
      intros d s'' (Hd & Hc' & Hg'). apply returns_ret. repeat split.
      + apply touches_good; auto.
      + apply touches_good; auto.
      + apply touches_good; auto.
      + exact Hc'.
      + eapply grows_trans; eauto. }
  intros acc s2 (Ha & Hs2 & Hg2). simpl.
  destruct Ha as (Hk & Hfo & Hfc).
  apply returns_bind. unfold build_ownership_map.
  eapply returns_weaken.
  { apply (returns_foldM
             (fun (om : Py.dict FileOwnership) s' =>
                dict_all (record_good good) om /\ cache_good good s'
                /\ grows s2 s')).
    - repeat split; [ apply dict_all_nil | exact Hs2 | apply grows_refl ].
    - intros om [path c] s' Hin (Hom & Hc & Hg). apply returns_bind.
      eapply returns_weaken; [ apply last_modified_returns | ].
      intros lm s'' [Hc' Hg']. simpl.
      assert (Hpath : In path (Py.keys (acc_file_complexity acc))).
      { rewrite <- Hk. change path with (fst (path, c)). now apply in_map. }
      destruct (get_in_keys _ _ Hpath) as [d Hd]. rewrite Hd. simpl.
      apply returns_ret. repeat split.
      + apply dict_all_set; [ exact Hom | ].
        exists d. split; [ | reflexivity ].
        exact (dict_all_get _ _ _ _ Hfc Hd).
      + unfold cache_good. now rewrite Hc'.
      + eapply grows_trans; eauto. }
  intros om s3 (Hom & Hs3 & Hg3). simpl.
  apply returns_ret. repeat split; simpl.
  - exact Hom.
  - apply ranked_experts_good, experts_good, Hfo.
  - exact Hs3.
  - destruct Hg2 as [m2 E2]. destruct Hg3 as [m3 E3].
    exists (more1 ++ m2 ++ m3). rewrite E3, E2, Ht1.
    rewrite <- !app_assoc. reflexivity.
Qed.

End World.
End Good.

(** Whatever the world answers, the analysis returns a model. *)
Lemma analysis_total (w : World) (repo : string) (days : Z) (s : state) :
  exists m s',
    analyze_repository_ownership w repo days s = (Ok m, s')
    /\ exists more,
        trace s' = trace s ++ GetCommits repo (now w - days * 86400) 1 :: more.
Proof.
  destruct (returns_run _ _ _
              (analysis_returns anything I (fun _ _ _ _ => I) w
                 (fun _ _ _ _ => I) repo days s (fun _ _ _ _ _ => I)))
    as (m & s' & E & _ & _ & H).
  eauto.
Qed.

End AnalysisFacts.

(* ================================================================= *)
(** * The analysis ranks the contributors as they were accumulated *)

Module ProcessFacts.
Import Fx Analyzer Spec Samples DictFacts SortFacts FxFacts AnalysisFacts.
Import TieFacts.

Lemma commit_details_run (w : World) (repo sha : string) (s : state) :
  exists s',
    _get_commit_details w repo sha s
    = (Ok (fst (details_seen w repo (cache s) sha)), s')
    /\ cache s' = snd (details_seen w repo (cache s) sha).
Proof.
  unfold _get_commit_details, details_seen, bind, get_cache, send, put_cache,
    ret.
  destruct (Py.get (cache s) sha) as [d |]; [ eauto | ].
  destruct (status_code (commit_of w repo sha) =? 200)%Z; simpl; eauto.
Qed.

Lemma fold_touch_author (author : string) (l : list file_info)
      (acc : accumulators) :
  fold_left (fun acc (t : touched) => touch (fst t) acc (snd t))
            (map (pair author) l) acc
  = fold_left (touch author) l acc.
Proof.
  revert acc. induction l as [| fi l IH]; intros acc; simpl; auto.
Qed.

Lemma collect_from (w : World) (repo : string) (commits : list commit)
      (acc : accumulators) (s : state) :
  exists s',
    foldM
      (fun acc commit =>
         commit_details <- _get_commit_details w repo (sha commit) ;;
         ret (fold_left (touch (author_email commit))
                        (files_of commit_details) acc))
      commits acc s
    = (Ok (fold_left (fun acc (t : touched) => touch (fst t) acc (snd t))
                     (touches_of w repo (cache s) commits) acc), s').
Proof.
  revert acc s. induction commits as [| c commits IH]; intros acc s; simpl.
  - now exists s.
  - destruct (commit_details_run w repo (sha c) s) as (s1 & E & Hc).
    destruct (details_seen w repo (cache s) (sha c)) as [d cache'] eqn:D.
    simpl in E, Hc.
    destruct (IH (fold_left (touch (author_email c)) (files_of d) acc) s1)
      as (s2 & E2).
    exists s2. unfold bind at 1. unfold bind at 1. rewrite E.
    unfold ret at 1. rewrite E2, Hc.
    now rewrite fold_left_app, fold_touch_author.
Qed.

Lemma collect_run (w : World) (repo : string) (commits : list commit)
      (s : state) :
  exists s',
    collect w repo commits s
    = (Ok (accumulate (touches_of w repo (cache s) commits)), s').
Proof. apply collect_from. Qed.

Lemma accumulate_good (ts : list touched) : acc_good anything (accumulate ts).
Proof.
  unfold accumulate. apply fold_left_inv.
  - repeat split; apply dict_all_nil.
  - intros acc t Ha.
    apply (touch_good anything I (fun _ _ _ _ => I)); [ exact Ha | exact I ].
Qed.

Lemma accumulate_nodup (ts : list touched) :
  NoDup (Py.keys (acc_file_ownership (accumulate ts))).
Proof.
  unfold accumulate. apply fold_left_inv; [ constructor | ].
  intros acc t H. unfold touch. simpl. rewrite keys_upd.
  now apply set_add_nodup.
Qed.

(** every record of the map is built from an entry of the accumulated
    table *)
Lemma ownership_map_records (w : World) (repo : string) (acc : accumulators)
      (s : state) :
  acc_good anything acc ->
  returns (build_ownership_map w repo acc) s
          (fun om _ =>
             forall path r,
               Py.get om path = Some r ->
               exists c lm d,
                 In (path, c) (acc_file_ownership acc)
                 /\ r = ownership_record path c lm d).
Proof.
  intros (Hk & _ & _). unfold build_ownership_map.
  eapply returns_weaken.
  { apply (returns_foldM
             (fun (om : Py.dict FileOwnership) (_ : state) =>
                forall path r,
                  Py.get om path = Some r ->
                  exists c lm d,
                    In (path, c) (acc_file_ownership acc)
                    /\ r = ownership_record path c lm d)).
    - intros path r H. discriminate H.
    - intros om [p c] s0 Hin Hom. apply returns_bind.
      eapply returns_weaken; [ apply last_modified_returns | ].
      intros lm s1 _. simpl.
      assert (Hp : In p (Py.keys (acc_file_complexity acc))).
      { rewrite <- Hk. change p with (fst (p, c)). now apply in_map. }
      destruct (get_in_keys _ _ Hp) as [d Hd]. rewrite Hd. simpl.
      apply returns_ret. intros path r. rewrite get_set.
      destruct (String.eqb_spec path p) as [-> | N].
      + intros E. inversion E. eauto.
      + apply Hom. }
  auto.
Qed.

(** The records and the expert table of an analysis are those of the
    change events it processed, in the order it processed them. *)
Lemma analysis_of_processed (w : World) (repo : string) (days : Z)
      (s : state) :
  returns (analyze_repository_ownership w repo days) s
          (fun m _ =>
             let accumulated :=
               acc_file_ownership (accumulate (processed w repo days s)) in
             (forall path r,
                 Py.get (file_ownership m) path = Some r ->
                 exists lm d,
                   r = ownership_record path
                                        (contributors_of accumulated path)
                                        lm d)
             /\ repository_experts m
                = _identify_experts (developer_activity m) accumulated).
Proof.
  unfold analyze_repository_ownership, processed.
  destruct (returns_run _ _ _
              (recent_commits_returns w repo (now w - days * 86400) s))
    as (commits & s1 & E1 & _).
  rewrite E1. apply returns_bind. unfold returns at 1. rewrite E1.
  destruct (collect_run w repo commits s1) as (s2 & E2).
  apply returns_bind. unfold returns at 1. rewrite E2.
  apply returns_bind.
  eapply returns_weaken;
    [ apply ownership_map_records, accumulate_good | ].
  intros om s3 Hom. apply returns_ret. simpl. split; [ | reflexivity ].
  intros path r Hr. destruct (Hom path r Hr) as (c & lm & d & Hin & ->).
  exists lm, d. unfold contributors_of.
  now rewrite (get_in_nodup _ _ _ (accumulate_nodup _) Hin).
Qed.

(** C3, as the code has it: contributors with the same number of
    changed lines keep the order in which they were first credited.
    For a file that is the order of their first change to it, and
    [primary_owner] and [secondary_owners] are the first three of the
    ranking; for a domain key it is the order of the [experts] table,
    of whose ranking the first three are kept.  An analysis builds its
    records and its expert table in this way from the change events it
    processed, in the order it processed them. *)
Theorem ties_keep_first_credit_order
        (ts : list touched) (path domain : string) (n : Z)
        (last_modified : Z) (data : complexity_data)
        (developer_activity : Py.dict Z)
        (w : World) (repo : string) (days : Z) (s : state) :
  let file_ownership := acc_file_ownership (accumulate ts) in
  let contributors := contributors_of file_ownership path in
  let ranking := sorted_by_changes contributors in
  let record := ownership_record path contributors last_modified data in
  Py.keys contributors = first_contributors path ts
  /\ Permutation ranking contributors
  /\ StronglySorted desc ranking
  /\ tied n ranking = tied n contributors
  /\ primary_owner record = hd_error (map fst ranking)
  /\ secondary_owners record = firstn 2 (tl (map fst ranking))
  /\ Py.get (_identify_experts developer_activity file_ownership) domain
     = option_map (fun c => firstn 3 (sorted_by_changes c))
                  (Py.get (experts file_ownership) domain)
  /\ (forall c, Permutation (sorted_by_changes c) c
                /\ StronglySorted desc (sorted_by_changes c)
                /\ tied n (sorted_by_changes c) = tied n c)
  /\ returns (analyze_repository_ownership w repo days) s
             (fun m _ =>
                let accumulated :=
                  acc_file_ownership (accumulate (processed w repo days s)) in
                (forall path r,
                    Py.get (Analyzer.file_ownership m) path = Some r ->
                    exists lm d,
                      r = ownership_record
                            path (contributors_of accumulated path) lm d)
                /\ repository_experts m
                   = _identify_experts (Analyzer.developer_activity m)
                                       accumulated).
Proof.
  cbv zeta. repeat apply conj.
  - apply (keys_accumulate path ts no_accumulators).
  - apply sorted_desc_perm.
  - apply sorted_by_changes_sorted.
  - apply sorted_by_changes_stable.
  - unfold ownership_record. simpl.
    destruct (sorted_by_changes _); reflexivity.
  - unfold ownership_record, Py.slice. simpl.
    destruct (sorted_by_changes _) as [| x l]; [ reflexivity | ].
    change (map fst (firstn 2 l) = firstn 2 (map fst l)).
    symmetry. apply firstn_map.
  - apply ranked_experts_get, experts_nodup.
  - intros c. repeat apply conj.
    + apply sorted_desc_perm.
    + apply sorted_by_changes_sorted.
    + apply sorted_by_changes_stable.
  - apply analysis_of_processed.
Qed.

(** Ten lines each by bob, then alice: bob is the primary owner and
    the first expert, although "alice" sorts before "bob"; with the
    two events swapped it is alice. *)
Lemma ties_not_by_identity :
  let file_ownership := acc_file_ownership (accumulate bob_then_alice) in
  let contributors := contributors_of file_ownership "src/app.py" in
  let record := ownership_record "src/app.py" contributors 0 sample_data in
  let swapped :=
    contributors_of (acc_file_ownership (accumulate alice_then_bob))
                    "src/app.py" in
  contributors = [("bob", 10%Z); ("alice", 10%Z)]
  /\ String.ltb "alice" "bob" = true
  /\ primary_owner record = Some "bob"
  /\ secondary_owners record = ["alice"]
  /\ by_changes_then_identity (sorted_by_changes contributors) = false
  /\ Py.get (_identify_experts [] file_ownership) "*.py"
     = Some [("bob", 10%Z); ("alice", 10%Z)]
  /\ primary_owner (ownership_record "src/app.py" swapped 0 sample_data)
     = Some "alice"
  /\ exists data s,
      analyze_repository_ownership tie_world "company/backend-api" 90 initial
      = (Ok data, s)
      /\ option_map primary_owner
                    (Py.get (Analyzer.file_ownership data) "src/app.py")
         = Some (Some "bob")
      /\ option_map secondary_owners
                    (Py.get (Analyzer.file_ownership data) "src/app.py")
         = Some ["alice"]
      /\ Py.get (repository_experts data) "src"
         = Some [("bob", 10%Z); ("alice", 10%Z)].
Proof.
  cbv zeta. repeat split; try (vm_compute; reflexivity).
  eexists. eexists. split; [ vm_compute; reflexivity | ].
  repeat split; reflexivity.
Qed.

Lemma ties_keep_first_credit_order_witness :
  Py.keys (contributors_of (acc_file_ownership (accumulate bob_then_alice))
                           "src/app.py")
  = first_contributors "src/app.py" bob_then_alice
  /\ tied 10 (sorted_by_changes
                (contributors_of
                   (acc_file_ownership (accumulate bob_then_alice))
                   "src/app.py"))
     = [("bob", 10%Z); ("alice", 10%Z)].
Proof.
  destruct (ties_keep_first_credit_order
              bob_then_alice "src/app.py" "*.py" 10 0 sample_data []
              tie_world "company/backend-api" 90 initial)
    as (Hkeys & _ & _ & Htied & _).
  split; [ exact Hkeys | ].
  rewrite Htied. reflexivity.
Defined.

End ProcessFacts.

(* ================================================================= *)
(** * Routing *)

Module RouteFacts.
Import Fx Analyzer Router Spec Samples DictFacts SortFacts FxFacts.
Import AnalysisFacts PyFacts.

Lemma bind_ok {A B} (m : M A) (f : A -> M B) (s s' : state) (a : A) :
  m s = (Ok a, s') -> bind m f s = f a s'.
Proof. intros E. unfold bind. now rewrite E. Qed.

Lemma bind_raise {A B} (m : M A) (f : A -> M B) (s s' : state) (e : exn) :
  m s = (Raise e, s') -> bind m f s = (Raise e, s').
Proof. intros E. unfold bind. now rewrite E. Qed.


(** a report with a title and a description has a context *)
Lemma extract_returns (bug : bug_data) (t d : string) :
  title bug = Some t -> description bug = Some d ->
  exists ctx, forall s, _extract_bug_context bug s = (Ok ctx, s).
Proof.
  intros Ht Hd. unfold _extract_bug_context. rewrite Ht, Hd.
  eexists. intros s. reflexivity.
Qed.

Lemma extract_untitled (bug : bug_data) (s : state) :
  title bug = None ->
  _extract_bug_context bug s = (Raise (KeyError "title"), s).
Proof.
  intros Ht. unfold _extract_bug_context. rewrite Ht. reflexivity.
Qed.

(** [defaultdict] is not a name of the module *)
Lemma defaultdict_unbound (ctx : context) (data : ownership_data)
      (files : list string) (s : state) :
  _find_potential_assignees module_globals ctx data files s
  = (Raise (NameError "defaultdict"), s).
Proof. reflexivity. Qed.

Lemma defaultdict_bound (ctx : context) (data : ownership_data)
      (files : list string) (s : state) :
  _find_potential_assignees repaired_globals ctx data files s
  = (Ok (potential (scored ctx data files)), s).
Proof. reflexivity. Qed.

Section Route.
Variable available : string -> bool.
Variable w : World.

Lemma route_name_error (bug : bug_data) (t d r : string) (s : state) :
  title bug = Some t -> description bug = Some d -> repository bug = Some r ->
  exists s' more,
    route_bug_report module_globals available w bug s
    = (Raise (NameError "defaultdict"), s')
    /\ trace s' = trace s ++ GetCommits r (now w - 90 * 86400) 1 :: more.
Proof.
  intros Ht Hd Hr.
  destruct (analysis_total w r 90 s) as (m & s' & Ea & more & Htr).
  destruct (extract_returns bug t d Ht Hd) as [ctx Ec].
  exists s', more. split; [ | exact Htr ].
  unfold route_bug_report. rewrite Hr.
  change (item "repository" (Some r)) with (ret (A := string) r).
  unfold bind at 1, ret at 1.
  rewrite (bind_ok _ _ _ _ _ Ea), (bind_ok _ _ _ _ _ (Ec s')).
  apply bind_raise. apply defaultdict_unbound.
Qed.

Lemma route_no_repository (globals : list string) (bug : bug_data)
      (s : state) :
  repository bug = None ->
  route_bug_report globals available w bug s
  = (Raise (KeyError "repository"), s).
Proof.
  intros Hr. unfold route_bug_report. rewrite Hr. reflexivity.
Qed.

Lemma route_no_title (globals : list string) (bug : bug_data) (r : string)
      (s : state) :
  repository bug = Some r -> title bug = None ->
  exists s' more,
    route_bug_report globals available w bug s
    = (Raise (KeyError "title"), s')
    /\ trace s' = trace s ++ GetCommits r (now w - 90 * 86400) 1 :: more.
Proof.
  intros Hr Ht.
  destruct (analysis_total w r 90 s) as (m & s' & Ea & more & Htr).
  exists s', more. split; [ | exact Htr ].
  unfold route_bug_report. rewrite Hr.
  change (item "repository" (Some r)) with (ret (A := string) r).
  unfold bind at 1, ret at 1.
  rewrite (bind_ok _ _ _ _ _ Ea).
  apply bind_raise. now apply extract_untitled.
Qed.

End Route.

(** ** An empty history *)

Lemma fetch_no_events (w : World) (n : nat) (repo : string) (since : Z)
      (all : list commit) (s : state) :
  (status_code (commits_page w repo since 1) =? 200)%Z = false
  \/ json (commits_page w repo since 1) = [] ->
  fetch_pages w (S n) repo since 1 all s
  = (Ok all, {| cache := cache s;
                trace := trace s ++ [GetCommits repo since 1] |}).
Proof.
  intros H. simpl. unfold bind, send.
  destruct (status_code (commits_page w repo since 1) =? 200)%Z eqn:E; simpl.
  - destruct H as [H | H]; [ discriminate | ]. now rewrite H.
  - reflexivity.
Qed.

Lemma analysis_no_events (w : World) (repo : string) (days : Z) (s : state) :
  no_events w repo days ->
  analyze_repository_ownership w repo days s
  = (Ok empty_model,
     {| cache := cache s;
        trace := trace s ++ [GetCommits repo (now w - days * 86400) 1] |}).
Proof.
  intros H. unfold analyze_repository_ownership, _get_recent_commits.
  rewrite (bind_ok _ _ _ _ _ (fetch_no_events w 9 repo _ [] s H)).
  reflexivity.
Qed.

Lemma scored_empty_model (ctx : context) (files : list string) :
  scored ctx empty_model files = [].
Proof.
  unfold scored. simpl.
  assert (F : forall l, fold_left (score_file []) l [] = [])
    by (induction l; simpl; auto).
  assert (G : forall l, fold_left (score_area []) l [] = [])
    by (induction l; simpl; auto).
  now rewrite F, G.
Qed.

Lemma route_empty_model (available : string -> bool) (w : World)
      (bug : bug_data) (t d r : string) (s : state) :
  title bug = Some t -> description bug = Some d -> repository bug = Some r ->
  no_events w r 90 ->
  exists dec,
    route_bug_report repaired_globals available w bug s
    = (Ok dec, {| cache := cache s;
                  trace := trace s ++ [GetCommits r (now w - 90 * 86400) 1] |})
    /\ assigned_to dec = None /\ escalation_needed dec = true.
Proof.
  intros Ht Hd Hr Hw.
  destruct (extract_returns bug t d Ht Hd) as [ctx Ec].
  eexists. split.
  - unfold route_bug_report. rewrite Hr.
    change (item "repository" (Some r)) with (ret (A := string) r).
    unfold bind at 1, ret at 1.
    rewrite (bind_ok _ _ _ _ _ (analysis_no_events w r 90 s Hw)).
    rewrite (bind_ok _ _ _ _ _ (Ec _)).
    rewrite (bind_ok _ _ _ _ _ (defaultdict_bound _ _ _ _)).
    rewrite scored_empty_model. reflexivity.
  - split; reflexivity.
Qed.

End RouteFacts.

(* ================================================================= *)
(** * The claims about [route_bug_report] *)

Section RouteClaims.
Import Fx Analyzer Router Spec Samples RouteFacts.

(** C1 does not hold of the code: [_find_potential_assignees] reads the
    name [defaultdict], which [intelligent_router.py] never imports, so
    every report that has its required fields ends in a [NameError],
    after the analysis has run, and no decision is returned. *)
Theorem route_raises_name_error
        (available : string -> bool) (w : World) (bug : bug_data)
        (t d r : string) (s : state) :
  title bug = Some t -> description bug = Some d -> repository bug = Some r ->
  exists s',
    route_bug_report module_globals available w bug s
    = (Raise (NameError "defaultdict"), s').
Proof.
  intros Ht Hd Hr.
  destruct (route_name_error available w bug t d r s Ht Hd Hr)
    as (s' & _ & E & _).
  now exists s'.
Qed.

Lemma route_raises_name_error_witness :
  exists s',
    route_bug_report module_globals _is_developer_available alice_world
                     login_report_with_files initial
    = (Raise (NameError "defaultdict"), s').
Proof.
  apply (route_raises_name_error _is_developer_available alice_world
           login_report_with_files "Crash in src/auth/login.py"
           "login fails" "company/backend-api" initial);
    reflexivity.
Defined.

(** C5, as the code has it: a report without a repository is rejected
    with a [KeyError] before any request is sent; a report with a
    repository and no title is rejected with a [KeyError] too, but only
    when its context is extracted, after the ownership analysis has sent
    its requests, the first page of commits to begin with. *)
Theorem missing_field_rejected
        (globals : list string) (available : string -> bool) (w : World)
        (bug : bug_data) (s : state) :
  (repository bug = None ->
   route_bug_report globals available w bug s
   = (Raise (KeyError "repository"), s))
  /\ (forall r,
        repository bug = Some r -> title bug = None ->
        exists s' more,
          route_bug_report globals available w bug s
          = (Raise (KeyError "title"), s')
          /\ trace s'
             = trace s ++ GetCommits r (now w - 90 * 86400) 1 :: more).
Proof.
  split.
  - apply route_no_repository.
  - intros r. apply route_no_title.
Qed.

Lemma missing_field_rejected_witness :
  exists s' more,
    route_bug_report module_globals _is_developer_available alice_world
                     untitled_report initial
    = (Raise (KeyError "title"), s')
    /\ trace s'
       = trace initial
         ++ GetCommits "company/backend-api" (now alice_world - 90 * 86400) 1
            :: more.
Proof.
  apply (proj2 (missing_field_rejected module_globals
                  _is_developer_available alice_world untitled_report
                  initial) "company/backend-api");
    reflexivity.
Defined.

(** A report with a repository and no title: the analysis has fetched
    the commits, a commit and a file's history before the report is
    rejected. *)
Lemma untitled_report_is_fetched_for :
  route_bug_report module_globals _is_developer_available alice_world
                   untitled_report initial
  = (Raise (KeyError "title"),
     {| cache :=
          [("a1", {| files := Some [{| filename := "src/auth/login.py";
                                       changes := Some 80%Z |}] |})];
        trace :=
          [GetCommits "company/backend-api" (-6776000) 1;
           GetCommits "company/backend-api" (-6776000) 2;
           GetCommit "company/backend-api" "a1";
           GetLastCommit "company/backend-api" "src/auth/login.py"] |}).
Proof. vm_compute. reflexivity. Qed.

(** C9 does not hold of the code.  Without change events the analysis
    does return the empty model, without an error; but routing a report
    against it ends in the [NameError] of C1 instead of an escalation.
    Had the module imported [defaultdict], the decision would be the
    escalation the claim describes. *)
Theorem empty_history_is_not_routed
        (available : string -> bool) (w : World) (bug : bug_data)
        (t d r : string) (s : state) :
  title bug = Some t -> description bug = Some d -> repository bug = Some r ->
  no_events w r 90 ->
  let s' := {| cache := cache s;
               trace := trace s ++ [GetCommits r (now w - 90 * 86400) 1] |} in
  analyze_repository_ownership w r 90 s = (Ok empty_model, s')
  /\ route_bug_report module_globals available w bug s
     = (Raise (NameError "defaultdict"), s')
  /\ exists dec,
      route_bug_report repaired_globals available w bug s = (Ok dec, s')
      /\ assigned_to dec = None /\ escalation_needed dec = true.
Proof.
  intros Ht Hd Hr Hw. cbv zeta.
  pose proof (analysis_no_events w r 90 s Hw) as Ea.
  split; [ exact Ea | ]. split.
  - destruct (extract_returns bug t d Ht Hd) as [ctx Ec].
    unfold route_bug_report. rewrite Hr.
    change (item "repository" (Some r)) with (ret (A := string) r).
    unfold bind at 1, ret at 1.
    rewrite (bind_ok _ _ _ _ _ Ea), (bind_ok _ _ _ _ _ (Ec _)).
    apply bind_raise. apply defaultdict_unbound.
  - now apply (route_empty_model available w bug t d r s).
Qed.

Lemma empty_history_is_not_routed_witness :
  analyze_repository_ownership quiet_world "company/backend-api" 90 initial
  = (Ok empty_model,
     {| cache := [];
        trace := [GetCommits "company/backend-api"
                             (now quiet_world - 90 * 86400) 1] |})
  /\ route_bug_report module_globals _is_developer_available quiet_world
                      login_report initial
     = (Raise (NameError "defaultdict"),
        {| cache := [];
           trace := [GetCommits "company/backend-api"
                                (now quiet_world - 90 * 86400) 1] |}).
Proof.
  destruct (empty_history_is_not_routed _is_developer_available quiet_world
              login_report "Crash in src/auth/login.py" "login fails"
              "company/backend-api" initial eq_refl eq_refl eq_refl
              (or_intror eq_refl))
    as (Ha & Hr & _).
  exact (conj Ha Hr).
Defined.

End RouteClaims.

(* ================================================================= *)
(** * Candidate discovery in the module as it is written *)

Section Discovery.
Import Fx Analyzer Router Spec Samples RouteFacts PyFacts PyFloat FloatFacts.
Local Open Scope Q_scope.








End Discovery.

(* ================================================================= *)
(** * What [re.findall] returns for [file_pattern] *)

Module ReFacts.
Import Fx Router Spec.

Lemma star_inv (p : ascii -> bool) (s : list ascii)
      (k : list ascii -> Re.outcome) (r : list ascii * Re.caps) :
  Re.star p s k = Some r -> exists s', k s' = Some r.
Proof.
  induction s as [| c s IH]; simpl; [ eauto | ].
  destruct (p c); [ | eauto ].
  destruct (Re.star p s k) as [r' |] eqn:E; [ | eauto ].
  intros H. inversion H; subst r'. now apply IH.
Qed.

(** a literal word matches a prefix equal to it, up to case when the
    flag is set *)
Lemma str_chars_inv (ic : bool) (l : list ascii) :
  l <> [] ->
  forall s g k r,
    Re.exec ic (Re.Str_chars l) s g k = Some r ->
    exists m s',
      s = m ++ s'
      /\ map Py.lower_char m = map Py.lower_char l
      /\ k s' g = Some r.
Proof.
  induction l as [| a l IH]; [ congruence | ]. intros _ s g k r.
  assert (One : forall c, Re.accepts ic [Re.Lit a] c = true ->
                          Py.lower_char c = Py.lower_char a).
  { intros c H. unfold Re.accepts in H. simpl in H.
    rewrite orb_false_r in H. destruct ic.
    - apply Ascii.eqb_eq in H. congruence.
    - apply Ascii.eqb_eq in H. congruence. }
  destruct l as [| b l].
  - cbn [Re.Str_chars Re.exec]. destruct s as [| c s]; [ discriminate | ].
    destruct (Re.accepts ic [Re.Lit a] c) eqn:E; [ | discriminate ].
    intros H. exists [c], s. simpl. rewrite (One c E). auto.
  - change (Re.Str_chars (a :: b :: l))
      with (Re.Seq (Re.Chr [Re.Lit a]) (Re.Str_chars (b :: l))).
    cbn [Re.exec]. destruct s as [| c s]; [ discriminate | ].
    destruct (Re.accepts ic [Re.Lit a] c) eqn:E; [ | discriminate ].
    intros H. apply IH in H; [ | discriminate ].
    destruct H as (m & s' & -> & Hm & Hk).
    exists (c :: m), s'. simpl. rewrite (One c E), Hm. auto.
Qed.

Lemma firstn_prefix {A} (m s : list A) :
  firstn (length (m ++ s) - length s) (m ++ s) = m.
Proof.
  rewrite length_app, Nat.add_sub.
  rewrite firstn_app, Nat.sub_diag, firstn_all. simpl. apply app_nil_r.
Qed.

Lemma lower_str (m : list ascii) :
  Py.lower (Py.str m) = Py.str (map Py.lower_char m).
Proof.
  unfold Py.lower. f_equal. f_equal.
  induction m as [| c m IH]; simpl; [ reflexivity | now rewrite IH ].
Qed.

(** a match of [file_pattern] captures an extension in group 1 *)
Lemma file_pattern_group (ic : bool) (s s' : list ascii) (g : Re.caps) :
  Re.match_here ic file_pattern s = Some (s', g) ->
  exists m, Re.groups_of 1 g = [Py.str m]
            /\ In (Py.lower (Py.str m)) extensions.
Proof.
  unfold Re.match_here, file_pattern. cbn [Re.exec].
  destruct s as [| c s]; [ discriminate | ].
  destruct (Re.accepts ic _ c); [ | discriminate ].
  intros H. apply star_inv in H. destruct H as [s1 H].
  destruct s1 as [| c1 s1]; [ discriminate | ].
  destruct (Re.accepts ic [Re.Lit "."] c1); [ | discriminate ].
  assert (Ext : forall ext,
             In ext extensions ->
             Re.exec ic (Re.Str ext) s1 []
                     (fun s2 g' =>
                        Some (s2, (1%nat, firstn (length s1 - length s2) s1)
                                    :: g'))
             = Some (s', g) ->
             exists m, Re.groups_of 1 g = [Py.str m]
                       /\ In (Py.lower (Py.str m)) extensions).
  { intros ext Hext E. unfold Re.Str in E.
    apply str_chars_inv in E.
    - destruct E as (m & s2 & -> & Hm & E).
      rewrite firstn_prefix in E. inversion E; subst. exists m.
      split; [ reflexivity | ]. rewrite lower_str, Hm.
      simpl in Hext.
      repeat (destruct Hext as [<- | Hext]; [ simpl; tauto | ]).
      contradiction.
    - simpl in Hext.
      repeat (destruct Hext as [<- | Hext]; [ discriminate | ]).
      contradiction. }
  repeat match type of H with
         | match ?e with Some _ => _ | None => _ end = Some _ =>
             let E := fresh "E" in
             destruct e eqn:E;
             [ inversion H; subst; eapply Ext; [ | exact E ]; simpl; tauto | ]
         end.
  eapply Ext; [ | exact H ]. simpl; tauto.
Qed.

Lemma scan_matches (ic : bool) (r : Re.regex) (n fuel : nat)
      (s : list ascii) (x : string * list string) :
  In x (Re.scan fuel ic r n s) ->
  exists s0 s' g,
    Re.match_here ic r s0 = Some (s', g) /\ snd x = Re.groups_of n g.
Proof.
  revert s. induction fuel as [| fuel IH]; intros s; simpl; [ intros [] | ].
  assert (Next : In x match s with
                      | [] => []
                      | _ :: t => Re.scan fuel ic r n t
                      end ->
                 exists s0 s' g,
                   Re.match_here ic r s0 = Some (s', g)
                   /\ snd x = Re.groups_of n g).
  { destruct s as [| c t]; [ intros [] | apply IH ]. }
  destruct (Re.match_here ic r s) as [[s' g] |] eqn:E; [ | exact Next ].
  intros [<- | H].
  - exists s, s', g. auto.
  - destruct (length s' <? length s)%nat; [ now apply IH in H | now apply Next ].
Qed.

(** every entry of [re.findall(file_pattern, ...)] is an extension, in
    whatever case the text had it *)
Lemma findall_file_pattern (ic : bool) (text f : string) :
  In f (Re.findall1 ic file_pattern text) -> In (Py.lower f) extensions.
Proof.
  unfold Re.findall1. intros H. apply in_map_iff in H.
  destruct H as (x & <- & H). apply scan_matches in H.
  destruct H as (s0 & s' & g & Hm & ->).
  apply file_pattern_group in Hm. destruct Hm as (m & -> & Hm). exact Hm.
Qed.

Lemma mentioned_files_extensions (bug : bug_data) (s s' : state)
      (ctx : context) (f : string) :
  _extract_bug_context bug s = (Ok ctx, s') ->
  In f (mentioned_files ctx) -> In (Py.lower f) extensions.
Proof.
  unfold _extract_bug_context.
  destruct (title bug) as [t |]; [ | discriminate ].
  destruct (description bug) as [d |]; [ | discriminate ].
  unfold item, bind, ret. intros E. inversion E; subst ctx; clear E.
  cbn [mentioned_files].
  destruct (stack_trace bug) as [st |];
    [ destruct (truthy st) | ];
    rewrite ?in_app_iff; intros H;
    repeat destruct H as [H | H]; eapply findall_file_pattern; exact H.
Qed.

End ReFacts.

(* ================================================================= *)
(** * The files a report mentions *)

Section MentionedFiles.
Import Fx Analyzer Router Spec Samples.

(** C2 does not hold of the code: [file_pattern] has one group, around
    the extension, and [re.findall] then returns what the group
    captured.  A report that names [src/auth/login.py] gets
    [mentioned_files = ['py']]; the path itself is never there, in the
    text or in the stack trace, and so it matches no key of the
    file-ownership map: in a repository where alice owns that file the
    report finds no owner. *)
Theorem mentioned_files_hold_extensions :
  (forall bug s ctx s' f,
      _extract_bug_context bug s = (Ok ctx, s') ->
      In f (mentioned_files ctx) -> In (Py.lower f) extensions)
  /\ (exists ctx,
         _extract_bug_context login_report initial = (Ok ctx, initial)
         /\ mentioned_files ctx = ["py"]
         /\ ~ In "src/auth/login.py" (mentioned_files ctx))
  /\ (exists ctx,
         _extract_bug_context traced_report initial = (Ok ctx, initial)
         /\ mentioned_files ctx = ["py"; "py"])
  /\ (exists data s ctx,
         analyze_repository_ownership alice_world "company/backend-api" 90
                                      initial = (Ok data, s)
         /\ Py.mem (file_ownership data) "src/auth/login.py" = true
         /\ _extract_bug_context login_report s = (Ok ctx, s)
         /\ scored ctx data [] = []).
Proof.
  split; [ | split; [ | split ] ].
  - intros bug s ctx s' f. apply ReFacts.mentioned_files_extensions.
  - eexists. split; [ vm_compute; reflexivity | ].
    split; [ reflexivity | ].
    intros [H | []]. discriminate H.
  - eexists. split; [ vm_compute; reflexivity | reflexivity ].
  - eexists. eexists. eexists.
    split; [ vm_compute; reflexivity | ].
    split; [ reflexivity | ].
    split; [ vm_compute; reflexivity | ].
    vm_compute. reflexivity.
Qed.

Lemma mentioned_files_hold_extensions_witness :
  exists ctx,
    _extract_bug_context login_report initial = (Ok ctx, initial)
    /\ In "py" (mentioned_files ctx)
    /\ In (Py.lower "py") extensions.
Proof.
  eexists.
  assert (E : _extract_bug_context login_report initial
              = (Ok _, initial)) by (vm_compute; reflexivity).
  assert (Hin : In "py" (mentioned_files
                          {| mentioned_files := ["py"];
                             mentioned_functions := [];
                             mentioned_modules := [];
                             error_types := [];
                             affected_areas := ["authentication"];
                             keywords := [] |})) by (left; reflexivity).
  exact (conj E (conj Hin
           (proj1 mentioned_files_hold_extensions login_report initial _
                  initial "py" E Hin))).
Defined.

End MentionedFiles.

(* ================================================================= *)
(** * Fetching: pages of commits, and the cache of commit details *)

Module FetchFacts.
Import Fx Analyzer Spec Samples DictFacts FxFacts.

Lemma page_has_commits_dec (w : World) (repo : string) (since : Z) (p : nat) :
  (negb (status_code (commits_page w repo since p) =? 200)%Z = false
   /\ exists c cs, json (commits_page w repo since p) = c :: cs
                   /\ page_has_commits w repo since p)
  \/ ((negb (status_code (commits_page w repo since p) =? 200)%Z = true
       \/ json (commits_page w repo since p) = [])
      /\ ~ page_has_commits w repo since p).
Proof.
  unfold page_has_commits.
  destruct (Z.eqb_spec (status_code (commits_page w repo since p)) 200)
    as [E | N]; simpl.
  - destruct (json (commits_page w repo since p)) as [| c cs] eqn:J.
    + right. split; [ now right | ]. intros [_ H]. now apply H.
    + left. split; [ reflexivity | ]. exists c, cs. repeat split; auto.
      discriminate.
  - right. split; [ now left | ]. intros [H _]. contradiction.
Qed.

(** the loop, from any page and with any number of pages left *)
Lemma fetch_pages_run (w : World) (repo : string) (since : Z) (n : nat) :
  forall (page : nat) (all : list commit) (s : state),
  exists k,
    (k <= n)%nat
    /\ fetch_pages w n repo since page all s
       = (Ok (all ++ pages_commits w repo since page k),
          {| cache := cache s;
             trace := trace s
                      ++ map (GetCommits repo since)
                             (seq page (Nat.min n (S k))) |})
    /\ (forall p, (page <= p < page + k)%nat ->
                  page_has_commits w repo since p)
    /\ ((k < n)%nat -> ~ page_has_commits w repo since (page + k)).
Proof.
  induction n as [| n IH]; intros page all s.
  - exists 0%nat. simpl. rewrite !app_nil_r.
    split; [ lia | ]. split; [ destruct s; reflexivity | ].
    split; intros; lia.
  - destruct (page_has_commits_dec w repo since page)
      as [(Hs & c & cs & Hj & Hp) | (Hstop & Hnot)].
    + destruct (IH (S page) (all ++ json (commits_page w repo since page))
                   {| cache := cache s;
                      trace := trace s ++ [GetCommits repo since page] |})
        as (k & Hk & E & Hgood & Hend).
      exists (S k). split; [ lia | ]. split; [ | split ].
      * simpl fetch_pages. unfold bind at 1, send at 1. rewrite Hs.
        rewrite Hj in *. rewrite E. simpl cache. simpl trace.
        unfold pages_commits. simpl seq. simpl flat_map.
        rewrite Hj, <- !app_assoc. reflexivity.
      * intros p Hp'. destruct (Nat.eq_dec p page) as [-> | N]; [ exact Hp | ].
        apply Hgood. lia.
      * intros Hlt. replace (page + S k)%nat with (S page + k)%nat by lia.
        apply Hend. lia.
    + exists 0%nat. split; [ lia | ]. split; [ | split ].
      * simpl fetch_pages. unfold bind at 1, send at 1.
        unfold pages_commits. simpl. rewrite app_nil_r, Nat.min_0_r. simpl.
        destruct Hstop as [Hs | Hj].
        -- rewrite Hs. reflexivity.
        -- destruct (negb _); [ reflexivity | ]. rewrite Hj. reflexivity.
      * intros p Hp. lia.
      * intros _. now rewrite Nat.add_0_r.
Qed.

(** X1: a call of [_get_recent_commits] that returns has asked for
    pages 1, 2, ... in order and for nothing else, has stopped at the
    first page that was refused or empty, and has not asked for more
    than ten pages; what it returns are the commits of the pages before
    the stop, in order, and the cache is as it was. *)
Theorem recent_commits_paginate (w : World) (repo : string) (since : Z)
        (s s' : state) (commits : list commit) :
  _get_recent_commits w repo since s = (Ok commits, s') ->
  exists k,
    (k <= 10)%nat
    /\ commits = pages_commits w repo since 1 k
    /\ cache s' = cache s
    /\ trace s'
       = trace s ++ map (GetCommits repo since) (seq 1 (Nat.min 10 (S k)))
    /\ (forall p, (1 <= p <= k)%nat -> page_has_commits w repo since p)
    /\ ((k < 10)%nat -> ~ page_has_commits w repo since (S k)).
Proof.
  intros Hrun.
  destruct (fetch_pages_run w repo since 10 1 [] s) as (k & Hk & E & Hg & He).
  unfold _get_recent_commits in Hrun. rewrite E in Hrun.
  inversion Hrun; subst; clear Hrun.
  exists k. split; [ exact Hk | ]. split; [ reflexivity | ].
  split; [ reflexivity | ]. split; [ reflexivity | ].
  split; [ | exact He ].
  intros p Hp. apply Hg. lia.
Qed.

Lemma recent_commits_paginate_witness :
  exists commits s' k,
    _get_recent_commits alice_world "company/backend-api" 0 initial
    = (Ok commits, s')
    /\ (k <= 10)%nat
    /\ commits = pages_commits alice_world "company/backend-api" 0 1 k
    /\ trace s'
       = map (GetCommits "company/backend-api" 0) (seq 1 (Nat.min 10 (S k))).
Proof.
  eexists. eexists.
  assert (E : _get_recent_commits alice_world "company/backend-api" 0 initial
              = (Ok _, _)) by (vm_compute; reflexivity).
  destruct (recent_commits_paginate _ _ _ _ _ _ E)
    as (k & Hk & Hc & _ & Ht & _).
  exists k. exact (conj E (conj Hk (conj Hc Ht))).
Defined.

(** X2: [_get_commit_details] reads through [self.cache].  A cached
    commit is answered from the cache, without a request.  A commit
    that is not cached costs one request; answered with status 200 it
    is cached under its hash alone, so that asking again, for whatever
    repository, returns the same details and sends nothing; answered
    otherwise, the result is the empty dictionary and nothing is
    cached. *)
Theorem commit_details_read_through (w : World) (repo repo' sha : string)
        (s : state) :
  (forall d, Py.get (cache s) sha = Some d ->
             _get_commit_details w repo sha s = (Ok d, s))
  /\ (Py.get (cache s) sha = None ->
      status_code (commit_of w repo sha) = 200%Z ->
      let data := json (commit_of w repo sha) in
      let s' := {| cache := Py.set (cache s) sha data;
                   trace := trace s ++ [GetCommit repo sha] |} in
      _get_commit_details w repo sha s = (Ok data, s')
      /\ _get_commit_details w repo' sha s' = (Ok data, s'))
  /\ (Py.get (cache s) sha = None ->
      status_code (commit_of w repo sha) <> 200%Z ->
      _get_commit_details w repo sha s
      = (Ok {| files := None |},
         {| cache := cache s; trace := trace s ++ [GetCommit repo sha] |})).
Proof.
  unfold _get_commit_details, bind, get_cache, send, put_cache, ret.
  split; [ | split ].
  - intros d H. now rewrite H.
  - intros H H200. cbv zeta. rewrite H, H200. simpl.
    split; [ reflexivity | ].
    now rewrite get_set, String.eqb_refl.
  - intros H N. rewrite H. apply Z.eqb_neq in N. now rewrite N.
Qed.

Lemma commit_details_read_through_witness :
  _get_commit_details alice_world "company/backend-api" "a1" initial
  = (Ok (json (commit_of alice_world "company/backend-api" "a1")),
     {| cache := Py.set (cache initial) "a1"
                        (json (commit_of alice_world "company/backend-api"
                                         "a1"));
        trace := trace initial ++ [GetCommit "company/backend-api" "a1"] |})
  /\ _get_commit_details quiet_world "company/backend-api" "a1" initial
     = (Ok {| files := None |},
        {| cache := cache initial;
           trace := trace initial ++ [GetCommit "company/backend-api" "a1"] |}).
Proof.
  split.
  - apply (proj1 (proj2 (commit_details_read_through
                           alice_world "company/backend-api" "other/repo"
                           "a1" initial)));
      reflexivity.
  - apply (proj2 (proj2 (commit_details_read_through
                           quiet_world "company/backend-api" "other/repo"
                           "a1" initial)));
      [ reflexivity | discriminate ].
Defined.

End FetchFacts.

(* ================================================================= *)
(** * The owners of a file *)

Module OwnerFacts.
Import Fx Analyzer Spec Samples DictFacts SortFacts FxFacts AnalysisFacts.
Import TieFacts ProcessFacts.

Lemma sorted_app_le {A} (R : A -> A -> Prop) (l1 l2 : list A) :
  StronglySorted R (l1 ++ l2) ->
  forall x y, In x l1 -> In y l2 -> R x y.
Proof.
  induction l1 as [| a l1 IH]; simpl; intros H x y Hx Hy; [ contradiction | ].
  inversion H as [| ? ? Hs Hall]; subst.
  destruct Hx as [<- | Hx].
  - rewrite Forall_forall in Hall. apply Hall, in_or_app. now right.
  - now apply IH.
Qed.

Lemma upd_not_nil {V} (d : Py.dict V) (k : string) (dflt : V) (f : V -> V) :
  Py.upd d k dflt f <> [].
Proof.
  destruct d as [| [k' v] d]; simpl; [ | destruct (String.eqb k k') ];
    discriminate.
Qed.

Lemma accumulate_well_kept (ts : list touched) :
  dict_all well_kept (acc_file_ownership (accumulate ts)).
Proof.
  unfold accumulate. apply fold_left_inv; [ apply dict_all_nil | ].
  intros acc t H. unfold touch. simpl. apply dict_all_upd; [ exact H | | ].
  - intros c [_ Hc]. split; [ apply upd_not_nil | ].
    rewrite keys_upd. now apply set_add_nodup.
  - split; [ discriminate | ]. simpl. repeat constructor. intros [].
Qed.

(** the owners of a record are its three largest contributors *)
Lemma owners_of_record (path : string) (c : Py.dict Z) (lm : Z)
      (d : complexity_data) :
  well_kept c ->
  let r := ownership_record path c lm d in
  file_path r = path
  /\ (length (secondary_owners r) <= 2)%nat
  /\ NoDup (secondary_owners r)
  /\ modification_count r = Py.sum (Py.values c)
  /\ exists p n,
      primary_owner r = Some p
      /\ In (p, n) c
      /\ ~ In p (secondary_owners r)
      /\ (forall q k, In (q, k) c -> (k <= n)%Z)
      /\ (forall q, In q (secondary_owners r) ->
            exists k, In (q, k) c
                      /\ forall q' k',
                          In (q', k') c -> q' <> p ->
                          ~ In q' (secondary_owners r) -> (k' <= k)%Z).
Proof.
  intros [Hne Hnd]. cbv zeta. unfold ownership_record. simpl.
  pose proof (sorted_desc_perm Z.ltb snd c) as Hperm.
  pose proof (sorted_by_changes_sorted c) as Hsorted.
  fold (sorted_by_changes c) in Hperm.
  assert (Hnd' : NoDup (map fst (sorted_by_changes c)))
    by (apply (Permutation_NoDup (l := map fst c));
        [ symmetry; now apply Permutation_map | exact Hnd ]).
  destruct (sorted_by_changes c) as [| [p n] rest] eqn:E.
  { apply Permutation_nil in Hperm. contradiction. }
  unfold Py.slice. simpl skipn. change (3 - 1)%nat with 2%nat.
  simpl in Hnd'. inversion Hnd' as [| ? ? Hp Hrest]; subst.
  inversion Hsorted as [| ? ? Hs Hall]; subst.
  rewrite Forall_forall in Hall.
  assert (Hsub : forall q, In q (map fst (firstn 2 rest)) -> In q (map fst rest)).
  { intros q Hq. apply in_map_iff in Hq. destruct Hq as (x & <- & Hx).
    apply in_map. now apply in_firstn in Hx. }
  split; [ reflexivity | ]. split.
  { rewrite length_map, length_firstn. lia. }
  split.
  { rewrite <- firstn_map.
    rewrite <- (firstn_skipn 2 (map fst rest)) in Hrest.
    now apply NoDup_app_remove_r in Hrest. }
  split; [ reflexivity | ].
  exists p, n. split; [ reflexivity | ]. split.
  { apply (Permutation_in _ Hperm). now left. }
  split.
  { intros H. apply Hp. now apply Hsub. }
  split.
  { intros q k Hq. apply (Permutation_in _ (Permutation_sym Hperm)) in Hq.
    destruct Hq as [Eq | Hq]; [ inversion Eq; lia | ].
    apply (Hall (q, k) Hq). }
  intros q Hq. apply in_map_iff in Hq. destruct Hq as ([q0 k] & <- & Hx).
  exists k. split.
  { apply (Permutation_in _ Hperm). right. now apply in_firstn in Hx. }
  intros q' k' Hq' Hnp Hnsec.
  apply (Permutation_in _ (Permutation_sym Hperm)) in Hq'.
  destruct Hq' as [Eq | Hq']; [ inversion Eq; congruence | ].
  rewrite <- (firstn_skipn 2 rest) in Hq', Hs.
  apply in_app_or in Hq'. destruct Hq' as [Hq' | Hq'].
  - exfalso. apply Hnsec. apply in_map_iff. exists (q', k'). auto.
  - apply (sorted_app_le desc _ _ Hs (q0, k) (q', k') Hx Hq').
Qed.

Lemma analysis_records_in (w : World) (repo : string) (days : Z) (s : state) :
  returns (analyze_repository_ownership w repo days) s
          (fun m _ =>
             forall path r,
               Py.get (file_ownership m) path = Some r ->
               exists c lm d,
                 In (path, c)
                    (acc_file_ownership (accumulate (processed w repo days s)))
                 /\ r = ownership_record path c lm d).
Proof.
  unfold analyze_repository_ownership, processed.
  destruct (returns_run _ _ _
              (recent_commits_returns w repo (now w - days * 86400) s))
    as (commits & s1 & E1 & _).
  rewrite E1. apply returns_bind. unfold returns at 1. rewrite E1.
  destruct (collect_run w repo commits s1) as (s2 & E2).
  apply returns_bind. unfold returns at 1. rewrite E2.
  apply returns_bind.
  eapply returns_weaken;
    [ apply ownership_map_records, accumulate_good | ].
  intros om s3 Hom. apply returns_ret. simpl. exact Hom.
Qed.

(** X3: in the model an analysis returns, every record is stored under
    its own path and has a primary owner, the contributor with the most
    changed lines of the file; its secondary owners are at most two,
    all different, never the primary owner, and no other contributor
    has changed more lines than one of them; its modification count is
    the sum of the contributors' lines. *)
Theorem owners_are_the_top_contributors
        (w : World) (repo : string) (days : Z) (s : state) :
  returns (analyze_repository_ownership w repo days) s
          (fun m _ =>
             forall path r,
               Py.get (file_ownership m) path = Some r ->
               exists c,
                 In (path, c)
                    (acc_file_ownership
                       (accumulate (processed w repo days s)))
                 /\ file_path r = path
                 /\ (length (secondary_owners r) <= 2)%nat
                 /\ NoDup (secondary_owners r)
                 /\ modification_count r = Py.sum (Py.values c)
                 /\ exists p n,
                     primary_owner r = Some p
                     /\ In (p, n) c
                     /\ ~ In p (secondary_owners r)
                     /\ (forall q k, In (q, k) c -> (k <= n)%Z)
                     /\ (forall q, In q (secondary_owners r) ->
                           exists k,
                             In (q, k) c
                             /\ forall q' k',
                                 In (q', k') c -> q' <> p ->
                                 ~ In q' (secondary_owners r) ->
                                 (k' <= k)%Z)).
Proof.
  eapply returns_weaken; [ apply analysis_records_in | ].
  intros m s' Hm path r Hr.
  destruct (Hm path r Hr) as (c & lm & d & Hin & ->).
  exists c. split; [ exact Hin | ].
  apply owners_of_record. exact (accumulate_well_kept _ path c Hin).
Qed.

End OwnerFacts.

(* ================================================================= *)
(** * The three tables of the analysis agree *)

Module TableFacts.
Import Fx Analyzer Spec Samples DictFacts SortFacts FxFacts AnalysisFacts.
Import TieFacts ProcessFacts.

Lemma sum_from (l : list Z) (a : Z) :
  fold_left Z.add l a = (a + Py.sum l)%Z.
Proof.
  unfold Py.sum. revert a. induction l as [| x l IH]; intros a; simpl.
  - lia.
  - rewrite IH, (IH x). lia.
Qed.

Lemma sum_cons (x : Z) (l : list Z) : Py.sum (x :: l) = (x + Py.sum l)%Z.
Proof. unfold Py.sum at 1. simpl. now rewrite sum_from. Qed.

Lemma sum_app (l1 l2 : list Z) : Py.sum (l1 ++ l2) = (Py.sum l1 + Py.sum l2)%Z.
Proof.
  induction l1 as [| x l1 IH]; simpl; [ reflexivity | ].
  rewrite !sum_cons, IH. lia.
Qed.

(** adding [c] to one entry adds [c] to the sum of a measure of the
    entries *)
Lemma sum_upd {V} (mu : V -> Z) (d : Py.dict V) (k : string) (dflt : V)
      (f : V -> V) (c : Z) :
  mu dflt = 0%Z -> (forall v, mu (f v) = (mu v + c)%Z) ->
  Py.sum (map mu (Py.values (Py.upd d k dflt f)))
  = (Py.sum (map mu (Py.values d)) + c)%Z.
Proof.
  intros H0 Hf. unfold Py.values.
  induction d as [| [k' v] d IH]; cbn [Py.upd map snd].
  - rewrite sum_cons, Hf, H0. unfold Py.sum. simpl. lia.
  - destruct (String.eqb k k'); cbn [map snd]; rewrite !sum_cons.
    + rewrite Hf. lia.
    + rewrite IH. lia.
Qed.

Lemma sum_values_upd (d : Py.dict Z) (k : string) (c : Z) :
  Py.sum (Py.values (Py.upd d k 0%Z (fun n => (n + c)%Z)))
  = (Py.sum (Py.values d) + c)%Z.
Proof.
  pose proof (sum_upd (fun n => n) d k 0%Z (fun n => (n + c)%Z) c eq_refl
                      (fun _ => eq_refl)) as H.
  now rewrite !map_id in H.
Qed.

Lemma sum_set_fresh {V} (mu : V -> Z) (d : Py.dict V) (k : string) (v : V) :
  Py.mem d k = false -> mu v = 0%Z ->
  Py.sum (map mu (Py.values (Py.set d k v))) = Py.sum (map mu (Py.values d)).
Proof.
  intros Hm Hv. rewrite set_fresh.
  - unfold Py.values. rewrite !map_app, sum_app. simpl.
    rewrite sum_cons, Hv. change (Py.sum []) with 0%Z. lia.
  - unfold Py.mem in Hm. destruct (Py.get d k) eqn:G; [ discriminate | ].
    now apply get_none_keys.
Qed.

Lemma get_mem_none {V} (d : Py.dict V) (k : string) :
  Py.mem d k = false -> Py.get d k = None.
Proof. unfold Py.mem. now destruct (Py.get d k). Qed.

(** the entry of [file_complexity] after one more touched file *)
Lemma complexity_touch (author path : string) (acc : accumulators)
      (fi : file_info) :
  Py.get (acc_file_complexity (touch author acc fi)) path
  = if String.eqb (filename fi) path
    then
      let old := match Py.get (acc_file_complexity acc) path with
                 | Some d => d
                 | None => {| total_changes := 0; unique_contributors := [] |}
                 end in
      Some {| total_changes := (total_changes old + changes_of fi)%Z;
              unique_contributors :=
                Py.set_add author (unique_contributors old) |}
    else Py.get (acc_file_complexity acc) path.
Proof.
  unfold touch. simpl. fold (changes_of fi).
  destruct (String.eqb_spec (filename fi) path) as [<- | N].
  - rewrite get_upd_same. cbv zeta.
    destruct (Py.mem (acc_file_complexity acc) (filename fi)) eqn:M.
    + reflexivity.
    + rewrite get_set, String.eqb_refl, (get_mem_none _ _ M). reflexivity.
  - rewrite get_upd_other by exact N.
    destruct (Py.mem (acc_file_complexity acc) (filename fi)); [ reflexivity | ].
    rewrite get_set.
    destruct (String.eqb_spec path (filename fi)); [ congruence | reflexivity ].
Qed.

Lemma touch_agrees (author : string) (acc : accumulators) (fi : file_info) :
  tables_agree acc -> tables_agree (touch author acc fi).
Proof.
  intros (Hk & Hfile & Hsum). split; [ | split ].
  - apply (touch_good anything I (fun _ _ _ _ => I) author acc fi);
      [ | exact I ].
    repeat split; auto; intros k v _; exact I.
  - intros path. rewrite complexity_touch, contributors_touch.
    fold (changes_of fi).
    specialize (Hfile path).
    destruct (String.eqb (filename fi) path); [ | exact Hfile ].
    cbv zeta. simpl.
    rewrite keys_upd, sum_values_upd.
    destruct (Py.get (acc_file_complexity acc) path) as [d |].
    + destruct Hfile as [Hu Ht]. rewrite Hu, Ht. auto.
    + rewrite Hfile. simpl. auto.
  - unfold touch. simpl. fold (changes_of fi).
    rewrite sum_values_upd.
    rewrite (sum_upd total_changes _ (filename fi) _ _ (changes_of fi))
      by (intros; reflexivity).
    rewrite Hsum.
    destruct (Py.mem (acc_file_complexity acc) (filename fi)) eqn:M;
      [ reflexivity | ].
    now rewrite (sum_set_fresh total_changes _ _ _ M).
Qed.

Lemma activity_touch (author : string) (acc : accumulators) (fi : file_info) :
  Py.sum (Py.values (acc_developer_activity (touch author acc fi)))
  = (Py.sum (Py.values (acc_developer_activity acc)) + changes_of fi)%Z.
Proof.
  unfold touch. simpl. fold (changes_of fi). apply sum_values_upd.
Qed.

Lemma activity_total (ts : list touched) (acc : accumulators) :
  Py.sum (Py.values
            (acc_developer_activity
               (fold_left (fun acc (t : touched) => touch (fst t) acc (snd t))
                          ts acc)))
  = (Py.sum (Py.values (acc_developer_activity acc)) + lines_changed ts)%Z.
Proof.
  revert acc. induction ts as [| [a fi] ts IH]; intros acc; simpl.
  - unfold lines_changed, Py.sum. simpl. lia.
  - rewrite IH, activity_touch. unfold lines_changed. simpl map.
    rewrite sum_cons. simpl. lia.
Qed.

Lemma accumulate_agrees (ts : list touched) : tables_agree (accumulate ts).
Proof.
  unfold accumulate. apply fold_left_inv.
  - split; [ reflexivity | ]. split; [ intros path | ]; reflexivity.
  - intros acc t. apply touch_agrees.
Qed.

Lemma accumulate_activity (ts : list touched) :
  Py.sum (Py.values (acc_developer_activity (accumulate ts)))
  = lines_changed ts.
Proof. unfold accumulate. rewrite activity_total. reflexivity. Qed.

(** X4: after any sequence of change events the three tables describe
    the same history: [file_complexity] has the files of
    [file_ownership], in the same order; for each file its set of
    unique contributors is the file's contributors and its total is the
    sum of their lines; and the lines of all developers, of all files
    and of all change events are the same number. *)
Theorem accumulated_tables_agree (ts : list touched) :
  let acc := accumulate ts in
  Py.keys (acc_file_ownership acc) = Py.keys (acc_file_complexity acc)
  /\ (forall path d,
         Py.get (acc_file_complexity acc) path = Some d ->
         unique_contributors d
         = Py.keys (contributors_of (acc_file_ownership acc) path)
         /\ total_changes d
            = Py.sum (Py.values
                        (contributors_of (acc_file_ownership acc) path)))
  /\ (forall path,
         Py.get (acc_file_complexity acc) path = None ->
         contributors_of (acc_file_ownership acc) path = [])
  /\ Py.sum (Py.values (acc_developer_activity acc))
     = Py.sum (map total_changes (Py.values (acc_file_complexity acc)))
  /\ Py.sum (Py.values (acc_developer_activity acc)) = lines_changed ts.
Proof.
  cbv zeta. destruct (accumulate_agrees ts) as (Hk & Hfile & Hsum).
  split; [ exact Hk | ]. split.
  { intros path d Hd. specialize (Hfile path). now rewrite Hd in Hfile. }
  split.
  { intros path Hd. specialize (Hfile path). now rewrite Hd in Hfile. }
  split; [ exact Hsum | apply accumulate_activity ].
Qed.

Lemma accumulated_tables_agree_witness :
  Py.get (acc_file_complexity (accumulate bob_then_alice)) "src/app.py"
  = Some {| total_changes := 20; unique_contributors := ["bob"; "alice"] |}
  /\ ["bob"; "alice"]
     = Py.keys (contributors_of
                  (acc_file_ownership (accumulate bob_then_alice))
                  "src/app.py").
Proof.
  assert (E : Py.get (acc_file_complexity (accumulate bob_then_alice))
                     "src/app.py"
              = Some {| total_changes := 20;
                        unique_contributors := ["bob"; "alice"] |})
    by reflexivity.
  split; [ exact E | ].
  apply (proj1 (proj2 (accumulated_tables_agree bob_then_alice))
               "src/app.py" _ E).
Defined.

(** the records of the map, with the entry of [file_complexity] each
    was built from *)
Lemma ownership_map_data (w : World) (repo : string) (acc : accumulators)
      (s : state) :
  Py.keys (acc_file_ownership acc) = Py.keys (acc_file_complexity acc) ->
  returns (build_ownership_map w repo acc) s
          (fun om _ =>
             forall path r,
               Py.get om path = Some r ->
               exists c lm d,
                 In (path, c) (acc_file_ownership acc)
                 /\ Py.get (acc_file_complexity acc) path = Some d
                 /\ r = ownership_record path c lm d).
Proof.
  intros Hk. unfold build_ownership_map.
  eapply returns_weaken.
  { apply (returns_foldM
             (fun (om : Py.dict FileOwnership) (_ : state) =>
                forall path r,
                  Py.get om path = Some r ->
                  exists c lm d,
                    In (path, c) (acc_file_ownership acc)
                    /\ Py.get (acc_file_complexity acc) path = Some d
                    /\ r = ownership_record path c lm d)).
    - intros path r H. discriminate H.
    - intros om [p c] s0 Hin Hom. apply returns_bind.
      eapply returns_weaken; [ apply last_modified_returns | ].
      intros lm s1 _. simpl.
      assert (Hp : In p (Py.keys (acc_file_complexity acc))).
      { rewrite <- Hk. change p with (fst (p, c)). now apply in_map. }
      destruct (get_in_keys _ _ Hp) as [d Hd]. rewrite Hd. simpl.
      apply returns_ret. intros path r. rewrite get_set.
      destruct (String.eqb_spec path p) as [-> | N].
      + intros E. inversion E. eauto 6.
      + apply Hom. }
  auto.
Qed.

(** X5: the complexity score of every record an analysis returns is
    the score of the record's own modification count and of the number
    of the file's contributors; and the developer activity it returns
    adds up to the lines of all the change events it processed. *)
Theorem records_score_their_own_history
        (w : World) (repo : string) (days : Z) (s : state) :
  returns (analyze_repository_ownership w repo days) s
          (fun m _ =>
             (forall path r,
                 Py.get (file_ownership m) path = Some r ->
                 exists c,
                   In (path, c)
                      (acc_file_ownership
                         (accumulate (processed w repo days s)))
                   /\ complexity_score r
                      = _calculate_complexity_score
                          {| total_changes := modification_count r;
                             unique_contributors := Py.keys c |})
             /\ Py.sum (Py.values (developer_activity m))
                = lines_changed (processed w repo days s)).
Proof.
  unfold analyze_repository_ownership, processed.
  destruct (returns_run _ _ _
              (recent_commits_returns w repo (now w - days * 86400) s))
    as (commits & s1 & E1 & _).
  rewrite E1. apply returns_bind. unfold returns at 1. rewrite E1.
  destruct (collect_run w repo commits s1) as (s2 & E2).
  apply returns_bind. unfold returns at 1. rewrite E2.
  set (ts := touches_of w repo (cache s1) commits).
  destruct (accumulate_agrees ts) as (Hk & Hfile & _).
  pose proof (accumulate_activity ts) as Hact.
  apply returns_bind.
  eapply returns_weaken; [ apply ownership_map_data, Hk | ].
  intros om s3 Hom. apply returns_ret. simpl. split; [ | exact Hact ].
  intros path r Hr. destruct (Hom path r Hr) as (c & lm & d & Hin & Hd & ->).
  exists c. split; [ exact Hin | ].
  unfold ownership_record. simpl.
  specialize (Hfile path). rewrite Hd in Hfile.
  unfold contributors_of in Hfile.
  rewrite (get_in_nodup _ _ _ (accumulate_nodup ts) Hin) in Hfile.
  destruct Hfile as [Hu Ht].
  unfold _calculate_complexity_score. simpl. now rewrite Hu, Ht.
Qed.

End TableFacts.

(* ================================================================= *)
(** * The expert table *)

Module ExpertFacts.
Import Fx Analyzer Spec Samples DictFacts SortFacts FxFacts AnalysisFacts.
Import TieFacts ProcessFacts OwnerFacts TableFacts.

Lemma amount_credit (table : Py.dict (Py.dict Z)) (dom' who' : string)
      (n : Z) (dom who : string) :
  amount (credit table dom' who' n) dom who
  = (amount table dom who
     + if String.eqb dom' dom && String.eqb who' who then n else 0)%Z.
Proof.
  unfold amount, credit.
  destruct (String.eqb_spec dom' dom) as [-> | Nd]; simpl.
  - rewrite get_upd_same.
    destruct (String.eqb_spec who' who) as [-> | Nw].
    + rewrite get_upd_same.
      destruct (Py.get table dom) as [c |]; simpl;
        [ destruct (Py.get c who) | ]; lia.
    + rewrite get_upd_other by exact Nw.
      destruct (Py.get table dom) as [c |]; simpl; lia.
  - rewrite get_upd_other by exact Nd. lia.
Qed.

Lemma amount_file (path : string) (dom who : string) (c : Py.dict Z)
      (table : Py.dict (Py.dict Z)) :
  amount
    (fold_left
       (fun experts (e : string * Z) =>
          let (contributor, changes) := e in
          credit (credit experts (directory_of path) contributor changes)
                 ("*." ++ ext_of path) contributor changes)
       c table) dom who
  = (amount table dom who
     + keyed path dom
       * Py.sum (map (fun e : string * Z =>
                        if String.eqb (fst e) who then snd e else 0%Z) c))%Z.
Proof.
  revert table.
  induction c as [| [w n] c IH]; intros table; cbn [fold_left map fst snd].
  - change (Py.sum []) with 0%Z. lia.
  - rewrite IH, !amount_credit, sum_cons. unfold keyed.
    destruct (String.eqb (directory_of path) dom),
             (String.eqb ("*." ++ ext_of path) dom),
             (String.eqb w who); cbn [andb]; lia.
Qed.

Lemma amount_experts (fo : Py.dict (Py.dict Z)) (dom who : string) :
  amount (experts fo) dom who = lines_under fo dom who.
Proof.
  unfold experts, lines_under.
  enough (G : forall table,
             amount
               (fold_left
                  (fun experts (entry : string * Py.dict Z) =>
                     let (file_path, ownership) := entry in
                     fold_left
                       (fun experts (c : string * Z) =>
                          let (contributor, changes) := c in
                          credit
                            (credit experts (directory_of file_path)
                                    contributor changes)
                            ("*." ++ ext_of file_path) contributor changes)
                       ownership experts) fo table) dom who
             = (amount table dom who
                + Py.sum
                    (map (fun entry : string * Py.dict Z =>
                            (keyed (fst entry) dom
                             * Py.sum
                                 (map (fun c : string * Z =>
                                         if String.eqb (fst c) who
                                         then snd c else 0%Z)
                                      (snd entry)))%Z) fo))%Z).
  { rewrite G. unfold amount. simpl. lia. }
  induction fo as [| [path c] fo IH]; intros table; simpl.
  - change (Py.sum []) with 0%Z. lia.
  - rewrite IH, amount_file, sum_cons. simpl. lia.
Qed.

Lemma credit_inner_nodup (table : Py.dict (Py.dict Z)) (dom who : string)
      (n : Z) :
  dict_all (fun c => NoDup (Py.keys c)) table ->
  dict_all (fun c => NoDup (Py.keys c)) (credit table dom who n).
Proof.
  intros H. unfold credit. apply dict_all_upd; [ exact H | | ].
  - intros c Hc. rewrite keys_upd. now apply set_add_nodup.
  - simpl. repeat constructor. intros [].
Qed.

Lemma experts_inner_nodup (fo : Py.dict (Py.dict Z)) :
  dict_all (fun c => NoDup (Py.keys c)) (experts fo).
Proof.
  unfold experts. apply fold_left_inv; [ apply dict_all_nil | ].
  intros table [path c] H. apply fold_left_inv; [ exact H | ].
  intros table' [who n] H'. now apply credit_inner_nodup, credit_inner_nodup.
Qed.

(** X6: every list of [_identify_experts] has at most three experts,
    all different, in descending order of their lines; an expert's
    number is the lines that developer changed in the files the domain
    key stands for (its directory, or its extension); and nobody left
    out of the list has more lines under the key than somebody in it. *)
Theorem experts_are_the_top_three
        (activity : Py.dict Z) (fo : Py.dict (Py.dict Z)) (domain : string)
        (l : list (string * Z)) :
  Py.get (_identify_experts activity fo) domain = Some l ->
  (length l <= 3)%nat
  /\ StronglySorted desc l
  /\ NoDup (map fst l)
  /\ (forall who n, In (who, n) l -> n = lines_under fo domain who)
  /\ (forall who n who',
         In (who, n) l -> ~ In who' (map fst l) ->
         (lines_under fo domain who' <= n)%Z
         \/ lines_under fo domain who' = 0%Z).
Proof.
  intros H. unfold _identify_experts in H.
  rewrite (ranked_experts_get _ _ (experts_nodup fo)) in H.
  destruct (Py.get (experts fo) domain) as [c |] eqn:G; [ | discriminate ].
  assert (El : l = firstn 3 (sorted_by_changes c))
    by (cbn [option_map] in H; congruence).
  subst l. clear H.
  pose proof (dict_all_get _ _ _ _ (experts_inner_nodup fo) G) as Hnd.
  pose proof (sorted_desc_perm Z.ltb snd c) as Hperm.
  fold (sorted_by_changes c) in Hperm.
  pose proof (sorted_by_changes_sorted c) as Hsorted.
  assert (Hnd' : NoDup (map fst (sorted_by_changes c)))
    by (apply (Permutation_NoDup (l := map fst c));
        [ symmetry; now apply Permutation_map | exact Hnd ]).
  assert (Hval : forall who n, In (who, n) c -> n = lines_under fo domain who).
  { intros who n Hin. rewrite <- amount_experts. unfold amount. rewrite G.
    now rewrite (get_in_nodup _ _ _ Hnd Hin). }
  rewrite <- (firstn_skipn 3 (sorted_by_changes c)) in Hsorted, Hnd'.
  split; [ rewrite length_firstn; lia | ].
  split.
  { clear - Hsorted. revert Hsorted.
    generalize (firstn 3 (sorted_by_changes c)) as l1.
    intros l1. induction l1 as [| x l1 IH]; simpl; intros H; [ constructor | ].
    inversion H as [| ? ? Hs Hall]; subst. constructor; [ now apply IH | ].
    rewrite Forall_forall in *. intros y Hy. apply Hall, in_or_app. now left. }
  split.
  { rewrite map_app in Hnd'. now apply NoDup_app_remove_r in Hnd'. }
  split.
  { intros who n Hin. apply Hval.
    apply (Permutation_in _ Hperm). now apply in_firstn in Hin. }
  intros who n who' Hin Hout.
  destruct (Py.get c who') as [n' |] eqn:G'.
  - left. apply get_in in G'.
    rewrite <- (Hval who' n' G').
    apply (Permutation_in _ (Permutation_sym Hperm)) in G'.
    rewrite <- (firstn_skipn 3 (sorted_by_changes c)) in G'.
    apply in_app_or in G'. destruct G' as [G' | G'].
    + exfalso. apply Hout. change who' with (fst (who', n')).
      now apply in_map.
    + apply (sorted_app_le desc _ _ Hsorted (who, n) (who', n') Hin G').
  - right. rewrite <- amount_experts. unfold amount. now rewrite G, G'.
Qed.

Lemma experts_are_the_top_three_witness :
  Py.get (_identify_experts [("alice", 50%Z)]
                            (acc_file_ownership (accumulate bob_then_alice)))
         "src"
  = Some [("bob", 10%Z); ("alice", 10%Z)]
  /\ (length [("bob", 10%Z); ("alice", 10%Z)] <= 3)%nat.
Proof.
  assert (E : Py.get (_identify_experts
                        [("alice", 50%Z)]
                        (acc_file_ownership (accumulate bob_then_alice)))
                     "src"
              = Some [("bob", 10%Z); ("alice", 10%Z)])
    by (vm_compute; reflexivity).
  exact (conj E (proj1 (experts_are_the_top_three _ _ _ _ E))).
Defined.

End ExpertFacts.

(* ================================================================= *)
(** * The domain keys of a path *)

Module PathFacts.
Import Analyzer Spec.

Lemma chars_app (a b : string) :
  Py.chars (a ++ b) = Py.chars a ++ Py.chars b.
Proof. induction a as [| c a IH]; simpl; [ reflexivity | now rewrite IH ]. Qed.

Lemma str_chars (s : string) : Py.str (Py.chars s) = s.
Proof. induction s as [| c s IH]; simpl; [ reflexivity | now rewrite IH ]. Qed.

Lemma split_chars_not_nil (sep : ascii) (l : list ascii) :
  Py.split_chars sep l <> [].
Proof.
  destruct l as [| c l]; simpl; [ discriminate | ].
  destruct (Ascii.eqb c sep); [ discriminate | ].
  destruct (Py.split_chars sep l); discriminate.
Qed.

Lemma split_chars_app (sep : ascii) (a b : list ascii) :
  Py.split_chars sep (a ++ sep :: b)
  = Py.split_chars sep a ++ Py.split_chars sep b.
Proof.
  induction a as [| c a IH]; simpl.
  - now rewrite Ascii.eqb_refl.
  - destruct (Ascii.eqb c sep); [ now rewrite IH | ].
    rewrite IH.
    destruct (Py.split_chars sep a) as [| w ws] eqn:E; [ | reflexivity ].
    now apply split_chars_not_nil in E.
Qed.

Lemma split_chars_none (sep : ascii) (l : list ascii) :
  ~ In sep l -> Py.split_chars sep l = [l].
Proof.
  induction l as [| c l IH]; simpl; intros H; [ reflexivity | ].
  destruct (Ascii.eqb_spec c sep) as [-> | N].
  - exfalso. apply H. now left.
  - rewrite IH; [ reflexivity | ]. intros Hin. apply H. now right.
Qed.

(** joining what was split gives the string back *)
Lemma join_split (sep : ascii) (l : list ascii) :
  Py.join (String sep "") (map Py.str (Py.split_chars sep l)) = Py.str l.
Proof.
  unfold Py.join. induction l as [| c l IH]; simpl; [ reflexivity | ].
  destruct (Ascii.eqb_spec c sep) as [-> | N].
  - destruct (Py.split_chars sep l) as [| w ws] eqn:E.
    + now apply split_chars_not_nil in E.
    + simpl in *. now rewrite IH.
  - destruct (Py.split_chars sep l) as [| w ws] eqn:E.
    + now apply split_chars_not_nil in E.
    + simpl in *. destruct ws as [| y ws]; simpl in *; now rewrite <- IH.
Qed.

Lemma contains_char (c : ascii) (s : string) :
  Py.contains (String c "") s = true <-> In c (Py.chars s).
Proof.
  unfold Py.contains. simpl. induction (Py.chars s) as [| a l IH]; simpl.
  - split; [ discriminate | intros [] ].
  - rewrite orb_true_iff, andb_true_r, IH, Ascii.eqb_eq.
    destruct l; intuition.
Qed.

(** X7: the two domain keys of a path.  The directory key of
    [dir/name] is [dir] when [name] has no slash, and the empty string
    for a path without a slash; the extension of [stem.ext] is [ext]
    when [ext] has no dot (it may have a slash: what follows the last
    dot is taken, also when the dot is in a directory's name), and
    [unknown] for a path without a dot. *)
Theorem domain_keys_of_a_path :
  (forall dir name,
      ~ In "/"%char (Py.chars name) ->
      directory_of (dir ++ "/" ++ name) = dir)
  /\ (forall name,
         ~ In "/"%char (Py.chars name) -> directory_of name = "")
  /\ (forall stem ext,
         ~ In "."%char (Py.chars ext) ->
         ext_of (stem ++ "." ++ ext) = ext)
  /\ (forall path,
         ~ In "."%char (Py.chars path) -> ext_of path = "unknown").
Proof.
  split; [ | split; [ | split ] ].
  - intros dir name H. unfold directory_of, Py.split.
    rewrite chars_app. simpl Py.chars.
    rewrite split_chars_app, (split_chars_none _ _ H), map_app. simpl.
    rewrite removelast_last, join_split. apply str_chars.
  - intros name H. unfold directory_of, Py.split.
    rewrite (split_chars_none _ _ H). reflexivity.
  - intros stem ext H. unfold ext_of.
    assert (C : Py.contains "." (stem ++ "." ++ ext) = true).
    { apply contains_char. rewrite chars_app. apply in_or_app. right.
      now left. }
    rewrite C. unfold Py.split. rewrite chars_app. simpl Py.chars.
    rewrite split_chars_app, (split_chars_none _ _ H), map_app. simpl.
    rewrite last_last. apply str_chars.
  - intros path H. unfold ext_of.
    destruct (Py.contains "." path) eqn:C; [ | reflexivity ].
    apply contains_char in C. contradiction.
Qed.

Lemma domain_keys_of_a_path_witness :
  directory_of ("src/auth" ++ "/" ++ "login.py") = "src/auth"
  /\ directory_of "README" = ""
  /\ ext_of ("src/auth/login" ++ "." ++ "py") = "py"
  /\ ext_of "Makefile" = "unknown".
Proof.
  destruct domain_keys_of_a_path as (Hd & Hn & He & Hu).
  split; [ apply Hd | split; [ apply Hn | split; [ apply He | apply Hu ] ] ];
    vm_compute; intuition discriminate.
Defined.

End PathFacts.

(* ================================================================= *)
(** * Ranking the candidates *)

Module RankFacts.
Import Fx Analyzer Router Spec Samples DictFacts SortFacts PyFacts.
Import PyFloat FloatFacts.
Local Open Scope Q_scope.

Lemma Qltb_spec (x y : Q) : Qltb x y = true <-> x < y.
Proof.
  unfold Qltb. rewrite negb_true_iff.
  destruct (Qle_bool y x) eqn:E.
  - apply Qle_bool_iff in E. split; [ discriminate | lra ].
  - split; [ intros _ | reflexivity ].
    apply Qnot_le_lt. intros H. apply Qle_bool_iff in H. congruence.
Qed.

Lemma insert_by_score_sorted (x : assignee) (l : list assignee) :
  StronglySorted by_final_score l ->
  StronglySorted by_final_score (Py.insert_desc Qltb final_score x l).
Proof.
  induction 1 as [| y l Hs IH Hall]; simpl.
  - repeat constructor.
  - destruct (Qltb (final_score x) (final_score y)) eqn:L.
    + apply Qltb_spec in L. constructor; [ exact IH | ].
      rewrite Forall_forall in *. intros z Hz.
      apply (Permutation_in _ (insert_desc_perm Qltb final_score x l)) in Hz.
      destruct Hz as [<- | Hz]; [ unfold by_final_score; lra | now apply Hall ].
    + assert (Hyx : final_score y <= final_score x).
      { apply Qnot_lt_le. intros H. apply Qltb_spec in H. congruence. }
      constructor; [ now constructor | ].
      constructor; [ exact Hyx | ].
      rewrite Forall_forall in *. intros z Hz.
      specialize (Hall z Hz). unfold by_final_score in *. lra.
Qed.

Lemma rank_scaled (cands : list assignee_info) (bug : bug_data) :
  _rank_assignees cands bug
  = Py.sorted_desc Qltb final_score (map (scaled (multiplier_of bug)) cands).
Proof. reflexivity. Qed.

Lemma multiplier_positive (bug : bug_data) : 0 < multiplier_of bug.
Proof.
  unfold multiplier_of, priority_multipliers.
  generalize (match priority bug with
              | Some p => p
              | None => "medium"%string
              end) as p.
  intros p. simpl.
  repeat (destruct (String.eqb p _); [ vm_compute; reflexivity | ]).
  reflexivity.
Qed.

Lemma mul_mono (t t' m : Q) : 0 <= m -> t <= t' -> mul t m <= mul t' m.
Proof.
  intros Hm H. apply nearest_mono. now apply Qmult_le_compat_r.
Qed.

Lemma sorted_later {A : Type} (R : A -> A -> Prop) (front rest : list A)
      (a b : A) :
  StronglySorted R (front ++ a :: rest) -> In b rest -> R a b.
Proof.
  induction front as [| x front IH]; simpl; intros Hs Hb.
  - apply StronglySorted_inv in Hs. destruct Hs as [_ Hall].
    rewrite Forall_forall in Hall. now apply Hall.
  - apply StronglySorted_inv in Hs. destruct Hs as [Hs _]. now apply IH.
Qed.

(** X8: the ranking holds the candidates, each with [total_score *
    multiplier], a float product, as final score; it is in descending
    order of the final score, and candidates with the same final score
    keep the order of discovery.  Somebody with a smaller total is
    ranked before somebody with a larger one only when the product
    rounds both to the same final score; so the order can depend on
    the priority, as it does for two totals one unit in the last place
    apart, which medium priority keeps apart and low priority ties. *)
Theorem ranking_follows_final_score
        (cands : list assignee_info) (bug : bug_data) :
  let ranked := _rank_assignees cands bug in
  Permutation ranked (map (scaled (multiplier_of bug)) cands)
  /\ 0 < multiplier_of bug
  /\ StronglySorted by_final_score ranked
  /\ (forall q,
         scoring q ranked
         = scoring q (map (scaled (multiplier_of bug)) cands))
  /\ (forall front a rest b,
         ranked = front ++ a :: rest -> In b rest ->
         total_score b <= total_score a \/ final_score a == final_score b)
  /\ map developer
         (_rank_assignees near_tie (with_priority (Some "medium"%string)))
     = ["y"; "x"]%string
  /\ map developer
         (_rank_assignees near_tie (with_priority (Some "low"%string)))
     = ["x"; "y"]%string.
Proof.
  cbv zeta. rewrite rank_scaled.
  set (m := multiplier_of bug).
  set (l := map (scaled m) cands).
  pose proof (multiplier_positive bug) as Hm. fold m in Hm.
  assert (Hs : StronglySorted by_final_score
                              (Py.sorted_desc Qltb final_score l)).
  { clearbody l. induction l as [| x l IH]; simpl; [ constructor | ].
    now apply insert_by_score_sorted. }
  split; [ apply sorted_desc_perm | ].
  split; [ exact Hm | ].
  split; [ exact Hs | ].
  split; [ | split; [ | split; reflexivity ] ].
  - intros q. unfold scoring. apply sorted_desc_stable.
    intros x y Hx Hy. apply Qeq_bool_iff in Hx, Hy.
    destruct (Qltb (final_score x) (final_score y)) eqn:L; [ | reflexivity ].
    apply Qltb_spec in L. lra.
  - intros front a rest b E Hb.
    assert (Hab : by_final_score a b)
      by (apply (sorted_later _ front rest); [ now rewrite <- E | exact Hb ]).
    assert (Hin : forall z, In z (Py.sorted_desc Qltb final_score l) ->
                            final_score z = mul (total_score z) m).
    { intros z Hz.
      apply (Permutation_in _ (sorted_desc_perm Qltb final_score l)) in Hz.
      unfold l in Hz. apply in_map_iff in Hz.
      destruct Hz as (c & <- & _). reflexivity. }
    assert (Ha : In a (Py.sorted_desc Qltb final_score l))
      by (rewrite E; apply in_or_app; right; now left).
    assert (Hb' : In b (Py.sorted_desc Qltb final_score l))
      by (rewrite E; apply in_or_app; right; now right).
    destruct (Qlt_le_dec (total_score a) (total_score b)) as [Lt | Ge];
      [ right | now left ].
    unfold by_final_score in Hab.
    rewrite (Hin a Ha), (Hin b Hb') in *.
    assert (M : mul (total_score a) m <= mul (total_score b) m)
      by (apply mul_mono; lra).
    lra.
Qed.

End RankFacts.

(* ================================================================= *)
(** * The context of a report *)

Module ContextFacts.
Import Fx Analyzer Router Spec Samples DictFacts.

Lemma areas_filter (text_lower : string) (l : Py.dict (list string))
      (acc : list string) :
  fold_left
    (fun areas (entry : string * list string) =>
       let (area, keywords) := entry in
       if existsb (fun keyword => Py.contains keyword text_lower) keywords
       then areas ++ [area] else areas)
    l acc
  = acc ++ map fst (filter (area_hit text_lower) l).
Proof.
  revert acc. induction l as [| [area kws] l IH]; intros acc; simpl.
  - now rewrite app_nil_r.
  - rewrite IH. unfold area_hit at 2. simpl.
    destruct (existsb _ kws); simpl; [ now rewrite <- app_assoc | reflexivity ].
Qed.

(** the context of a report: no effect, and the areas it finds *)
Lemma extract_inv (bug : bug_data) (s s' : state) (ctx : context) :
  _extract_bug_context bug s = (Ok ctx, s') ->
  s' = s
  /\ exists t d,
      title bug = Some t /\ description bug = Some d
      /\ affected_areas ctx
         = map fst (filter (area_hit (Py.lower (text_of t d))) area_keywords)
      /\ error_types ctx = Re.findall1 false error_pattern (text_of t d)
      /\ mentioned_modules ctx = [] /\ keywords ctx = [].
Proof.
  unfold _extract_bug_context.
  destruct (title bug) as [t |]; [ | discriminate ].
  destruct (description bug) as [d |]; [ | discriminate ].
  unfold item, bind, ret. intros E. inversion E; subst; clear E.
  split; [ reflexivity | ]. exists t, d.
  cbn [affected_areas error_types mentioned_modules keywords].
  repeat split; try reflexivity.
  exact (areas_filter (Py.lower (text_of t d)) area_keywords []).
Qed.

(** a dictionary from which entries are dropped keeps its keys apart *)
Lemma keys_filter_nodup {V} (keep : string * V -> bool) (d : Py.dict V) :
  NoDup (Py.keys d) -> NoDup (Py.keys (filter keep d)).
Proof.
  unfold Py.keys. induction d as [| [k v] d IH]; intros Hd.
  - constructor.
  - apply NoDup_cons_iff in Hd. destruct Hd as [Hk Hd]. cbn [filter].
    destruct (keep (k, v)); [ | exact (IH Hd) ].
    cbn [map fst]. apply NoDup_cons; [ | exact (IH Hd) ].
    intros Hin. apply Hk. apply in_map_iff in Hin.
    destruct Hin as ([k' v'] & Ek & Hin'). apply filter_In in Hin'.
    apply in_map_iff. exists (k', v'). tauto.
Qed.

Lemma extracted_areas_nodup (bug : bug_data) (s s' : state) (ctx : context) :
  _extract_bug_context bug s = (Ok ctx, s') ->
  NoDup (affected_areas ctx) /\ (length (affected_areas ctx) <= 7)%nat.
Proof.
  intros E. destruct (extract_inv bug s s' ctx E) as (_ & t & d & _ & _ & -> & _).
  split.
  - apply (keys_filter_nodup (area_hit (Py.lower (text_of t d)))).
    unfold area_keywords. simpl.
    repeat (constructor; [ simpl; intuition discriminate | ]). constructor.
  - rewrite length_map.
    etransitivity; [ apply filter_length_le | ]. simpl. lia.
Qed.

(** X9: extracting the context of a report has no effect on the
    state.  An area is among the affected areas exactly when one of its
    keywords occurs in the lowered title and description (the stack
    trace is not searched); no area is listed twice, so there are at
    most seven; and [mentioned_modules] and [keywords] are always
    empty. *)
Theorem areas_of_a_report (bug : bug_data) (s s' : state) (ctx : context) :
  _extract_bug_context bug s = (Ok ctx, s') ->
  s' = s
  /\ (exists t d,
         title bug = Some t /\ description bug = Some d
         /\ forall area,
             In area (affected_areas ctx)
             <-> exists keywords keyword,
                 In (area, keywords) area_keywords
                 /\ In keyword keywords
                 /\ Py.contains keyword (Py.lower (text_of t d)) = true)
  /\ NoDup (affected_areas ctx)
  /\ (length (affected_areas ctx) <= 7)%nat
  /\ mentioned_modules ctx = []
  /\ keywords ctx = [].
Proof.
  intros E.
  destruct (extract_inv bug s s' ctx E)
    as (Hs & t & d & Ht & Hd & Ha & _ & Hm & Hk).
  destruct (extracted_areas_nodup bug s s' ctx E) as [Hnd Hlen].
  split; [ exact Hs | ]. split; [ | auto ].
  exists t, d. split; [ exact Ht | ]. split; [ exact Hd | ].
  intros area. rewrite Ha, in_map_iff. split.
  - intros ([a kws] & <- & Hin). apply filter_In in Hin.
    destruct Hin as [Hin Hhit]. unfold area_hit in Hhit. simpl in Hhit.
    apply existsb_exists in Hhit. destruct Hhit as (kw & Hkw & Hc).
    exists kws, kw. auto.
  - intros (kws & kw & Hin & Hkw & Hc). exists (area, kws).
    split; [ reflexivity | ]. apply filter_In. split; [ exact Hin | ].
    unfold area_hit. simpl. apply existsb_exists. eauto.
Qed.

Lemma areas_of_a_report_witness :
  exists ctx,
    _extract_bug_context login_report initial = (Ok ctx, initial)
    /\ NoDup (affected_areas ctx)
    /\ affected_areas ctx = ["authentication"].
Proof.
  eexists.
  assert (E : _extract_bug_context login_report initial = (Ok _, initial))
    by (vm_compute; reflexivity).
  split; [ exact E | ].
  split; [ | reflexivity ].
  apply (areas_of_a_report login_report initial initial _ E).
Defined.

Lemma area_label_inj (a b : string) :
  ("area:" ++ a)%string = ("area:" ++ b)%string -> a = b.
Proof. simpl. intros E. now inversion E. Qed.

(** [bug:error] is a label exactly when an error type was found *)
Lemma error_label (ctx : context) :
  In "bug:error" (_suggest_labels ctx) <-> error_types ctx <> [].
Proof.
  unfold _suggest_labels.
  assert (Hnot : ~ In "bug:error"
                    (map (fun area => ("area:" ++ area)%string)
                         (affected_areas ctx))).
  { intros Hin. apply in_map_iff in Hin.
    destruct Hin as (b & Eb & _). discriminate Eb. }
  destruct (error_types ctx) as [| e es]; cbn [nonempty].
  - split; [ intros H; contradiction | intros H; now elim H ].
  - split; [ discriminate | ]. intros _. apply in_or_app. right. now left.
Qed.

(** the labels of an area are as different as the areas *)
Lemma area_labels_nodup (areas : list string) :
  NoDup areas ->
  NoDup (map (fun area => ("area:" ++ area)%string) areas).
Proof.
  induction 1 as [| a l Ha Hl IH]; simpl; constructor; [ | exact IH ].
  intros Hin. apply in_map_iff in Hin. destruct Hin as (b & Eb & Hb).
  apply area_label_inj in Eb. congruence.
Qed.

Lemma labels_distinct (bug : bug_data) (s s' : state) (ctx : context) :
  _extract_bug_context bug s = (Ok ctx, s') -> NoDup (_suggest_labels ctx).
Proof.
  intros E. destruct (extracted_areas_nodup bug s s' ctx E) as [Hnd _].
  unfold _suggest_labels.
  destruct (nonempty (error_types ctx)); [ | now apply area_labels_nodup ].
  apply NoDup_app; [ now apply area_labels_nodup | | ].
  - repeat constructor. intros [].
  - intros x Hx [<- | []]. apply in_map_iff in Hx.
    destruct Hx as (b & Eb & _). discriminate Eb.
Qed.

(** a label is [bug:error] or names an area *)
Lemma label_kinds (ctx : context) (l : string) :
  In l (_suggest_labels ctx) ->
  l = "bug:error" \/ exists area, l = ("area:" ++ area)%string.
Proof.
  unfold _suggest_labels. intros H.
  assert (A : In l (map (fun area => ("area:" ++ area)%string)
                        (affected_areas ctx)) ->
              exists area, l = ("area:" ++ area)%string).
  { intros Hin. apply in_map_iff in Hin. destruct Hin as (x & <- & _). eauto. }
  destruct (nonempty (error_types ctx)); [ | right; auto ].
  apply in_app_or in H. destruct H as [H | [<- | []]]; auto.
Qed.

(** X10: the labels suggested for the context of a report are all
    different and at most eight: one [area:<name>] for each affected
    area, in their order, and [bug:error] exactly when an error type
    was found. *)
Theorem labels_of_a_report (bug : bug_data) (s s' : state) (ctx : context) :
  _extract_bug_context bug s = (Ok ctx, s') ->
  NoDup (_suggest_labels ctx)
  /\ (length (_suggest_labels ctx) <= 8)%nat
  /\ (In "bug:error" (_suggest_labels ctx) <-> error_types ctx <> [])
  /\ (forall area, In ("area:" ++ area)%string (_suggest_labels ctx)
                   <-> In area (affected_areas ctx)).
Proof.
  intros E. destruct (extracted_areas_nodup bug s s' ctx E) as [_ Hlen].
  split; [ exact (labels_distinct bug s s' ctx E) | ].
  split.
  { unfold _suggest_labels.
    destruct (nonempty (error_types ctx));
      rewrite ?length_app, length_map; simpl; lia. }
  split; [ apply error_label | ].
  intros area. split.
  - intros H. unfold _suggest_labels in H.
    assert (A : In ("area:" ++ area)%string
                   (map (fun area => ("area:" ++ area)%string)
                        (affected_areas ctx))).
    { destruct (nonempty (error_types ctx)); [ | exact H ].
      apply in_app_or in H. destruct H as [H | [H | []]];
        [ exact H | discriminate H ]. }
    apply in_map_iff in A. destruct A as (b & Eb & Hb).
    apply area_label_inj in Eb. congruence.
  - intros H. unfold _suggest_labels.
    assert (A : In ("area:" ++ area)%string
                   (map (fun area => ("area:" ++ area)%string)
                        (affected_areas ctx)))
      by (apply in_map_iff; eauto).
    destruct (nonempty (error_types ctx)); [ | exact A ].
    apply in_or_app. now left.
Qed.

Lemma labels_of_a_report_witness :
  exists ctx,
    _extract_bug_context login_report initial = (Ok ctx, initial)
    /\ NoDup (_suggest_labels ctx).
Proof.
  eexists.
  assert (E : _extract_bug_context login_report initial = (Ok _, initial))
    by (vm_compute; reflexivity).
  exact (conj E (proj1 (labels_of_a_report login_report initial initial _ E))).
Defined.

End ContextFacts.

(* ================================================================= *)
(** * The reason of a routing decision *)

Module DecisionFacts.
Import Fx Analyzer Router Spec Samples PyFacts RankFacts.
Local Open Scope Q_scope.

Lemma append_end (a : string) : (a ++ "")%string = a.
Proof. induction a as [| c a IH]; simpl; [ reflexivity | now rewrite IH ]. Qed.

Lemma append_append (a b c : string) :
  ((a ++ b) ++ c)%string = (a ++ b ++ c)%string.
Proof. induction a as [| x a IH]; simpl; [ reflexivity | now rewrite IH ]. Qed.

Lemma not_above_five (q : Q) : Qltb 5 q = false <-> q <= 5.
Proof.
  split.
  - intros H. apply Qnot_lt_le. intros L. apply Qltb_spec in L. congruence.
  - intros H. destruct (Qltb 5 q) eqn:L; [ | reflexivity ].
    apply Qltb_spec in L. lra.
Qed.

(** X11: what [_generate_routing_reason] says.  Without an assignee it
    is the escalation message, and never for an assignee.  For an
    assignee it is the generic reason exactly when there is no file, no
    area and an ownership score of 5 at most; with a file it starts
    with the number of files owned, and without a file but with an
    area it starts with the areas.  The context plays no part. *)
Theorem reason_tells_escalation (x : assignee) (ctx ctx' : context) :
  let reason := _generate_routing_reason (Some x) ctx in
  _generate_routing_reason None ctx = escalation_message
  /\ reason <> escalation_message
  /\ (reason = fallback_reason
      <-> files_owned x = [] /\ areas_of_expertise x = []
          /\ ownership_score x <= 5)
  /\ (files_owned x <> [] ->
      exists rest,
        reason = ("Primary owner of "
                    ++ Py.str_of_nat (length (files_owned x))
                    ++ " affected files" ++ rest)%string)
  /\ (files_owned x = [] -> areas_of_expertise x <> [] ->
      exists rest,
        reason = ("Subject matter expert in: "
                    ++ Py.join ", " (areas_of_expertise x) ++ rest)%string)
  /\ reason = _generate_routing_reason (Some x) ctx'.
Proof.
  cbv zeta. unfold _generate_routing_reason, escalation_message,
              fallback_reason.
  pose proof (not_above_five (ownership_score x)) as H5.
  set (n := Py.str_of_nat (length (files_owned x))).
  set (j := Py.join ", " (areas_of_expertise x)).
  destruct (files_owned x) as [| f fl], (areas_of_expertise x) as [| r rl],
           (Qltb 5 (ownership_score x)) eqn:L;
    cbn [nonempty app Py.join String.concat];
    (split; [ reflexivity | ]);
    (split; [ discriminate | ]);
    (split; [ | split; [ | split; [ | reflexivity ] ] ]);
    try (intros H; now elim H);
    try (intros _ H; now elim H).
  - split; [ discriminate | ].
    intros (_ & _ & H). apply H5 in H. discriminate.
  - split; [ intros _ | reflexivity ].
    repeat split. now apply H5.
  - split; [ discriminate | intros (_ & H & _); discriminate ].
  - intros _ _. eexists. rewrite append_append. reflexivity.
  - split; [ discriminate | intros (_ & H & _); discriminate ].
  - intros _ _. exists ""%string. now rewrite append_end.
  - split; [ discriminate | intros (H & _); discriminate ].
  - intros _. eexists. rewrite !append_append. reflexivity.
  - split; [ discriminate | intros (H & _); discriminate ].
  - intros _. exists ""%string. now rewrite append_end.
  - split; [ discriminate | intros (H & _); discriminate ].
  - intros _. eexists. rewrite !append_append. reflexivity.
  - split; [ discriminate | intros (H & _); discriminate ].
  - intros _. eexists. rewrite !append_append. reflexivity.
Qed.

Lemma reason_tells_escalation_witness :
  files_owned carol <> []
  /\ exists rest,
      _generate_routing_reason (Some carol) no_context
      = ("Primary owner of " ++ Py.str_of_nat (length (files_owned carol))
           ++ " affected files" ++ rest)%string.
Proof.
  assert (H : files_owned carol <> []) by discriminate.
  split; [ exact H | ].
  exact (proj1 (proj2 (proj2 (proj2 (reason_tells_escalation
                                       carol no_context no_context)))) H).
Defined.

End DecisionFacts.

(* ================================================================= *)
(** * The error types of a report *)

Module ErrorFacts.
Import Fx Router Spec Samples ReFacts ContextFacts.

(** what is left after a match is a suffix of the text *)
Lemma star_prefix (p : ascii -> bool) (s : list ascii)
      (k : list ascii -> Re.outcome) (r : list ascii * Re.caps) :
  Re.star p s k = Some r ->
  exists pre s', s = pre ++ s' /\ Forall (fun c => p c = true) pre
                 /\ k s' = Some r.
Proof.
  induction s as [| c s IH]; simpl.
  - intros H. exists [], []. auto.
  - destruct (p c) eqn:P; [ | intros H; exists [], (c :: s); auto ].
    destruct (Re.star p s k) as [r' |] eqn:E.
    + intros H. inversion H; subst r'.
      destruct (IH eq_refl) as (pre & s' & -> & Hpre & Hk).
      exists (c :: pre), s'. auto.
    + intros H. exists [], (c :: s). auto.
Qed.

Lemma exec_suffix (ic : bool) (r : Re.regex) :
  forall s g k res,
    Re.exec ic r s g k = Some res ->
    exists pre s1 g1, s = pre ++ s1 /\ k s1 g1 = Some res.
Proof.
  induction r as [c | c | c | r1 IH1 r2 IH2 | r1 IH1 r2 IH2 | n r1 IH1];
    intros s g k res; cbn [Re.exec].
  - destruct s as [| a s]; [ discriminate | ].
    destruct (Re.accepts ic c a); [ | discriminate ].
    intros H. exists [a], s, g. auto.
  - intros H. apply star_prefix in H. destruct H as (pre & s' & -> & _ & H).
    exists pre, s', g. auto.
  - destruct s as [| a s]; [ discriminate | ].
    destruct (Re.accepts ic c a); [ | discriminate ].
    intros H. apply star_prefix in H. destruct H as (pre & s' & -> & _ & H).
    exists (a :: pre), s', g. auto.
  - intros H. apply IH1 in H. destruct H as (pre1 & s1 & g1 & -> & H).
    apply IH2 in H. destruct H as (pre2 & s2 & g2 & -> & H).
    exists (pre1 ++ pre2), s2, g2. now rewrite <- app_assoc.
  - destruct (Re.exec ic r1 s g k) as [x |] eqn:E.
    + intros H. inversion H; subst x. now apply IH1 in E.
    + apply IH2.
  - intros H. apply IH1 in H. destruct H as (pre & s1 & g1 & -> & H). eauto.
Qed.

Lemma match_suffix (ic : bool) (r : Re.regex) (s s' : list ascii)
      (g : Re.caps) :
  Re.match_here ic r s = Some (s', g) -> exists pre, s = pre ++ s'.
Proof.
  unfold Re.match_here. intros H. apply exec_suffix in H.
  destruct H as (pre & s1 & g1 & -> & H). inversion H; subst. eauto.
Qed.

(** every match of a scan starts somewhere in the text *)
Lemma scan_positions (ic : bool) (r : Re.regex) (n fuel : nat)
      (s : list ascii) (x : string * list string) :
  In x (Re.scan fuel ic r n s) ->
  exists pre s0 s' g,
    s = pre ++ s0 /\ Re.match_here ic r s0 = Some (s', g)
    /\ snd x = Re.groups_of n g.
Proof.
  revert s. induction fuel as [| fuel IH]; intros s; simpl; [ intros [] | ].
  assert (Next : In x match s with
                      | [] => []
                      | _ :: t => Re.scan fuel ic r n t
                      end ->
                 exists pre s0 s' g,
                   s = pre ++ s0 /\ Re.match_here ic r s0 = Some (s', g)
                   /\ snd x = Re.groups_of n g).
  { destruct s as [| c t]; [ intros [] | ]. intros H. apply IH in H.
    destruct H as (pre & s0 & s' & g & -> & H). exists (c :: pre), s0, s', g.
    auto. }
  destruct (Re.match_here ic r s) as [[s' g] |] eqn:E; [ | exact Next ].
  intros [<- | H].
  - exists [], s, s', g. auto.
  - destruct (length s' <? length s)%nat; [ | now apply Next ].
    apply IH in H. destruct H as (pre & s0 & s1 & g1 & -> & H).
    apply match_suffix in E. destruct E as [pre' ->].
    exists (pre' ++ pre), s0, s1, g1. now rewrite <- app_assoc.
Qed.

(** a match anywhere makes the scan find something *)
Lemma scan_finds (ic : bool) (r : Re.regex) (n : nat) :
  forall fuel s pre s0,
    (length s < fuel)%nat -> s = pre ++ s0 ->
    Re.match_here ic r s0 <> None ->
    Re.scan fuel ic r n s <> [].
Proof.
  induction fuel as [| fuel IH]; intros s pre s0 Hlen Hs Hm; [ lia | ].
  simpl. destruct (Re.match_here ic r s) as [[s' g] |] eqn:E; [ discriminate | ].
  destruct pre as [| c pre]; simpl in Hs; subst s.
  - congruence.
  - apply (IH _ pre s0); [ simpl in Hlen; lia | reflexivity | exact Hm ].
Qed.

(** a literal word matches exactly itself when case counts *)
Lemma str_chars_exact (l : list ascii) :
  l <> [] ->
  forall s g k r,
    Re.exec false (Re.Str_chars l) s g k = Some r ->
    exists s', s = l ++ s' /\ k s' g = Some r.
Proof.
  induction l as [| a l IH]; [ congruence | ]. intros _ s g k r.
  assert (One : forall c, Re.accepts false [Re.Lit a] c = true -> c = a).
  { intros c H. unfold Re.accepts in H. simpl in H.
    rewrite orb_false_r in H. apply Ascii.eqb_eq in H. congruence. }
  destruct l as [| b l].
  - cbn [Re.Str_chars Re.exec]. destruct s as [| c s]; [ discriminate | ].
    destruct (Re.accepts false [Re.Lit a] c) eqn:E; [ | discriminate ].
    intros H. exists s. rewrite (One c E). auto.
  - change (Re.Str_chars (a :: b :: l))
      with (Re.Seq (Re.Chr [Re.Lit a]) (Re.Str_chars (b :: l))).
    cbn [Re.exec]. destruct s as [| c s]; [ discriminate | ].
    destruct (Re.accepts false [Re.Lit a] c) eqn:E; [ | discriminate ].
    intros H. apply IH in H; [ | discriminate ].
    destruct H as (s' & -> & Hk). exists s'. rewrite (One c E). auto.
Qed.

Lemma str_chars_matches (l : list ascii) :
  l <> [] ->
  forall s' g k,
    Re.exec false (Re.Str_chars l) (l ++ s') g k = k s' g.
Proof.
  induction l as [| a l IH]; [ congruence | ]. intros _ s' g k.
  assert (One : Re.accepts false [Re.Lit a] a = true).
  { unfold Re.accepts. simpl. now rewrite Ascii.eqb_refl. }
  destruct l as [| b l].
  - cbn [Re.Str_chars Re.exec app]. now rewrite One.
  - change (Re.Str_chars (a :: b :: l))
      with (Re.Seq (Re.Chr [Re.Lit a]) (Re.Str_chars (b :: l))).
    cbn [Re.exec]. change ((a :: b :: l) ++ s') with (a :: (b :: l) ++ s').
    cbn iota. rewrite One. apply IH. discriminate.
Qed.

Lemma star_finds (p : ascii -> bool) (s : list ascii)
      (k : list ascii -> Re.outcome) :
  k s <> None -> Re.star p s k <> None.
Proof.
  destruct s as [| c s]; simpl; [ auto | ].
  destruct (p c); [ | auto ].
  destruct (Re.star p s k); [ discriminate | auto ].
Qed.

Lemma contains_split (sub s : list ascii) :
  Py.contains_chars sub s = true <-> exists pre post, s = pre ++ sub ++ post.
Proof.
  assert (P : forall p t, Py.is_prefix p t = true <-> exists post, t = p ++ post).
  { induction p as [| a p IH]; intros t; simpl.
    - split; eauto.
    - destruct t as [| b t].
      + split; [ discriminate | intros [post H]; discriminate H ].
      + rewrite andb_true_iff, Ascii.eqb_eq, IH. split.
        * intros [-> [post ->]]. eauto.
        * intros [post H]. inversion H; subst. eauto. }
  induction s as [| c s IH].
  - simpl. rewrite orb_false_r, P. split.
    + intros [post H]. exists [], post. exact H.
    + intros (pre & post & H). destruct pre; simpl in H.
      * eauto.
      * discriminate H.
  - cbn [Py.contains_chars]. rewrite orb_true_iff, P, IH. split.
    + intros [[post H] | (pre & post & H)].
      * exists [], post. exact H.
      * exists (c :: pre), post. simpl. now rewrite H.
    + intros (pre & post & H). destruct pre as [| a pre]; simpl in H.
      * left. eauto.
      * right. inversion H; subst. eauto.
Qed.

(** a match of [error_pattern] is a run of word characters and then
    one of the two words *)
Lemma error_pattern_match (s s' : list ascii) (g : Re.caps) :
  Re.match_here false error_pattern s = Some (s', g) ->
  exists pre word,
    (word = Py.chars "Error" \/ word = Py.chars "Exception")
    /\ Forall (fun c => Re.is_word c = true) pre
    /\ s = pre ++ word ++ s'
    /\ Re.groups_of 1 g = [Py.str (pre ++ word)].
Proof.
  unfold Re.match_here, error_pattern. cbn [Re.exec].
  assert (Alt : forall word,
             word <> [] ->
             Re.star (Re.accepts false [Re.Word]) s
                     (fun s1 =>
                        Re.exec false (Re.Str_chars word) s1 []
                                (fun s2 g' =>
                                   Some (s2, (1%nat,
                                              firstn (length s - length s2) s)
                                             :: g')))
             = Some (s', g) ->
             exists pre,
               Forall (fun c => Re.is_word c = true) pre
               /\ s = pre ++ word ++ s'
               /\ Re.groups_of 1 g = [Py.str (pre ++ word)]).
  { intros word Hw H. apply star_prefix in H.
    destruct H as (pre & s1 & -> & Hpre & H).
    apply str_chars_exact in H; [ | exact Hw ].
    destruct H as (s2 & -> & H). inversion H; subst. exists pre.
    split.
    - apply Forall_impl with (2 := Hpre). intros c Hc.
      unfold Re.accepts in Hc. simpl in Hc. now rewrite orb_false_r in Hc.
    - split; [ reflexivity | ].
      rewrite app_assoc, firstn_prefix. reflexivity. }
  unfold Re.Str.
  match goal with
  | |- match ?e with Some _ => _ | None => _ end = _ -> _ =>
      destruct e as [x |] eqn:E
  end.
  - intros H. inversion H; subst x.
    apply Alt in E; [ | discriminate ]. destruct E as (pre & H1 & H2 & H3).
    exists pre, (Py.chars "Error"). auto.
  - intros H. apply Alt in H; [ | discriminate ].
    destruct H as (pre & H1 & H2 & H3).
    exists pre, (Py.chars "Exception"). auto.
Qed.

Lemma error_pattern_finds (word post : list ascii) :
  word = Py.chars "Error" \/ word = Py.chars "Exception" ->
  Re.match_here false error_pattern (word ++ post) <> None.
Proof.
  intros Hw. unfold Re.match_here, error_pattern. cbn [Re.exec]. unfold Re.Str.
  match goal with
  | |- match ?e with Some _ => _ | None => _ end <> _ =>
      destruct e as [x |] eqn:E
  end; [ discriminate | ].
  destruct Hw as [-> | ->].
  - exfalso. revert E. apply star_finds.
    rewrite str_chars_matches; discriminate.
  - apply star_finds. rewrite str_chars_matches; discriminate.
Qed.

Lemma chars_str (l : list ascii) : Py.chars (Py.str l) = l.
Proof. induction l as [| c l IH]; simpl; [ reflexivity | now rewrite IH ]. Qed.

Lemma str_app (a b : list ascii) :
  Py.str (a ++ b) = (Py.str a ++ Py.str b)%string.
Proof. induction a as [| c a IH]; simpl; [ reflexivity | now rewrite IH ]. Qed.

(** X13: an error type is found in a report exactly when its title and
    description contain [Error] or [Exception], in that case; each
    error type is such a word with the word characters before it; and
    so [bug:error] is suggested exactly for such reports. *)
Theorem error_types_of_a_report
        (bug : bug_data) (s s' : state) (ctx : context) :
  _extract_bug_context bug s = (Ok ctx, s') ->
  exists t d,
    title bug = Some t /\ description bug = Some d
    /\ (error_types ctx <> []
        <-> Py.contains "Error" (text_of t d) = true
            \/ Py.contains "Exception" (text_of t d) = true)
    /\ (In "bug:error" (_suggest_labels ctx)
        <-> Py.contains "Error" (text_of t d) = true
            \/ Py.contains "Exception" (text_of t d) = true)
    /\ (forall e, In e (error_types ctx) ->
          exists pre,
            Forall (fun c => Re.is_word c = true) (Py.chars pre)
            /\ (e = (pre ++ "Error")%string
                \/ e = (pre ++ "Exception")%string)).
Proof.
  intros E.
  destruct (extract_inv bug s s' ctx E) as (_ & t & d & Ht & Hd & _ & He & _).
  exists t, d. split; [ exact Ht | ]. split; [ exact Hd | ].
  assert (Each : forall e, In e (error_types ctx) ->
            exists pre word pre0 post,
              (word = Py.chars "Error" \/ word = Py.chars "Exception")
              /\ Forall (fun c => Re.is_word c = true) pre
              /\ e = Py.str (pre ++ word)
              /\ Py.chars (text_of t d) = pre0 ++ (pre ++ word ++ post)).
  { intros e Hin. rewrite He in Hin. unfold Re.findall1 in Hin.
    apply in_map_iff in Hin. destruct Hin as (x & <- & Hin).
    apply scan_positions in Hin.
    destruct Hin as (pre0 & s0 & s1 & g & Hs & Hm & ->).
    apply error_pattern_match in Hm.
    destruct Hm as (pre & word & Hw & Hpre & -> & ->).
    exists pre, word, pre0, s1. auto. }
  assert (Iff : error_types ctx <> []
                <-> Py.contains "Error" (text_of t d) = true
                    \/ Py.contains "Exception" (text_of t d) = true).
  { unfold Py.contains. rewrite !contains_split. split.
    - intros Hne. destruct (error_types ctx) as [| e es] eqn:Ee;
        [ now elim Hne | ].
      destruct (Each e (or_introl eq_refl))
        as (pre & word & pre0 & post & Hw & _ & _ & Htext).
      destruct Hw as [-> | ->]; [ left | right ];
        exists (pre0 ++ pre), post; rewrite Htext, <- app_assoc; reflexivity.
    - intros Hc.
      assert (Hm : exists pre0 s0,
                 Py.chars (text_of t d) = pre0 ++ s0
                 /\ Re.match_here false error_pattern s0 <> None).
      { destruct Hc as [(pre & post & H) | (pre & post & H)];
          exists pre; eexists; (split; [ exact H | ]);
          apply error_pattern_finds; auto. }
      destruct Hm as (pre0 & s0 & Hs & Hm).
      rewrite He. unfold Re.findall1. intros Hnil.
      apply map_eq_nil in Hnil. revert Hnil.
      apply (scan_finds false error_pattern 1 _ _ pre0 s0); auto. }
  split; [ exact Iff | ]. split.
  - rewrite <- Iff. apply error_label.
  - intros e Hin.
    destruct (Each e Hin) as (pre & word & _ & _ & Hw & Hpre & -> & _).
    exists (Py.str pre). rewrite chars_str. split; [ exact Hpre | ].
    rewrite str_app. destruct Hw as [-> | ->]; auto.
Qed.

Lemma error_types_of_a_report_witness :
  exists ctx,
    _extract_bug_context traced_report initial = (Ok ctx, initial)
    /\ error_types ctx = [].
Proof.
  eexists.
  assert (E : _extract_bug_context traced_report initial = (Ok _, initial))
    by (vm_compute; reflexivity).
  split; [ exact E | ].
  destruct (error_types_of_a_report traced_report initial initial _ E)
    as (t & d & Ht & Hd & _).
  reflexivity.
Defined.

End ErrorFacts.

(* ================================================================= *)
(** * Names and labels on the issue *)

Module GithubFacts.
Import Fx Router Github Spec Samples PathFacts ErrorFacts.

Lemma first_occurrence (sep : ascii) (l : list ascii) :
  In sep l -> exists a b, l = a ++ sep :: b /\ ~ In sep a.
Proof.
  induction l as [| c l IH]; [ intros [] | ].
  destruct (Ascii.eqb_spec c sep) as [-> | N].
  - intros _. exists [], l. auto.
  - intros [E | H]; [ congruence | ].
    destruct (IH H) as (a & b & -> & Ha). exists (c :: a), b.
    split; [ reflexivity | ]. intros [E | Hin]; [ congruence | auto ].
Qed.

(** the part before the first [@], or everything *)
Lemma local_part (email : string) :
  exists local,
    hd "" (Py.split "@" email) = Py.str local
    /\ ~ In "@"%char local
    /\ (Py.chars email = local
        \/ exists domain, Py.chars email = local ++ "@"%char :: domain).
Proof.
  unfold Py.split.
  destruct (in_dec ascii_dec "@"%char (Py.chars email)) as [Hin | Hout].
  - destruct (first_occurrence _ _ Hin) as (a & b & E & Ha).
    exists a. rewrite E, split_chars_app, (split_chars_none _ _ Ha).
    simpl. eauto.
  - exists (Py.chars email). rewrite (split_chars_none _ _ Hout). simpl. auto.
Qed.

Lemma replace_chars (old new : ascii) (s : string) :
  Py.chars (replace old new s)
  = map (fun c => if Ascii.eqb c old then new else c) (Py.chars s).
Proof. unfold replace. apply chars_str. Qed.

Lemma replace_absent (old new : ascii) (s : string) :
  ~ In old (Py.chars s) -> replace old new s = s.
Proof.
  intros H. unfold replace. rewrite <- (str_chars s) at 2. f_equal.
  induction (Py.chars s) as [| c l IH]; simpl; [ reflexivity | ].
  destruct (Ascii.eqb_spec c old) as [-> | N].
  - exfalso. apply H. now left.
  - rewrite IH; [ reflexivity | ]. intros Hin. apply H. now right.
Qed.

Lemma dashes_no_at (l : list ascii) :
  ~ In "@"%char l ->
  ~ In "@"%char (map (fun c => if Ascii.eqb c "." then "-"%char else c) l).
Proof.
  intros Hl Hin. apply in_map_iff in Hin. destruct Hin as (c & E & Hc).
  destruct (Ascii.eqb c "."); [ discriminate E | ]. congruence.
Qed.

Lemma dashes_no_dot (l : list ascii) :
  ~ In "."%char (map (fun c => if Ascii.eqb c "." then "-"%char else c) l).
Proof.
  intros Hin. apply in_map_iff in Hin. destruct Hin as (c & E & Hc).
  destruct (Ascii.eqb_spec c "."); [ discriminate E | congruence ].
Qed.

(** a user name has no [@] and no dot *)
Lemma username_clean (email : string) :
  ~ In "@"%char (Py.chars (_get_github_username email))
  /\ ~ In "."%char (Py.chars (_get_github_username email)).
Proof.
  destruct (local_part email) as (local & Hhd & Hlocal & _).
  unfold _get_github_username. rewrite Hhd, replace_chars, chars_str.
  split; [ now apply dashes_no_at | apply dashes_no_dot ].
Qed.

(** X14: the GitHub user name made of an e-mail address is what comes
    before its first [@] with every dot turned into a dash: it has no
    [@] and no dot, making a user name of it again changes nothing,
    and addresses that differ only after the [@] get the same name. *)
Theorem github_username_of_an_email (email : string) :
  let name := _get_github_username email in
  ~ In "@"%char (Py.chars name)
  /\ ~ In "."%char (Py.chars name)
  /\ _get_github_username name = name
  /\ (forall local domain,
         ~ In "@"%char (Py.chars local) ->
         _get_github_username (local ++ "@" ++ domain)
         = replace "." "-" local).
Proof.
  cbv zeta. destruct (username_clean email) as [Hat Hdot].
  split; [ exact Hat | ]. split; [ exact Hdot | ]. split.
  - unfold _get_github_username at 1. unfold Py.split.
    rewrite (split_chars_none _ _ Hat). simpl. rewrite str_chars.
    now apply replace_absent.
  - intros l domain Hl. unfold _get_github_username, Py.split.
    rewrite chars_app. simpl Py.chars.
    rewrite split_chars_app, (split_chars_none _ _ Hl). simpl.
    now rewrite str_chars.
Qed.

Lemma github_username_of_an_email_witness :
  _get_github_username ("ada.lovelace" ++ "@" ++ "example.org")
  = replace "." "-" "ada.lovelace"
  /\ _get_github_username "ada.lovelace@example.org" = "ada-lovelace".
Proof.
  split; [ | reflexivity ].
  apply (github_username_of_an_email "ada.lovelace@example.org").
  vm_compute. intuition discriminate.
Defined.

(** X15: the issue made of a routing decision has one assignee, a
    user name without [@] or dot, or none, and none exactly when
    nobody is assigned; its labels are the suggested ones and then
    [auto-routed], and they are all different when the suggested ones
    are those of the context of a report. *)
Theorem issue_of_a_decision (dec : routing_decision) :
  (issue_assignees dec = [] <-> assigned_to dec = None)
  /\ (length (issue_assignees dec) <= 1)%nat
  /\ (forall name, In name (issue_assignees dec) ->
                   ~ In "@"%char (Py.chars name)
                   /\ ~ In "."%char (Py.chars name))
  /\ last (issue_labels dec) "" = "auto-routed"
  /\ (forall bug s s' ctx,
         _extract_bug_context bug s = (Ok ctx, s') ->
         suggested_labels dec = _suggest_labels ctx ->
         NoDup (issue_labels dec)).
Proof.
  unfold issue_assignees, issue_labels.
  split.
  { destruct (assigned_to dec); split; discriminate || reflexivity. }
  split.
  { destruct (assigned_to dec); simpl; lia. }
  split.
  { destruct (assigned_to dec) as [a |]; [ | intros name [] ].
    intros name [<- | []].
    apply username_clean. }
  split; [ apply last_last | ].
  intros bug s s' ctx Hctx ->. apply NoDup_app.
  - apply (ContextFacts.labels_distinct bug s s' ctx Hctx).
  - repeat constructor. intros [].
  - intros l Hl [<- | []].
    destruct (ContextFacts.label_kinds ctx _ Hl) as [E | [area E]];
      discriminate E.
Qed.

Lemma issue_of_a_decision_witness :
  exists ctx s',
    _extract_bug_context login_report initial = (Ok ctx, s')
    /\ issue_assignees (decision (Some alice) [] ctx one_file_model)
       = ["alice"]
    /\ NoDup (issue_labels (decision (Some alice) [] ctx one_file_model)).
Proof.
  eexists. eexists.
  assert (E : _extract_bug_context login_report initial = (Ok _, _))
    by (vm_compute; reflexivity).
  split; [ exact E | ]. split; [ reflexivity | ].
  apply (proj2 (proj2 (proj2 (proj2 (issue_of_a_decision _)))) _ _ _ _ E).
  reflexivity.
Defined.

End GithubFacts.

(* ================================================================= *)
(** * The requests of an analysis *)

Module TraceFacts.
Import Fx Analyzer Spec Samples DictFacts FxFacts AnalysisFacts ProcessFacts.
Import FetchFacts.

Lemma details_step (w : World) (repo sha : string) (s : state) :
  exists s',
    _get_commit_details w repo sha s
    = (Ok (fst (details_seen w repo (cache s) sha)), s')
    /\ cache s' = snd (details_seen w repo (cache s) sha)
    /\ trace s'
       = trace s ++ match Py.get (cache s) sha with
                    | Some _ => []
                    | None => [GetCommit repo sha]
                    end.
Proof.
  unfold _get_commit_details, details_seen, bind, get_cache, send, put_cache,
    ret.
  destruct (Py.get (cache s) sha) as [d |].
  - exists s. simpl. now rewrite app_nil_r.
  - destruct (status_code (commit_of w repo sha) =? 200)%Z; simpl; eauto.
Qed.

(** what the cache misses after a lookup it missed before *)
Lemma seen_keeps_misses (w : World) (repo : string)
      (c : Py.dict commit_details) (sha sha' : string) :
  Py.get (snd (details_seen w repo c sha)) sha' = None ->
  Py.get c sha' = None.
Proof.
  unfold details_seen. destruct (Py.get c sha); simpl; auto.
  destruct (status_code (commit_of w repo sha) =? 200)%Z; simpl; auto.
  rewrite get_set. destruct (String.eqb sha' sha); [ discriminate | auto ].
Qed.

Lemma collect_trace (w : World) (repo : string) (commits : list commit) :
  forall (acc : accumulators) (s : state),
  exists s' reqs,
    foldM
      (fun acc commit =>
         commit_details <- _get_commit_details w repo (sha commit) ;;
         ret (fold_left (touch (author_email commit))
                        (files_of commit_details) acc))
      commits acc s
    = (Ok (fold_left (fun acc (t : touched) => touch (fst t) acc (snd t))
                     (touches_of w repo (cache s) commits) acc), s')
    /\ trace s' = trace s ++ reqs
    /\ (length reqs <= length commits)%nat
    /\ (forall r, In r reqs ->
                  exists c, In c commits
                            /\ r = GetCommit repo (sha c)
                            /\ Py.get (cache s) (sha c) = None).
Proof.
  induction commits as [| c commits IH]; intros acc s.
  - exists s, []. simpl. rewrite app_nil_r. repeat split; auto.
    intros r [].
  - destruct (details_step w repo (sha c) s) as (s1 & E & Hc & Ht).
    destruct (details_seen w repo (cache s) (sha c)) as [d cache'] eqn:D.
    simpl in E, Hc.
    destruct (IH (fold_left (touch (author_email c)) (files_of d) acc) s1)
      as (s2 & reqs & E2 & Ht2 & Hlen & Hreqs).
    exists s2.
    exists (match Py.get (cache s) (sha c) with
            | Some _ => []
            | None => [GetCommit repo (sha c)]
            end ++ reqs).
    split; [ | split; [ | split ] ].
    + simpl foldM. unfold bind at 1. unfold bind at 1. rewrite E.
      unfold ret at 1. rewrite E2, Hc. simpl touches_of. rewrite D.
      now rewrite fold_left_app, fold_touch_author.
    + rewrite Ht2, Ht. now rewrite <- app_assoc.
    + rewrite length_app. simpl length.
      destruct (Py.get (cache s) (sha c)); simpl; lia.
    + intros r Hr. apply in_app_or in Hr. destruct Hr as [Hr | Hr].
      * destruct (Py.get (cache s) (sha c)) eqn:G; [ destruct Hr | ].
        destruct Hr as [<- | []]. exists c. repeat split; auto. now left.
      * destruct (Hreqs r Hr) as (c' & Hin & -> & Hmiss).
        exists c'. split; [ now right | ]. split; [ reflexivity | ].
        rewrite Hc in Hmiss.
        apply (seen_keeps_misses w repo (cache s) (sha c)).
        now rewrite D.
Qed.

Lemma last_modified_run (w : World) (repo path : string) (s : state) :
  exists lm,
    _get_file_last_modified w repo path s
    = (Ok lm, {| cache := cache s;
                 trace := trace s ++ [GetLastCommit repo path] |}).
Proof.
  unfold _get_file_last_modified, bind, send, ret.
  destruct (status_code (last_commit_dates w repo path) =? 200)%Z;
    [ destruct (json (last_commit_dates w repo path)) | ]; eauto.
Qed.

Lemma build_from (w : World) (repo : string) (acc : accumulators)
      (l : Py.dict (Py.dict Z)) :
  forall (om : Py.dict FileOwnership) (s : state),
  (forall p, In p (Py.keys l) -> In p (Py.keys (acc_file_complexity acc))) ->
  NoDup (Py.keys om ++ Py.keys l) ->
  exists om' s',
    foldM
      (fun ownership_map (entry : string * Py.dict Z) =>
         let (file_path, contributors) := entry in
         last_modified <- _get_file_last_modified w repo file_path ;;
         data <- item file_path
                      (Py.get (acc_file_complexity acc) file_path) ;;
         ret (Py.set ownership_map file_path
                (ownership_record file_path contributors last_modified data)))
      l om s
    = (Ok om', s')
    /\ Py.keys om' = Py.keys om ++ Py.keys l
    /\ cache s' = cache s
    /\ trace s' = trace s ++ map (GetLastCommit repo) (Py.keys l).
Proof.
  induction l as [| [p c] l IH]; intros om s Hsub Hnd.
  - exists om, s. simpl. rewrite !app_nil_r. auto.
  - destruct (last_modified_run w repo p s) as (lm & E).
    destruct (get_in_keys _ _ (Hsub p (or_introl eq_refl))) as (d & Hd).
    assert (Hfresh : ~ In p (Py.keys om)).
    { intros Hin. simpl in Hnd. apply NoDup_remove_2 in Hnd.
      apply Hnd. apply in_or_app. now left. }
    destruct (IH (Py.set om p (ownership_record p c lm d))
                 {| cache := cache s;
                    trace := trace s ++ [GetLastCommit repo p] |})
      as (om' & s' & E' & Hk & Hc & Ht).
    + intros q Hq. apply Hsub. now right.
    + rewrite keys_set, <- (keys_set om p (ownership_record p c lm d)).
      rewrite (set_fresh _ _ _ Hfresh). unfold Py.keys at 1.
      rewrite map_app. simpl map. rewrite <- app_assoc. exact Hnd.
    + exists om', s'. split; [ | split; [ | split ] ].
      * simpl foldM. unfold bind at 1. unfold bind at 1. rewrite E.
        rewrite Hd. unfold item, bind at 1, ret at 1. unfold ret at 1.
        exact E'.
      * rewrite Hk, (set_fresh _ _ _ Hfresh). unfold Py.keys at 1.
        rewrite map_app. simpl. now rewrite <- app_assoc.
      * exact Hc.
      * rewrite Ht. simpl. now rewrite <- app_assoc.
Qed.

Lemma touched_keys (path : string) (ts : list touched) :
  forall acc,
    In path (Py.keys (acc_file_ownership
                        (fold_left (fun acc (t : touched) =>
                                      touch (fst t) acc (snd t)) ts acc)))
    <-> In path (Py.keys (acc_file_ownership acc))
        \/ exists t, In t ts /\ filename (snd t) = path.
Proof.
  induction ts as [| t ts IH]; intros acc; simpl.
  - split; [ auto | ]. intros [H | (t & [] & _)]. exact H.
  - rewrite IH. unfold touch. simpl acc_file_ownership.
    rewrite keys_upd, set_add_in. split.
    + intros [[-> | H] | (t' & Hin & E)]; eauto.
    + intros [H | (t' & [<- | Hin] & E)]; eauto.
Qed.

(** X18: what an analysis that returns has cost and covers.  Its
    requests were, in this order: at most ten pages of commits;
    requests for commit details, none of them for a commit that was
    cached when the analysis began; then exactly one request for the
    date of each changed file.  The files of the ownership map are the
    files changed by the processed commits, each once, in the order of
    the accumulated table. *)
Theorem analysis_requests_and_records
        (w : World) (repo : string) (days : Z) (s s' : state)
        (m : ownership_data) :
  analyze_repository_ownership w repo days s = (Ok m, s') ->
  let since := (now w - days * 86400)%Z in
  let events := processed w repo days s in
  let changed := Py.keys (acc_file_ownership (accumulate events)) in
  exists pages details,
    Py.keys (file_ownership m) = changed
    /\ NoDup changed
    /\ (forall path,
           In path changed
           <-> exists t, In t events /\ filename (snd t) = path)
    /\ trace s'
       = trace s ++ map (GetCommits repo since) (seq 1 pages)
                 ++ details ++ map (GetLastCommit repo) changed
    /\ (pages <= 10)%nat
    /\ (forall r, In r details ->
                  exists sha, r = GetCommit repo sha
                              /\ Py.get (cache s) sha = None).
Proof.
  intros Hrun. cbv zeta. unfold processed, _get_recent_commits.
  unfold analyze_repository_ownership, _get_recent_commits in Hrun.
  destruct (fetch_pages_run w repo (now w - days * 86400) 10 1 [] s)
    as (k & Hk & E & _).
  rewrite E. simpl cache.
  unfold bind at 1 in Hrun. rewrite E in Hrun.
  change ([] ++ pages_commits w repo (now w - days * 86400) 1 k)
    with (pages_commits w repo (now w - days * 86400) 1 k) in *.
  set (commits := pages_commits w repo (now w - days * 86400) 1 k) in *.
  set (s1 := {| cache := cache s;
                trace := trace s
                         ++ map (GetCommits repo (now w - days * 86400))
                                (seq 1 (Nat.min 10 (S k))) |}) in *.
  destruct (collect_trace w repo commits no_accumulators s1)
    as (s2 & details & E2 & Ht2 & _ & Hd).
  change (cache s1) with (cache s) in E2, Hd.
  set (acc := accumulate (touches_of w repo (cache s) commits)) in *.
  change (fold_left (fun acc (t : touched) => touch (fst t) acc (snd t))
                    (touches_of w repo (cache s) commits) no_accumulators)
    with acc in E2.
  destruct (accumulate_good (touches_of w repo (cache s) commits))
    as (Hkeys & _).
  fold acc in Hkeys.
  destruct (build_from w repo acc (acc_file_ownership acc) [] s2)
    as (om & s3 & E3 & Hom & _ & Ht3).
  { intros p Hp. now rewrite <- Hkeys. }
  { apply accumulate_nodup. }
  unfold bind at 1 in Hrun. unfold collect in Hrun. rewrite E2 in Hrun.
  unfold bind at 1 in Hrun. unfold build_ownership_map in Hrun.
  rewrite E3 in Hrun. unfold ret in Hrun.
  inversion Hrun; subst m s'; clear Hrun.
  exists (Nat.min 10 (S k)), details. cbn [file_ownership].
  split; [ | split; [ | split; [ | split; [ | split ] ] ] ].
  - exact Hom.
  - apply accumulate_nodup.
  - intros path. unfold acc, accumulate. rewrite touched_keys. simpl.
    split; [ intros [[] | H]; exact H | auto ].
  - rewrite Ht3, Ht2. unfold s1. simpl trace. now rewrite <- !app_assoc.
  - apply Nat.le_min_l.
  - intros r Hr. destruct (Hd r Hr) as (c & _ & -> & Hmiss). eauto.
Qed.

Lemma analysis_requests_and_records_witness :
  exists m s' pages details,
    analyze_repository_ownership alice_world "company/backend-api" 90 initial
    = (Ok m, s')
    /\ Py.keys (file_ownership m)
       = Py.keys (acc_file_ownership
                    (accumulate (processed alice_world "company/backend-api"
                                           90 initial)))
    /\ trace s'
       = map (GetCommits "company/backend-api"
                         (now alice_world - 90 * 86400)) (seq 1 pages)
         ++ details
         ++ map (GetLastCommit "company/backend-api")
                (Py.keys (file_ownership m)).
Proof.
  eexists. eexists.
  assert (E : analyze_repository_ownership alice_world "company/backend-api"
                                           90 initial
              = (Ok _, _)) by (vm_compute; reflexivity).
  destruct (analysis_requests_and_records _ _ _ _ _ _ E)
    as (pages & details & Hk & _ & _ & Ht & _).
  exists pages, details.
  split; [ exact E | ]. split; [ exact Hk | ].
  rewrite Ht, Hk. reflexivity.
Defined.

End TraceFacts.

(* ================================================================= *)
(** * The complexity estimate *)

Module EstimateFacts.
Import Fx Analyzer Router Spec Samples PyFacts.
Local Open Scope Q_scope.

Lemma Qltb_cases (x y : Q) :
  (Qltb x y = true /\ x < y) \/ (Qltb x y = false /\ y <= x).
Proof.
  unfold Qltb. destruct (Qle_bool y x) eqn:E; simpl.
  - right. split; [ reflexivity | now apply Qle_bool_iff ].
  - left. split; [ reflexivity | ].
    apply Qnot_le_lt. intros H. apply Qle_bool_iff in H. congruence.
Qed.

Lemma len_mono {A B} (l : list A) (l' : list B) :
  (length l <= length l')%nat -> len l <= len l'.
Proof. intros H. unfold len. rewrite <- Zle_Qle. lia. Qed.

Lemma len_nonneg {A} (l : list A) : 0 <= len l.
Proof. unfold len. change 0 with (inject_Z 0). rewrite <- Zle_Qle. lia. Qed.

Lemma len_cons {A} (x : A) (l : list A) : 1 <= len (x :: l).
Proof.
  unfold len. change 1 with (inject_Z 1). rewrite <- Zle_Qle.
  simpl length. lia.
Qed.

Ltac thresholds :=
  repeat match goal with
         | |- context [Qltb ?a ?b] =>
             let E := fresh "E" in
             let H := fresh "H" in
             destruct (Qltb_cases a b) as [[E H] | [E H]];
             rewrite E; clear E
         end.

(** X19: the complexity estimate counts what the report mentions and
    nothing else: the ownership data play no part, and a report that
    mentions at least as many files, areas and error types as another
    is never estimated lower.  A report with an affected area is never
    "low", one with five or more is "critical", and one with no file,
    area or error type is "low". *)
Theorem estimate_grows_with_the_report
        (ctx ctx' : context) (data data' : ownership_data) :
  (length (mentioned_files ctx) <= length (mentioned_files ctx'))%nat ->
  (length (affected_areas ctx) <= length (affected_areas ctx'))%nat ->
  (length (error_types ctx) <= length (error_types ctx'))%nat ->
  (level (_estimate_complexity ctx data)
   <= level (_estimate_complexity ctx' data'))%nat
  /\ (affected_areas ctx <> [] -> _estimate_complexity ctx data <> "low")
  /\ ((5 <= length (affected_areas ctx'))%nat ->
      _estimate_complexity ctx' data' = "critical")
  /\ (mentioned_files ctx' = [] -> affected_areas ctx' = [] ->
      error_types ctx' = [] -> _estimate_complexity ctx' data = "low").
Proof.
  intros Hf Ha He.
  pose proof (len_mono _ _ Hf) as Lf.
  pose proof (len_mono _ _ Ha) as La.
  pose proof (len_mono _ _ He) as Le.
  pose proof (len_nonneg (mentioned_files ctx)) as Pf.
  pose proof (len_nonneg (error_types ctx)) as Pe.
  pose proof (len_nonneg (mentioned_files ctx')) as Pf'.
  pose proof (len_nonneg (error_types ctx')) as Pe'.
  split; [ | split; [ | split ] ].
  - unfold _estimate_complexity. cbv zeta.
    set (f := len (mentioned_files ctx)) in *.
    set (a := len (affected_areas ctx)) in *.
    set (e := len (error_types ctx)) in *.
    set (f' := len (mentioned_files ctx')) in *.
    set (a' := len (affected_areas ctx')) in *.
    set (e' := len (error_types ctx')) in *.
    clearbody f a e f' a' e'.
    thresholds; unfold level; simpl; try lia; exfalso; lra.
  - intros Hne. destruct (affected_areas ctx) as [| x l] eqn:Ea;
      [ now elim Hne | ].
    pose proof (len_cons x l) as L1.
    unfold _estimate_complexity. cbv zeta. rewrite Ea.
    set (f := len (mentioned_files ctx)) in *.
    set (a := len (x :: l)) in *.
    set (e := len (error_types ctx)) in *.
    clearbody f a e.
    thresholds; try discriminate. exfalso. lra.
  - intros H5.
    assert (L5 : 5 <= len (affected_areas ctx')).
    { unfold len. change 5 with (inject_Z 5). rewrite <- Zle_Qle. lia. }
    unfold _estimate_complexity. cbv zeta.
    set (f' := len (mentioned_files ctx')) in *.
    set (a' := len (affected_areas ctx')) in *.
    set (e' := len (error_types ctx')) in *.
    clearbody f' a' e'.
    thresholds; try reflexivity; exfalso; lra.
  - intros E1 E2 E3. unfold _estimate_complexity. cbv zeta.
    rewrite E1, E2, E3. reflexivity.
Qed.

Lemma estimate_grows_with_the_report_witness :
  (level (_estimate_complexity one_area one_file_model)
   <= level (_estimate_complexity one_area_and_more empty_model))%nat
  /\ _estimate_complexity one_area one_file_model <> "low".
Proof.
  destruct (estimate_grows_with_the_report
              one_area one_area_and_more one_file_model empty_model)
    as (H1 & H2 & _); [ simpl; lia | simpl; lia | simpl; lia | ].
  split; [ exact H1 | apply H2; discriminate ].
Defined.

End EstimateFacts.

